(** * Guitar tablature conversion: a shallow embedding and its properties

    This development embeds the two note-to-fretboard converters of the
    repository and the code around them,

    - [MidiToTab]: services/midi_to_tab_converter.py (class MidiToTabConverter),
    - [TabText]:   the text lines of a measure (TabMeasure.get_tab_strings of
                   the same file),
    - [TabConv]:   services/tab_renderer/tab_converter.py (classes
                   ChordShapeDetector and TabConverter),
    - [TabRender]: services/tab_renderer/tab_renderer.py (classes
                   VexFlowFormatter and TabRenderer),

    and states the properties of the tablature specification over them.

    Conventions of the embedding.
    - MIDI pitches, frets, string numbers and velocities are Python ints: [Z].
    - Times, costs, scores and difficulties are Python floats.  They are
      embedded as exact rationals ([Q]); rounding is not modelled.  Every
      concrete input used below is built from values on which the float
      comparisons of the source and the rational ones agree.
    - Python exceptions are values of [result]; [logger.warning] appends to
      an explicit log.
    - Objects that the source mutates through several references (the notes
      of a measure) live in a list and are referred to by their index. *)

From Stdlib Require Import ZArith QArith Qabs Qround Lqa List Bool Lia Permutation Sorted.
From stdpp Require Import base option list gmap strings pretty.
Import ListNotations.

Local Open Scope Z_scope.

(** ** Python runtime helpers *)

Module Py.

Inductive exn : Type :=
| ValueError
| TypeError
| IndexError
| ZeroDivisionError.

Inductive result (A : Type) : Type :=
| Ok (a : A)
| Raise (e : exn).
Arguments Ok {A} a.
Arguments Raise {A} e.

Definition rbind {A B} (r : result A) (k : A -> result B) : result B :=
  match r with
  | Ok a => k a
  | Raise e => Raise e
  end.

Definition Qlt_bool (x y : Q) : bool := negb (Qle_bool y x).

(** [l[i]] with Python's negative indices. *)
Definition index {A} (l : list A) (i : Z) : result A :=
  let n := Z.of_nat (length l) in
  let j := if i <? 0 then i + n else i in
  if (0 <=? j) && (j <? n)
  then match nth_error l (Z.to_nat j) with
       | Some a => Ok a
       | None => Raise IndexError
       end
  else Raise IndexError.

(** [enumerate(l)], counting from [start]. *)
Fixpoint enumerate_from {A} (start : Z) (l : list A) : list (Z * A) :=
  match l with
  | [] => []
  | a :: l' => (start, a) :: enumerate_from (start + 1) l'
  end.

Definition enumerate {A} (l : list A) : list (Z * A) := enumerate_from 0 l.

(** [sorted(l, key=key)]: the sort is stable, so its result is the one of
    the stable insertion sort. *)
Fixpoint insert_by {A} (key : A -> Q) (x : A) (l : list A) : list A :=
  match l with
  | [] => [x]
  | y :: l' => if Qle_bool (key x) (key y) then x :: y :: l'
               else y :: insert_by key x l'
  end.

Fixpoint sorted {A} (key : A -> Q) (l : list A) : list A :=
  match l with
  | [] => []
  | x :: l' => insert_by key x (sorted key l')
  end.

(** [min(l, key=key)] returns the first minimal element; on an empty
    sequence it raises ValueError. *)
Fixpoint min_by_from {A} (key : A -> Q) (best : A) (l : list A) : A :=
  match l with
  | [] => best
  | x :: l' => min_by_from key (if Qlt_bool (key x) (key best) then x else best) l'
  end.

Definition min_by {A} (key : A -> Q) (l : list A) : result A :=
  match l with
  | [] => Raise ValueError
  | x :: l' => Ok (min_by_from key x l')
  end.

Fixpoint min_from (best : Z) (l : list Z) : Z :=
  match l with
  | [] => best
  | x :: l' => min_from (if x <? best then x else best) l'
  end.

Definition min (l : list Z) : result Z :=
  match l with
  | [] => Raise ValueError
  | x :: l' => Ok (min_from x l')
  end.

Fixpoint max_from (best : Z) (l : list Z) : Z :=
  match l with
  | [] => best
  | x :: l' => max_from (if best <? x then x else best) l'
  end.

Definition max (l : list Z) : result Z :=
  match l with
  | [] => Raise ValueError
  | x :: l' => Ok (max_from x l')
  end.

(** [max] over floats. *)
Fixpoint maxq_from (best : Q) (l : list Q) : Q :=
  match l with
  | [] => best
  | x :: l' => maxq_from (if Qlt_bool best x then x else best) l'
  end.

Definition maxq (l : list Q) : result Q :=
  match l with
  | [] => Raise ValueError
  | x :: l' => Ok (maxq_from x l')
  end.

(** [int(x)] on a float: truncation towards zero. *)
Definition int_of_float (x : Q) : Z :=
  if Qle_bool 0 x then Qfloor x else Qceiling x.

(** [sorted(l, key=key)] on a list of references into [store] (the
    objects of [store] themselves, in Python), as the list of their
    indices. *)
Definition sorted_refs {A} (key : A -> Q) (store : list A) : list nat :=
  sorted (fun i => match store !! i with Some a => key a | None => 0%Q end)
         (seq 0 (length store)).

(** [a / b] on floats. *)
Definition truediv (a b : Q) : result Q :=
  if Qeq_bool b 0 then Raise ZeroDivisionError else Ok (a / b)%Q.

End Py.

#[export] Instance result_ret : MRet Py.result := @Py.Ok.
#[export] Instance result_bind : MBind Py.result := fun A B k r => Py.rbind r k.

(** ** MidiToTabConverter (midi_to_tab_converter.py) *)

Module MidiToTab.

Import Py.

(** A [(string, fret)] tuple. *)
Definition Position : Type := (Z * Z)%type.

Inductive Technique : Type :=
| NORMAL | HAMMER_ON | PULL_OFF | SLIDE_UP | SLIDE_DOWN | BEND | RELEASE
| VIBRATO | PALM_MUTE | HARMONIC | TAP.

Record TabNote : Type := mkTabNote {
  string : Z;
  fret : Z;
  start_time : Q;
  duration : Q;
  technique : Technique;
  velocity : Z;
  alternatives : list Position
}.

(** The dict built by [_extract_midi_data] for one MIDI note; [context]
    is the optional key read with [midi_note.get('context', {})], of
    which only ['melodic'] is used. *)
Record MidiNote : Type := mkMidiNote {
  pitch : Z;
  start : Q;
  end_ : Q;
  note_velocity : Z;
  context_melodic : bool
}.

Record TabConfig : Type := mkTabConfig {
  tuning : list Z;
  capo : Z;
  max_fret_span : Z;
  prefer_low_positions : bool;
  detect_chords : bool;
  detect_techniques : bool;
  quantize_timing : bool;
  quantize_resolution : Z;
  include_rhythm_notation : bool;
  tab_width : Z
}.

Definition STANDARD : list Z := [40; 45; 50; 55; 59; 64].

(** [TabConfig()] with its field defaults. *)
Definition default_config : TabConfig :=
  {| tuning := STANDARD; capo := 0; max_fret_span := 4;
     prefer_low_positions := true; detect_chords := true;
     detect_techniques := true; quantize_timing := true;
     quantize_resolution := 16; include_rhythm_notation := true;
     tab_width := 80 |}.

(** One [logger.warning] record of the converter: the pitch of the
    message ["Note {pitch} out of range for guitar"]. *)
Inductive LogRecord : Type :=
| WARNING_out_of_range (pitch : Z).

Record ChordInfo : Type := mkChordInfo {
  root : String.string;
  type : String.string;
  shape : option String.string;
  pitches : list Z
}.

(** The dict appended to [chords] by [_detect_chords]. *)
Record Chord : Type := mkChord {
  time : Q;
  chord_duration : Q;
  chord : ChordInfo;
  tab_positions : list Position
}.

Record TabMeasure : Type := mkTabMeasure {
  measure_number : Z;
  time_signature : Z * Z;
  tempo : Q;
  notes : list TabNote;
  chords : list Chord
}.

Record TimingInfo : Type := mkTimingInfo {
  timing_tempo : Q;
  time_signatures : list (Z * Z)
}.

Section Converter.

(** The converter object: [self.config]; [self.tuning], [self.max_fret]
    and [self.chord_shapes] are computed from it by [__init__]. *)
Variable cfg : TabConfig.

(** [self.tuning = [note + self.config.capo for note in self.config.tuning]] *)
Definition self_tuning : list Z :=
  map (fun note => note + capo cfg) (tuning cfg).

Definition max_fret : Z := 24.

(** [_load_chord_shapes] *)
Definition _load_chord_shapes : gmap String.string (list (String.string * list Position)) :=
  list_to_map
    [ ("Cmajor"%string, [("open"%string, [(2, 3); (3, 2); (5, 1)])]);
      ("Gmajor"%string, [("open"%string, [(1, 3); (2, 3); (6, 3)])]);
      ("Dmajor"%string, [("open"%string, [(1, 2); (2, 3); (3, 2)])]);
      ("Aminor"%string, [("open"%string, [(2, 2); (3, 2); (4, 1)])]);
      ("Eminor"%string, [("open"%string, [(3, 2); (4, 2)])]) ].

Definition chord_shapes := _load_chord_shapes.

(** [_get_fret_positions] *)
Definition _get_fret_positions (midi_pitch : Z) : list Position :=
  flat_map (fun '(string_idx, open_pitch) =>
              let fret := midi_pitch - open_pitch in
              if (0 <=? fret) && (fret <=? max_fret)
              then [(string_idx + 1, fret)] else [])
           (enumerate self_tuning).

Definition Position_eqb (p q : Position) : bool :=
  (fst p =? fst q) && (snd p =? snd q).

(** The cost of one candidate in [_select_optimal_position]. *)
Definition position_cost (previous pos : Position) (melodic : bool) : Q :=
  let string_diff := Z.abs (fst pos - fst previous) in
  let fret_diff := Z.abs (snd pos - snd previous) in
  let cost := inject_Z (string_diff * 3 + fret_diff) in
  let cost := if max_fret_span cfg <? fret_diff
              then (cost + inject_Z ((fret_diff - max_fret_span cfg) * 5))%Q
              else cost in
  let cost := if melodic then (cost + inject_Z (string_diff * 2))%Q else cost in
  let cost := if prefer_low_positions cfg && (12 <? snd pos)
              then (cost + inject_Z (snd pos - 12) * (1 # 2))%Q
              else cost in
  cost.

(** [_select_optimal_position]; [None] is Python's [None]. *)
Definition _select_optimal_position (positions : list Position)
    (previous : option Position) (melodic : bool) : result (option Position) :=
  match positions with
  | [] => Ok None
  | _ =>
    match previous with
    | None =>
      if prefer_low_positions cfg
      then p ← min_by (fun p => inject_Z (snd p)) positions; Ok (Some p)
      else p ← index positions (Z.of_nat (length positions) / 2); Ok (Some p)
    | Some previous =>
      let position_costs :=
        map (fun pos => (pos, position_cost previous pos melodic)) positions in
      pc ← min_by snd position_costs; Ok (Some (fst pc))
    end
  end.

(** [_convert_to_tab_notes]: the loop over [midi_notes], with its three
    variables and the log. *)
Fixpoint convert_loop (midi_notes : list MidiNote) (tab_notes : list TabNote)
    (previous_position : option Position) (log : list LogRecord)
    : result (list TabNote * list LogRecord) :=
  match midi_notes with
  | [] => Ok (tab_notes, log)
  | midi_note :: rest =>
    let positions := _get_fret_positions (pitch midi_note) in
    match positions with
    | [] =>
      convert_loop rest tab_notes previous_position
                   (log ++ [WARNING_out_of_range (pitch midi_note)])
    | _ =>
      o ← _select_optimal_position positions previous_position
            (context_melodic midi_note);
      match o with
      | None => Raise TypeError
      | Some optimal_pos =>
        let tab_note :=
          {| string := fst optimal_pos;
             fret := snd optimal_pos;
             start_time := start midi_note;
             duration := (end_ midi_note - start midi_note)%Q;
             technique := NORMAL;
             velocity := note_velocity midi_note;
             alternatives :=
               List.filter (fun p => negb (Position_eqb p optimal_pos)) positions |} in
        convert_loop rest (tab_notes ++ [tab_note]) (Some optimal_pos) log
      end
    end
  end.

Definition _convert_to_tab_notes (midi_notes : list MidiNote)
    : result (list TabNote * list LogRecord) :=
  convert_loop midi_notes [] None [].

(** [time_threshold = 0.05] of [_detect_chords]: 50 ms. *)
Definition time_threshold : Q := 5 # 100.

(** The grouping loop of [_detect_chords], with its variables
    [note_groups] and [current_group]. *)
Fixpoint chord_group_loop (sorted_notes : list TabNote)
    (note_groups : list (list TabNote)) (current_group : list TabNote)
    : list (list TabNote) * list TabNote :=
  match sorted_notes with
  | [] => (note_groups, current_group)
  | note :: rest =>
    if match current_group with [] => true | _ => false end
       || Qlt_bool (Qabs (start_time note - start_time (List.last current_group note)))
                   time_threshold
    then chord_group_loop rest note_groups (current_group ++ [note])
    else
      let note_groups :=
        if 3 <=? Z.of_nat (length current_group)
        then note_groups ++ [current_group] else note_groups in
      chord_group_loop rest note_groups [note]
  end.

Definition chord_note_groups (tab_notes : list TabNote) : list (list TabNote) :=
  let '(note_groups, current_group) :=
    chord_group_loop (sorted start_time tab_notes) [] [] in
  if 3 <=? Z.of_nat (length current_group)
  then note_groups ++ [current_group] else note_groups.

Definition chord_patterns : list (String.string * list Z) :=
  [ ("major"%string, [0; 4; 7]);
    ("minor"%string, [0; 3; 7]);
    ("7"%string, [0; 4; 7; 10]);
    ("maj7"%string, [0; 4; 7; 11]);
    ("m7"%string, [0; 3; 7; 10]);
    ("sus2"%string, [0; 2; 7]);
    ("sus4"%string, [0; 5; 7]);
    ("dim"%string, [0; 3; 6]);
    ("aug"%string, [0; 4; 8]) ].

Definition note_names : list String.string :=
  [ "C"; "C#"; "D"; "D#"; "E"; "F"; "F#"; "G"; "G#"; "A"; "A#"; "B" ]%string.

(** [_find_chord_shape] *)
Definition _find_chord_shape (tab_notes : list TabNote)
    (root chord_type : String.string) : result (option String.string) :=
  let positions := map (fun n => (string n, fret n)) tab_notes in
  let positions_set : gset Position := list_to_set positions in
  match List.find (fun '(shape_name, shape_positions) =>
                     bool_decide (list_to_set (C := gset Position) shape_positions
                                    ⊆ positions_set))
                  (default [] (chord_shapes !! (root +:+ chord_type))) with
  | Some (shape_name, _) => Ok (Some shape_name)
  | None =>
    let frets := List.filter (fun f => 0 <? f) (map fret tab_notes) in
    match frets with
    | [] => Ok None
    | _ =>
      lo ← min frets;
      hi ← max frets;
      if lo =? hi then Ok (Some ("Barre " +:+ pretty lo)) else Ok None
    end
  end.

(** The [(root_pc, chord_type, pattern)] triples in the order in which
    the nested loops of [_identify_chord] visit them. *)
Definition chord_candidates : list (Z * (String.string * list Z)) :=
  flat_map (fun root_pc => map (fun tp => (root_pc, tp)) chord_patterns)
           (map Z.of_nat (seq 0 12)).

(** [_identify_chord] *)
Definition _identify_chord (pitches : list Z) (tab_notes : list TabNote)
    : result (option ChordInfo) :=
  let pitch_classes : gset Z := list_to_set (map (fun p => p mod 12) pitches) in
  match List.find (fun '(root_pc, (chord_type, pattern)) =>
                     let test_pattern :=
                       map (fun interval => (root_pc + interval) mod 12) pattern in
                     bool_decide (list_to_set (C := gset Z) test_pattern ⊆ pitch_classes))
                  chord_candidates with
  | Some (root_pc, (chord_type, _)) =>
    root_name ← index note_names root_pc;
    shape ← _find_chord_shape tab_notes root_name chord_type;
    Ok (Some {| root := root_name; type := chord_type;
                shape := shape; pitches := pitches |})
  | None => Ok None
  end.

(** The body of the loop "for group in note_groups" of [_detect_chords]:
    the chord appended for [group], if any. *)
Definition chord_of_group (group : list TabNote) : result (list Chord) :=
  pitches ← mapM (fun n => open_pitch ← index self_tuning (string n - 1);
                           Ok (open_pitch + fret n)) group;
  chord_info ← _identify_chord pitches group;
  match chord_info with
  | Some chord_info =>
    first ← index group 0;
    d ← maxq (map duration group);
    Ok [ {| time := start_time first;
            chord_duration := d;
            chord := chord_info;
            tab_positions := map (fun n => (string n, fret n)) group |} ]
  | None => Ok []
  end.

(** [_detect_chords] *)
Definition _detect_chords (tab_notes : list TabNote) : result (list Chord) :=
  chords ← mapM chord_of_group (chord_note_groups tab_notes);
  Ok (concat chords).

Definition set_technique (n : TabNote) (t : Technique) : TabNote :=
  {| string := string n; fret := fret n; start_time := start_time n;
     duration := duration n; technique := t; velocity := velocity n;
     alternatives := alternatives n |}.

(** One iteration of the loop of [_detect_techniques]: the technique of
    [curr_note] after it has been compared with [prev_note]. *)
Definition technique_after (prev_note curr_note : TabNote) : Technique :=
  if string prev_note =? string curr_note then
    let time_diff := (start_time curr_note - start_time prev_note)%Q in
    let fret_diff := fret curr_note - fret prev_note in
    if (0 <? fret_diff) && Qlt_bool time_diff (1 # 10)
       && (velocity curr_note <? velocity prev_note)
    then HAMMER_ON
    else if (fret_diff <? 0) && Qlt_bool time_diff (1 # 10)
            && (velocity curr_note <? velocity prev_note)
    then PULL_OFF
    else if (1 <? Z.abs fret_diff) && Qlt_bool time_diff (2 # 10)
    then (if 0 <? fret_diff then SLIDE_UP else SLIDE_DOWN)
    else technique curr_note
  else technique curr_note.

Fixpoint detect_techniques_from (prev_note : TabNote) (rest : list TabNote)
    : list TabNote :=
  match rest with
  | [] => []
  | curr_note :: rest =>
    let curr_note := set_technique curr_note (technique_after prev_note curr_note) in
    curr_note :: detect_techniques_from curr_note rest
  end.

(** [_detect_techniques] *)
Definition _detect_techniques (tab_notes : list TabNote) : list TabNote :=
  match tab_notes with
  | [] => []
  | first :: rest => first :: detect_techniques_from first rest
  end.

(** The loop of [_organize_measures], with its variables [measures],
    [current_measure_notes], [measure_start] and [measure_num]. *)
Fixpoint organize_loop (chords : list Chord) (time_sig : Z * Z) (tempo : Q)
    (measure_duration : Q) (tab_notes : list TabNote)
    (measures : list TabMeasure) (current_measure_notes : list TabNote)
    (measure_start : Q) (measure_num : Z)
    : list TabMeasure * list TabNote * Q * Z :=
  match tab_notes with
  | [] => (measures, current_measure_notes, measure_start, measure_num)
  | note :: rest =>
    if Qlt_bool (start_time note) (measure_start + measure_duration)
    then organize_loop chords time_sig tempo measure_duration rest
           measures (current_measure_notes ++ [note]) measure_start measure_num
    else
      let m :=
        {| measure_number := measure_num;
           time_signature := time_sig;
           tempo := tempo;
           notes := current_measure_notes;
           chords := List.filter
                       (fun c => Qle_bool measure_start (time c)
                                 && Qlt_bool (time c) (measure_start + measure_duration))
                       chords |} in
      organize_loop chords time_sig tempo measure_duration rest
        (measures ++ [m]) [note] (measure_start + measure_duration)%Q (measure_num + 1)
  end.

(** [_organize_measures] *)
Definition _organize_measures (tab_notes : list TabNote) (chords : list Chord)
    (timing_info : TimingInfo) : result (list TabMeasure) :=
  let tempo := timing_tempo timing_info in
  time_sig ← index (time_signatures timing_info) 0;
  let beats_per_measure := fst time_sig in
  beat_duration ← truediv 60 tempo;
  let measure_duration := (inject_Z beats_per_measure * beat_duration)%Q in
  let '(measures, current_measure_notes, measure_start, measure_num) :=
    organize_loop chords time_sig tempo measure_duration tab_notes [] [] 0%Q 1 in
  match current_measure_notes with
  | [] => Ok measures
  | _ =>
    Ok (measures ++
        [ {| measure_number := measure_num;
             time_signature := time_sig;
             tempo := tempo;
             notes := current_measure_notes;
             chords := List.filter (fun c => Qle_bool measure_start (time c)) chords |} ])
  end.

Record Statistics : Type := mkStatistics {
  total_notes : Z;
  total_measures : Z;
  detected_chords : Z;
  statistics_tempo : Q
}.

(** The dict returned by [convert_midi_to_tab], without its rendering
    ['tab_notation'], which is a string computed from ['measures']. *)
Record TabResult : Type := mkTabResult {
  result_measures : list TabMeasure;
  result_tuning : list Z;
  result_capo : Z;
  result_timing_info : TimingInfo;
  statistics : Statistics
}.

(** [convert_midi_to_tab], from the notes that [_extract_midi_data] has
    collected from the instruments; the sort is the one of
    [_extract_midi_data].  The second component is the log. *)
Definition convert_midi_to_tab (instrument_notes : list MidiNote)
    (timing_info : TimingInfo) : result (TabResult * list LogRecord) :=
  let notes := sorted start instrument_notes in
  '(tab_notes, log) ← _convert_to_tab_notes notes;
  chords ← (if detect_chords cfg then _detect_chords tab_notes else Ok []);
  let tab_notes :=
    if detect_techniques cfg then _detect_techniques tab_notes else tab_notes in
  measures ← _organize_measures tab_notes chords timing_info;
  Ok ({| result_measures := measures;
         result_tuning := tuning cfg;
         result_capo := capo cfg;
         result_timing_info := timing_info;
         statistics :=
           {| total_notes := Z.of_nat (length tab_notes);
              total_measures := Z.of_nat (length measures);
              detected_chords := Z.of_nat (length chords);
              statistics_tempo := timing_tempo timing_info |} |},
      log).

End Converter.

End MidiToTab.

(** ** ChordShapeDetector and TabConverter (tab_renderer/tab_converter.py) *)

Module TabConv.

Import Py.

Inductive PlayingTechnique : Type :=
| NORMAL | HAMMER_ON | PULL_OFF | SLIDE_UP | SLIDE_DOWN | BEND | VIBRATO
| PALM_MUTE | HARMONIC | TAP | DEAD_NOTE.

Definition STANDARD : list Z := [40; 45; 50; 55; 59; 64].

Record GuitarNote : Type := mkGuitarNote {
  pitch : Z;
  start_time : Q;
  end_time : Q;
  string : Z;
  fret : Z;
  velocity : Z;
  techniques : list PlayingTechnique;
  is_chord_tone : bool;
  chord_shape : option String.string;
  difficulty : Q
}.

(** [chords] and [lyrics] are never written by the converter. *)
Record TabMeasure : Type := mkTabMeasure {
  number : Z;
  time_signature : Z * Z;
  tempo : Q;
  notes : list GuitarNote;
  chords : list unit;
  lyrics : option String.string
}.

Record TabConfiguration : Type := mkTabConfiguration {
  tuning : list Z;
  capo_position : Z;
  max_fret_span : Z;
  prefer_open_strings : bool;
  prefer_low_positions : bool;
  max_position : Z;
  allow_impossible_stretches : bool;
  detect_chords : bool;
  optimize_fingering : bool;
  include_techniques : bool;
  difficulty_threshold : Q
}.

(** [TabConfiguration()] with its field defaults. *)
Definition default_configuration : TabConfiguration :=
  {| tuning := STANDARD; capo_position := 0; max_fret_span := 4;
     prefer_open_strings := true; prefer_low_positions := true;
     max_position := 12; allow_impossible_stretches := false;
     detect_chords := true; optimize_fingering := true;
     include_techniques := true; difficulty_threshold := 7 # 10 |}.

(** An input note dict.  ['velocity'] is optional (read with [.get]);
    ['chord_shape'] and ['is_chord_tone'] are the keys that
    [_assign_chord_fingerings] writes. *)
Record NoteData : Type := mkNoteData {
  note_pitch : Z;
  note_start : Q;
  note_end : Q;
  note_velocity : option Z;
  note_chord_shape : option String.string;
  note_is_chord_tone : option bool
}.

(** A position dict built by [_find_positions]. *)
Record PositionDict : Type := mkPositionDict {
  pos_string : Z;
  pos_fret : Z;
  pos_difficulty : Q;
  pos_is_open : bool;
  pos_position : Z
}.

Inductive LogRecord : Type :=
| WARNING_no_valid_position (pitch : Z)
| INFO_detected_chord_shape (chord_shape : String.string).

(** *** ChordShapeDetector *)

Definition COMMON_SHAPES : list (String.string * list (Z * Z)) :=
  [ ("C"%string, [(1, 0); (2, 1); (3, 0); (4, 2); (5, 3)]);
    ("G"%string, [(1, 3); (2, 0); (3, 0); (4, 0); (5, 2); (6, 3)]);
    ("D"%string, [(1, 2); (2, 3); (3, 2); (4, 0)]);
    ("A"%string, [(1, 0); (2, 2); (3, 2); (4, 2); (5, 0)]);
    ("E"%string, [(1, 0); (2, 0); (3, 1); (4, 2); (5, 2); (6, 0)]);
    ("F"%string, [(1, 1); (2, 1); (3, 2); (4, 3); (5, 3); (6, 1)]);
    ("Am"%string, [(1, 0); (2, 1); (3, 2); (4, 2); (5, 0)]);
    ("Em"%string, [(1, 0); (2, 0); (3, 0); (4, 2); (5, 2); (6, 0)]);
    ("Dm"%string, [(1, 1); (2, 3); (3, 2); (4, 0)]);
    ("G7"%string, [(1, 1); (2, 0); (3, 0); (4, 0); (5, 2); (6, 3)]);
    ("C7"%string, [(1, 0); (2, 1); (3, 3); (4, 2); (5, 3)]);
    ("D7"%string, [(1, 2); (2, 1); (3, 2); (4, 0)]) ].

Definition pair_eqb (p q : Z * Z) : bool :=
  (fst p =? fst q) && (snd p =? snd q).

(** [_matches_shape] *)
Definition _matches_shape (positions shape : list (Z * Z)) : result bool :=
  if negb (Nat.eqb (length positions) (length shape)) then Ok false
  else
    min_fret_positions ← min (List.filter (fun f => 0 <? f) (map snd positions));
    min_fret_shape ← min (List.filter (fun f => 0 <? f) (map snd shape));
    let offset := min_fret_positions - min_fret_shape in
    let adjusted_shape :=
      map (fun '(s, f) => (s, if 0 <? f then f + offset else 0)) shape in
    Ok (forallb (fun pos => existsb (pair_eqb pos) adjusted_shape) positions).

(** The loop "for chord_name, shape in self.COMMON_SHAPES.items()". *)
Fixpoint detect_in_shapes (positions : list (Z * Z))
    (shapes : list (String.string * list (Z * Z))) : result (option String.string) :=
  match shapes with
  | [] => Ok None
  | (chord_name, shape) :: shapes' =>
    b ← _matches_shape positions shape;
    if b : bool then Ok (Some chord_name) else detect_in_shapes positions shapes'
  end.

(** [detect_chord_shape] *)
Definition detect_chord_shape (notes : list GuitarNote) : result (option String.string) :=
  if (length notes <? 3)%nat then Ok None
  else
    let positions := map (fun n => (string n, fret n)) notes in
    detect_in_shapes positions COMMON_SHAPES.

(** *** TabConverter *)

(** The mutable part of a converter: [self.position_cache], and the
    records written to the logger. *)
Record ConverterState : Type := mkConverterState {
  position_cache : gmap Z (list PositionDict);
  log : list LogRecord
}.

(** A computation that reads and writes the converter state and may
    raise. *)
Definition M (A : Type) : Type := ConverterState -> result (A * ConverterState).

#[export] Instance M_ret : MRet M := fun A a st => Ok (a, st).
#[export] Instance M_bind : MBind M := fun A B k m st =>
  match m st with
  | Ok (a, st') => k a st'
  | Raise e => Raise e
  end.

Definition lift {A} (r : result A) : M A := fun st =>
  match r with
  | Ok a => Ok (a, st)
  | Raise e => Raise e
  end.

Definition logger (r : LogRecord) : M unit := fun st =>
  Ok (tt, {| position_cache := position_cache st; log := log st ++ [r] |}).

(** [TabConverter(config)]: an empty cache. *)
Definition new_converter : ConverterState :=
  {| position_cache := ∅; log := [] |}.

Section Converter.

Variable config : TabConfiguration.

(** [_calculate_difficulty] *)
Definition _calculate_difficulty (string fret : Z) : Q :=
  if fret =? 0 then 0%Q
  else
    let difficulty := (inject_Z fret / 24 * (3 # 10))%Q in
    let difficulty := if 12 <? fret
                      then (difficulty + inject_Z (fret - 12) / 12 * (3 # 10))%Q
                      else difficulty in
    let difficulty := if (string =? 1) || (string =? 6)
                      then (difficulty + (1 # 10))%Q else difficulty in
    let difficulty := if (string <=? 3) && (15 <? fret)
                      then (difficulty + (2 # 10))%Q else difficulty in
    if Qlt_bool 1 difficulty then 1%Q else difficulty.

(** [_get_hand_position] *)
Definition _get_hand_position (fret : Z) : Z :=
  if fret =? 0 then 0
  else if fret <=? 4 then 1
  else if fret <=? 7 then 5
  else if fret <=? 10 then 8
  else if fret <=? 14 then 12
  else 15.

(** The loop of [_find_positions] over the strings. *)
Definition compute_positions (pitch : Z) : list PositionDict :=
  flat_map (fun '(string_idx, open_pitch) =>
              let fret := pitch - open_pitch in
              if (0 <=? fret) && (fret <=? 24)
              then [ {| pos_string := string_idx + 1;
                        pos_fret := fret;
                        pos_difficulty := _calculate_difficulty (string_idx + 1) fret;
                        pos_is_open := fret =? 0;
                        pos_position := _get_hand_position fret |} ]
              else [])
           (enumerate (tuning config)).

(** [_find_positions]: the result is taken from the cache when the pitch
    is in it, and stored there otherwise. *)
Definition _find_positions (pitch : Z) : M (list PositionDict) := fun st =>
  match position_cache st !! pitch with
  | Some positions => Ok (positions, st)
  | None =>
    let positions := compute_positions pitch in
    Ok (positions,
        {| position_cache := <[pitch := positions]> (position_cache st);
           log := log st |})
  end.

(** [_filter_positions] *)
Definition _filter_positions (positions : list PositionDict) : list PositionDict :=
  List.filter
    (fun pos =>
       negb ((max_position config <? pos_fret pos) && negb (pos_is_open pos))
       && negb (Qlt_bool (difficulty_threshold config) (pos_difficulty pos)))
    positions.

(** The score of one candidate in [_select_optimal_position]. *)
Definition position_score (previous_notes : list GuitarNote) (pos : PositionDict) : Q :=
  let score := 0%Q in
  let score := if prefer_open_strings config && pos_is_open pos
               then (score + 2)%Q else score in
  let score := if prefer_low_positions config
               then (score + inject_Z (12 - pos_fret pos) / 12)%Q else score in
  let score :=
    match last previous_notes with
    | Some last_note =>
      let position_change :=
        Z.abs (pos_position pos - _get_hand_position (fret last_note)) in
      let string_change := Z.abs (pos_string pos - string last_note) in
      (score - inject_Z position_change * (5 # 10)
             - inject_Z string_change * (2 # 10))%Q
    | None => score
    end in
  (score - pos_difficulty pos * 2)%Q.

(** [_select_optimal_position]; [None] is Python's [None].  The list of
    scored positions is sorted by decreasing score, equal scores keeping
    their order ([reverse=True] keeps the sort stable). *)
Definition _select_optimal_position (positions : list PositionDict)
    (previous_notes : list GuitarNote) : option PositionDict :=
  match positions with
  | [] => None
  | [pos] => Some pos
  | _ =>
    let scored_positions :=
      map (fun pos => (position_score previous_notes pos, pos)) positions in
    match sorted (fun x => (- fst x)%Q) scored_positions with
    | best :: _ => Some (snd best)
    | [] => None
    end
  end.

(** [_convert_note]; [measure_notes] is [measure.notes]. *)
Definition _convert_note (note_data : NoteData) (measure_notes : list GuitarNote)
    : M (list GuitarNote) :=
  let pitch := note_pitch note_data in
  let adjusted_pitch := pitch - capo_position config in
  positions ← _find_positions adjusted_pitch;
  let positions := _filter_positions positions in
  match positions with
  | [] =>
    _ ← logger (WARNING_no_valid_position pitch);
    mret []
  | _ =>
    match _select_optimal_position positions measure_notes with
    | None => lift (Raise TypeError)
    | Some optimal_pos =>
      mret [ {| pitch := pitch;
                start_time := note_start note_data;
                end_time := note_end note_data;
                string := pos_string optimal_pos;
                fret := pos_fret optimal_pos;
                velocity := default 80 (note_velocity note_data);
                techniques := [];
                is_chord_tone := false;
                chord_shape := None;
                difficulty := pos_difficulty optimal_pos |} ]
    end
  end.

(** [_group_into_measures]: the loop, with its variables [measures],
    [current_measure] and [measure_start_time]. *)
Fixpoint group_loop (measure_duration : Q) (notes : list NoteData)
    (measures : list (list NoteData)) (current_measure : list NoteData)
    (measure_start_time : Q) : list (list NoteData) * list NoteData * Q :=
  match notes with
  | [] => (measures, current_measure, measure_start_time)
  | note :: rest =>
    if Qle_bool (measure_start_time + measure_duration) (note_start note)
    then
      let measures := match current_measure with
                      | [] => measures
                      | _ => measures ++ [current_measure]
                      end in
      group_loop measure_duration rest measures [note]
                 (measure_start_time + measure_duration)%Q
    else
      group_loop measure_duration rest measures (current_measure ++ [note])
                 measure_start_time
  end.

Definition _group_into_measures (notes : list NoteData) (time_signature : Z * Z)
    (tempo : Q) : result (list (list NoteData)) :=
  match notes with
  | [] => Ok []
  | _ =>
    let beats_per_measure := fst time_signature in
    beat_duration ← truediv 60 tempo;
    let measure_duration := (inject_Z beats_per_measure * beat_duration)%Q in
    let '(measures, current_measure, _) :=
      group_loop measure_duration (sorted note_start notes) [] [] 0%Q in
    match current_measure with
    | [] => Ok measures
    | _ => Ok (measures ++ [current_measure])
    end
  end.

(** [tolerance = 0.05] of [_detect_chord_groups]: 50 ms. *)
Definition tolerance : Q := 5 # 100.

(** [_detect_chord_groups]: the loop, over the references to the notes
    of [notes] in the order of [sorted_notes]. *)
Fixpoint chord_group_loop (notes : list NoteData) (sorted_notes : list nat)
    (chord_groups : list (list nat)) (current_group : list nat)
    (group_start : option Q) : list (list nat) * list nat :=
  match sorted_notes with
  | [] => (chord_groups, current_group)
  | i :: rest =>
    match notes !! i with
    | None => chord_group_loop notes rest chord_groups current_group group_start
    | Some note =>
      match group_start with
      | None => chord_group_loop notes rest chord_groups [i] (Some (note_start note))
      | Some gs =>
        if Qle_bool (Qabs (note_start note - gs)) tolerance
        then chord_group_loop notes rest chord_groups (current_group ++ [i]) group_start
        else
          let chord_groups :=
            if (2 <=? length current_group)%nat
            then chord_groups ++ [current_group] else chord_groups in
          chord_group_loop notes rest chord_groups [i] (Some (note_start note))
      end
    end
  end.

Definition _detect_chord_groups (notes : list NoteData) : list (list nat) :=
  let '(chord_groups, current_group) :=
    chord_group_loop notes (sorted_refs note_start notes) [] [] None in
  if (2 <=? length current_group)%nat
  then chord_groups ++ [current_group] else chord_groups.

(** The first loop of [_assign_chord_fingerings]. *)
Fixpoint temp_notes_of (notes : list NoteData) (chord_notes : list nat)
    : M (list GuitarNote) :=
  match chord_notes with
  | [] => mret []
  | i :: rest =>
    match notes !! i with
    | None => temp_notes_of notes rest
    | Some note =>
      positions ← _find_positions (note_pitch note);
      temp_notes ← temp_notes_of notes rest;
      match positions with
      | [] => mret temp_notes
      | first :: _ =>
        mret ({| pitch := note_pitch note;
                 start_time := note_start note;
                 end_time := note_end note;
                 string := pos_string first;
                 fret := pos_fret first;
                 velocity := default 80 (note_velocity note);
                 techniques := [];
                 is_chord_tone := false;
                 chord_shape := None;
                 difficulty := 0%Q |} :: temp_notes)
      end
    end
  end.

Definition set_chord_shape (chord_shape : String.string) (note : NoteData) : NoteData :=
  {| note_pitch := note_pitch note; note_start := note_start note;
     note_end := note_end note; note_velocity := note_velocity note;
     note_chord_shape := Some chord_shape; note_is_chord_tone := Some true |}.

(** [_assign_chord_fingerings]: [chord_notes] refers to notes of [notes],
    which are updated in place. *)
Definition _assign_chord_fingerings (notes : list NoteData) (chord_notes : list nat)
    : M (list NoteData) :=
  temp_notes ← temp_notes_of notes chord_notes;
  chord_shape ← lift (detect_chord_shape temp_notes);
  match chord_shape with
  | Some chord_shape =>
    if String.eqb chord_shape "" then mret notes
    else
      _ ← logger (INFO_detected_chord_shape chord_shape);
      mret (foldl (fun notes i => alter (set_chord_shape chord_shape) i notes)
                  notes chord_notes)
  | None => mret notes
  end.

Fixpoint assign_all (notes : list NoteData) (chord_groups : list (list nat))
    : M (list NoteData) :=
  match chord_groups with
  | [] => mret notes
  | group :: rest =>
    notes ← _assign_chord_fingerings notes group;
    assign_all notes rest
  end.

(** [_group_by_time_proximity], on the references to the notes of
    [notes]. *)
Fixpoint proximity_loop (threshold : Q) (notes : list GuitarNote)
    (sorted_notes : list nat) (groups : list (list nat)) (current_group : list nat)
    : list (list nat) * list nat :=
  match sorted_notes with
  | [] => (groups, current_group)
  | i :: rest =>
    match notes !! i with
    | None => proximity_loop threshold notes rest groups current_group
    | Some note =>
      match last current_group ≫= (notes !!.) with
      | None => proximity_loop threshold notes rest groups [i]
      | Some last_note =>
        if Qle_bool (start_time note - end_time last_note) threshold
        then proximity_loop threshold notes rest groups (current_group ++ [i])
        else proximity_loop threshold notes rest (groups ++ [current_group]) [i]
      end
    end
  end.

Definition _group_by_time_proximity (notes : list GuitarNote) : list (list nat) :=
  let '(groups, current_group) :=
    proximity_loop (5 # 10) notes (sorted_refs start_time notes) [] [] in
  match current_group with
  | [] => groups
  | _ => groups ++ [current_group]
  end.

Definition set_position (alt : PositionDict) (note : GuitarNote) : GuitarNote :=
  {| pitch := pitch note; start_time := start_time note;
     end_time := end_time note;
     string := pos_string alt; fret := pos_fret alt;
     velocity := velocity note; techniques := techniques note;
     is_chord_tone := is_chord_tone note; chord_shape := chord_shape note;
     difficulty := pos_difficulty alt |}.

(** The loop "for note in notes" of [_optimize_group_fingering]. *)
Fixpoint optimize_loop (target_position : Z) (measure_notes : list GuitarNote)
    (group : list nat) : M (list GuitarNote) :=
  match group with
  | [] => mret measure_notes
  | i :: rest =>
    match measure_notes !! i with
    | None => optimize_loop target_position measure_notes rest
    | Some note =>
      let current_position := _get_hand_position (fret note) in
      if max_fret_span config <? Z.abs (current_position - target_position)
      then
        alternatives ← _find_positions (pitch note);
        match List.find
                (fun alt =>
                   Z.abs (_get_hand_position (pos_fret alt) - target_position)
                   <=? max_fret_span config)
                alternatives with
        | Some alt =>
          optimize_loop target_position (<[i := set_position alt note]> measure_notes) rest
        | None => optimize_loop target_position measure_notes rest
        end
      else optimize_loop target_position measure_notes rest
    end
  end.

(** [_optimize_group_fingering]: [group] refers to notes of
    [measure_notes], which are updated in place. *)
Definition _optimize_group_fingering (measure_notes : list GuitarNote)
    (group : list nat) : M (list GuitarNote) :=
  let frets := omap (fun i => fret <$> measure_notes !! i) group in
  avg_fret ← lift (truediv (inject_Z (foldr Z.add 0 frets))
                           (inject_Z (Z.of_nat (length group))));
  let target_position := _get_hand_position (int_of_float avg_fret) in
  optimize_loop target_position measure_notes group.

Fixpoint optimize_groups (measure_notes : list GuitarNote)
    (note_groups : list (list nat)) : M (list GuitarNote) :=
  match note_groups with
  | [] => mret measure_notes
  | group :: rest =>
    measure_notes ← (if (1 <? length group)%nat
                     then _optimize_group_fingering measure_notes group
                     else mret measure_notes);
    optimize_groups measure_notes rest
  end.

(** [_optimize_measure_fingering] *)
Definition _optimize_measure_fingering (measure_notes : list GuitarNote)
    : M (list GuitarNote) :=
  if (length measure_notes <? 2)%nat then mret measure_notes
  else optimize_groups measure_notes (_group_by_time_proximity measure_notes).

Definition harmonic_frets : list Z := [12; 7; 5; 4; 3].

(** The techniques appended to [current] by one iteration of the loop of
    [_detect_techniques]. *)
Definition techniques_of (prev : option GuitarNote) (current : GuitarNote)
    (next_note : option GuitarNote) : list PlayingTechnique :=
  (match prev with
   | Some prev =>
     if (string current =? string prev)
        && Qlt_bool (Qabs (start_time current - end_time prev)) (5 # 100)
     then if fret prev <? fret current then [HAMMER_ON]
          else if fret current <? fret prev then [PULL_OFF]
          else []
     else []
   | None => []
   end)
  ++ (match next_note with
      | Some next_note =>
        if (string current =? string next_note)
           && Qle_bool (start_time next_note) (end_time current)
           && (2 <=? Z.abs (fret current - fret next_note))
        then if fret current <? fret next_note then [SLIDE_UP] else [SLIDE_DOWN]
        else []
      | None => []
      end)
  ++ (if velocity current <? 40 then [PALM_MUTE] else [])
  ++ (if existsb (Z.eqb (fret current)) harmonic_frets && (100 <? velocity current)
      then [HARMONIC] else []).

Definition add_techniques (ts : list PlayingTechnique) (note : GuitarNote) : GuitarNote :=
  {| pitch := pitch note; start_time := start_time note;
     end_time := end_time note; string := string note; fret := fret note;
     velocity := velocity note; techniques := techniques note ++ ts;
     is_chord_tone := is_chord_tone note; chord_shape := chord_shape note;
     difficulty := difficulty note |}.

(** [_detect_techniques]: [notes] is the sorted list of references to
    [measure.notes]; iteration [k] updates the note [notes[k]]. *)
Definition _detect_techniques (measure_notes : list GuitarNote) : list GuitarNote :=
  let notes := sorted_refs start_time measure_notes in
  foldl (fun store k =>
           match notes !! k ≫= (store !!.) with
           | None => store
           | Some current =>
             let prev := match k with
                         | O => None
                         | S k' => notes !! k' ≫= (store !!.)
                         end in
             let next_note := notes !! S k ≫= (store !!.) in
             match notes !! k with
             | Some i => alter (add_techniques (techniques_of prev current next_note)) i store
             | None => store
             end
           end)
        measure_notes (seq 0 (length notes)).

(** The loop "for note_data in measure_notes" of [convert_midi_to_tab]. *)
Fixpoint convert_notes (measure_notes : list NoteData) (tab_notes : list GuitarNote)
    : M (list GuitarNote) :=
  match measure_notes with
  | [] => mret tab_notes
  | note_data :: rest =>
    guitar_notes ← _convert_note note_data tab_notes;
    convert_notes rest (tab_notes ++ guitar_notes)
  end.

(** The body of the loop over the measures of [convert_midi_to_tab]. *)
Definition convert_measure (time_signature : Z * Z) (tempo : Q)
    (measure_num : Z) (measure_notes : list NoteData) : M TabMeasure :=
  measure_notes ← (if detect_chords config
                   then assign_all measure_notes (_detect_chord_groups measure_notes)
                   else mret measure_notes);
  tab_notes ← convert_notes measure_notes [];
  tab_notes ← (if optimize_fingering config
               then _optimize_measure_fingering tab_notes
               else mret tab_notes);
  let tab_notes := if include_techniques config
                   then _detect_techniques tab_notes else tab_notes in
  mret {| number := measure_num + 1;
          time_signature := time_signature;
          tempo := tempo;
          notes := tab_notes;
          chords := [];
          lyrics := None |}.

Fixpoint convert_measures (time_signature : Z * Z) (tempo : Q)
    (measures : list (Z * list NoteData)) : M (list TabMeasure) :=
  match measures with
  | [] => mret []
  | (measure_num, measure_notes) :: rest =>
    tab_measure ← convert_measure time_signature tempo measure_num measure_notes;
    tab_measures ← convert_measures time_signature tempo rest;
    mret (tab_measure :: tab_measures)
  end.

(** [convert_midi_to_tab] *)
Definition convert_midi_to_tab (midi_notes : list NoteData)
    (time_signature : Z * Z) (tempo : Q) : M (list TabMeasure) :=
  measures ← lift (_group_into_measures midi_notes time_signature tempo);
  convert_measures time_signature tempo (enumerate measures).

End Converter.

(** The module-level helper [convert_midi_to_tab(midi_notes, config)]:
    a fresh converter, the default time signature and tempo.  The second
    component is the log. *)
Definition convert (config : TabConfiguration) (midi_notes : list NoteData)
    : result (list TabMeasure * list LogRecord) :=
  match convert_midi_to_tab config midi_notes (4, 4) 120%Q new_converter with
  | Ok (tab_measures, st) => Ok (tab_measures, log st)
  | Raise e => Raise e
  end.

End TabConv.

(** ** Predicates of the statements *)

(** The string numbered [s] (from 1) is the open pitch [open_pitch] of
    the tuning [tuning]. *)
Definition string_of (tuning : list Z) (s open_pitch : Z) : Prop :=
  1 <= s /\ tuning !! Z.to_nat (s - 1) = Some open_pitch.

(** Every entry of the position cache is the list that the loop over
    the strings computes for its pitch. *)
Definition cache_ok (config : TabConv.TabConfiguration) (st : TabConv.ConverterState) : Prop :=
  forall p ps, TabConv.position_cache st !! p = Some ps ->
               ps = TabConv.compute_positions config p.

(** Order of two elements by their sort key. *)
Definition key_le {A} (key : A -> Q) (a b : A) : Prop := (key a <= key b)%Q.

(** A note is playable when the resolver finds a position for it. *)
Definition playable (cfg : MidiToTab.TabConfig) (n : MidiToTab.MidiNote) : bool :=
  match MidiToTab._get_fret_positions cfg (MidiToTab.pitch n) with
  | [] => false
  | _ => true
  end.

(** The tab note [t] is the note [n] bound to one of its candidate
    positions. *)
Definition bound_to (cfg : MidiToTab.TabConfig)
    (n : MidiToTab.MidiNote) (t : MidiToTab.TabNote) : Prop :=
  In (MidiToTab.string t, MidiToTab.fret t)
     (MidiToTab._get_fret_positions cfg (MidiToTab.pitch n))
  /\ MidiToTab.start_time t = MidiToTab.start n
  /\ MidiToTab.velocity t = MidiToTab.note_velocity n
  /\ MidiToTab.technique t = MidiToTab.NORMAL.

(** The candidates of a note that pass the preference filters of
    [_convert_note]. *)
Definition kept_positions (config : TabConv.TabConfiguration) (note : TabConv.NoteData)
    : list TabConv.PositionDict :=
  TabConv._filter_positions config
    (TabConv.compute_positions config
       (TabConv.note_pitch note - TabConv.capo_position config)).
(** The guitar note that [_convert_note] builds from a note and its
    chosen position. *)
Definition guitar_note_at (note : TabConv.NoteData) (pos : TabConv.PositionDict)
    : TabConv.GuitarNote :=
  {| TabConv.pitch := TabConv.note_pitch note;
     TabConv.start_time := TabConv.note_start note;
     TabConv.end_time := TabConv.note_end note;
     TabConv.string := TabConv.pos_string pos;
     TabConv.fret := TabConv.pos_fret pos;
     TabConv.velocity := default 80 (TabConv.note_velocity note);
     TabConv.techniques := [];
     TabConv.is_chord_tone := false;
     TabConv.chord_shape := None;
     TabConv.difficulty := TabConv.pos_difficulty pos |}.
(** Some candidate of the note passes the preference filters. *)
Definition passes_filters (config : TabConv.TabConfiguration) (note : TabConv.NoteData)
    : bool :=
  match kept_positions config note with
  | [] => false
  | _ => true
  end.

(** The guitar note [g] is the note [n] bound to a candidate that
    passes the preference filters. *)
Definition bound_to_kept (config : TabConv.TabConfiguration)
    (n : TabConv.NoteData) (g : TabConv.GuitarNote) : Prop :=
  exists pos, In pos (kept_positions config n) /\ g = guitar_note_at n pos.

(** An input note dict with the keys of the test data of
    tab_converter.py. *)
Definition note_dict (pitch : Z) (start end_ : Q) (velocity : Z) : TabConv.NoteData :=
  {| TabConv.note_pitch := pitch; TabConv.note_start := start;
     TabConv.note_end := end_; TabConv.note_velocity := Some velocity;
     TabConv.note_chord_shape := None; TabConv.note_is_chord_tone := None |}.

(** A note dict of [_extract_midi_data]; it has no ['context'] key. *)
Definition midi_note (pitch : Z) (start end_ : Q) (velocity : Z) : MidiToTab.MidiNote :=
  {| MidiToTab.pitch := pitch; MidiToTab.start := start; MidiToTab.end_ := end_;
     MidiToTab.note_velocity := velocity; MidiToTab.context_melodic := false |}.

(** A tab note with the default technique and no alternatives. *)
Definition tab_note (string fret : Z) (start_time duration : Q) (velocity : Z)
    : MidiToTab.TabNote :=
  {| MidiToTab.string := string; MidiToTab.fret := fret;
     MidiToTab.start_time := start_time; MidiToTab.duration := duration;
     MidiToTab.technique := MidiToTab.NORMAL; MidiToTab.velocity := velocity;
     MidiToTab.alternatives := [] |}.

(** 120 BPM in 4/4. *)
Definition timing_120_4_4 : MidiToTab.TimingInfo :=
  {| MidiToTab.timing_tempo := 120; MidiToTab.time_signatures := [(4, 4)] |}.

(** The measure without chords of [_organize_measures]. *)
Definition measure_of (measure_number : Z) (notes : list MidiToTab.TabNote)
    : MidiToTab.TabMeasure :=
  {| MidiToTab.measure_number := measure_number;
     MidiToTab.time_signature := (4, 4); MidiToTab.tempo := 120;
     MidiToTab.notes := notes; MidiToTab.chords := [] |}.

(** [measure_duration] as [_organize_measures] computes it. *)
Definition measure_duration_of (timing_info : MidiToTab.TimingInfo) (time_sig : Z * Z) : Q :=
  inject_Z (fst time_sig) * (60 / MidiToTab.timing_tempo timing_info).

(** The time window of a measure, from its number: measure [k] (from 1)
    covers [[(k - 1) * measure_duration, k * measure_duration)]. *)
Definition window_start (measure_duration : Q) (m : MidiToTab.TabMeasure) : Q :=
  inject_Z (MidiToTab.measure_number m - 1) * measure_duration.

Definition window_end (measure_duration : Q) (m : MidiToTab.TabMeasure) : Q :=
  inject_Z (MidiToTab.measure_number m) * measure_duration.

Definition in_window (measure_duration : Q) (m : MidiToTab.TabMeasure) (t : Q) : Prop :=
  (window_start measure_duration m <= t)%Q /\ (t < window_end measure_duration m)%Q.
(** The chords whose time lies in the window of the measure [m]. *)
Definition chords_in_window (measure_duration : Q) (m : MidiToTab.TabMeasure)
    (chords : list MidiToTab.Chord) : list MidiToTab.Chord :=
  List.filter (fun c => Qle_bool (window_start measure_duration m) (MidiToTab.time c)
                        && Py.Qlt_bool (MidiToTab.time c) (window_end measure_duration m))
              chords.
(** The tab notes that [convert_midi_to_tab] passes to
    [_organize_measures]. *)
Definition annotated (cfg : MidiToTab.TabConfig) (tab_notes : list MidiToTab.TabNote)
    : list MidiToTab.TabNote :=
  if MidiToTab.detect_techniques cfg
  then MidiToTab._detect_techniques tab_notes else tab_notes.

(** The condition under which [_detect_techniques] of MidiToTabConverter
    treats [curr] as played legato after [prev]: same string, start
    times less than 100 ms apart, lower velocity. *)
Definition legato_after (prev curr : MidiToTab.TabNote) : Prop :=
  MidiToTab.string prev = MidiToTab.string curr
  /\ (MidiToTab.start_time curr - MidiToTab.start_time prev < 1 # 10)%Q
  /\ MidiToTab.velocity curr < MidiToTab.velocity prev.

(** The gap between the end of [prev] and the start of [curr]. *)
Definition gap_after (prev curr : MidiToTab.TabNote) : Q :=
  MidiToTab.start_time curr - (MidiToTab.start_time prev + MidiToTab.duration prev).

(** A guitar note of TabConverter without techniques. *)
Definition guitar_note (pitch string fret : Z) (start_time end_time : Q) (velocity : Z)
    : TabConv.GuitarNote :=
  {| TabConv.pitch := pitch; TabConv.start_time := start_time;
     TabConv.end_time := end_time; TabConv.string := string;
     TabConv.fret := fret; TabConv.velocity := velocity;
     TabConv.techniques := []; TabConv.is_chord_tone := false;
     TabConv.chord_shape := None; TabConv.difficulty := 0 |}.

(** The pitches that [_detect_chords] computes for a group:
    [self.tuning[n.string - 1] + n.fret] for each note. *)
Definition sounding_pitches (cfg : MidiToTab.TabConfig) (group : list MidiToTab.TabNote)
    : Py.result (list Z) :=
  mapM (fun n => open_pitch ← Py.index (MidiToTab.self_tuning cfg) (MidiToTab.string n - 1);
                 Py.Ok (open_pitch + MidiToTab.fret n)) group.

(** Some chord pattern, on some root, is contained in the pitch classes
    of [pitches]. *)
Definition known_chord (pitches : list Z) : bool :=
  existsb (fun '(root_pc, (_, pattern)) =>
             bool_decide (list_to_set (C := gset Z)
                            (map (fun interval => (root_pc + interval) mod 12) pattern)
                          ⊆ list_to_set (map (fun p => p mod 12) pitches)))
          MidiToTab.chord_candidates.

(** No note of the group is fretted. *)
Definition all_open (notes : list TabConv.GuitarNote) : Prop :=
  List.Forall (fun n => TabConv.fret n <= 0) notes.

(** [TabConfiguration(capo_position=2)]. *)
Definition capo_2_configuration : TabConv.TabConfiguration :=
  {| TabConv.tuning := TabConv.STANDARD; TabConv.capo_position := 2;
     TabConv.max_fret_span := 4; TabConv.prefer_open_strings := true;
     TabConv.prefer_low_positions := true; TabConv.max_position := 12;
     TabConv.allow_impossible_stretches := false; TabConv.detect_chords := true;
     TabConv.optimize_fingering := true; TabConv.include_techniques := true;
     TabConv.difficulty_threshold := 7 # 10 |}.

(** Pitch preservation for a guitar note: the open pitch of its string,
    plus the capo, plus its fret is its pitch. *)
Definition pitch_preserved (config : TabConv.TabConfiguration) (g : TabConv.GuitarNote)
    : Prop :=
  exists open_pitch,
    string_of (TabConv.tuning config) (TabConv.string g) open_pitch
    /\ open_pitch + TabConv.capo_position config + TabConv.fret g = TabConv.pitch g.

(** The string of the tab note exists in the tuning. *)
Definition valid_string (cfg : MidiToTab.TabConfig) (n : MidiToTab.TabNote) : Prop :=
  exists open_pitch, string_of (MidiToTab.tuning cfg) (MidiToTab.string n) open_pitch.

(** The notes of [l1] all start before the notes of [l2]: two
    consecutive measures that hold them are disjoint in time. *)
Definition starts_before {A} (key : A -> Q) (l1 l2 : list A) : Prop :=
  forall a b, In a l1 -> In b l2 -> (key a < key b)%Q.

(** ** Predicates of the further properties *)

(** The tab note that [_convert_to_tab_notes] builds for the note [n]
    when it selects the position [chosen]. *)
Definition tab_note_of (cfg : MidiToTab.TabConfig) (n : MidiToTab.MidiNote)
    (chosen : MidiToTab.Position) : MidiToTab.TabNote :=
  {| MidiToTab.string := fst chosen;
     MidiToTab.fret := snd chosen;
     MidiToTab.start_time := MidiToTab.start n;
     MidiToTab.duration := (MidiToTab.end_ n - MidiToTab.start n)%Q;
     MidiToTab.technique := MidiToTab.NORMAL;
     MidiToTab.velocity := MidiToTab.note_velocity n;
     MidiToTab.alternatives :=
       List.filter (fun p => negb (MidiToTab.Position_eqb p chosen))
                   (MidiToTab._get_fret_positions cfg (MidiToTab.pitch n)) |}.

(** [t] is the tab note of [n] at one of the candidates of [n]. *)
Definition converted_from (cfg : MidiToTab.TabConfig)
    (n : MidiToTab.MidiNote) (t : MidiToTab.TabNote) : Prop :=
  exists chosen,
    In chosen (MidiToTab._get_fret_positions cfg (MidiToTab.pitch n))
    /\ t = tab_note_of cfg n chosen.

(** The tab note sounds the pitch of the note [n] on an existing string,
    at a fret within the neck, at the time of [n]. *)
Definition sounds (cfg : MidiToTab.TabConfig)
    (n : MidiToTab.MidiNote) (t : MidiToTab.TabNote) : Prop :=
  (exists open_pitch,
     string_of (MidiToTab.tuning cfg) (MidiToTab.string t) open_pitch
     /\ open_pitch + MidiToTab.capo cfg + MidiToTab.fret t = MidiToTab.pitch n)
  /\ 0 <= MidiToTab.fret t <= 24
  /\ MidiToTab.start_time t = MidiToTab.start n
  /\ MidiToTab.duration t = (MidiToTab.end_ n - MidiToTab.start n)%Q
  /\ MidiToTab.velocity t = MidiToTab.note_velocity n.

(** The timing condition of a slide in [_detect_techniques] of
    MidiToTabConverter: same string, start times less than 200 ms apart,
    and not the legato condition of a hammer-on or pull-off. *)
Definition slide_after (prev curr : MidiToTab.TabNote) : Prop :=
  MidiToTab.string prev = MidiToTab.string curr
  /\ (MidiToTab.start_time curr - MidiToTab.start_time prev < 2 # 10)%Q
  /\ ~ ((MidiToTab.start_time curr - MidiToTab.start_time prev < 1 # 10)%Q
        /\ MidiToTab.velocity curr < MidiToTab.velocity prev).

(** The chords at or after the time [t]. *)
Definition chords_from (t : Q) (chords : list MidiToTab.Chord) : list MidiToTab.Chord :=
  List.filter (fun c => Qle_bool t (MidiToTab.time c)) chords.

(** The pitch classes of a list of pitches. *)
Definition pitch_classes_of (pitches : list Z) : gset Z :=
  list_to_set (map (fun p => p mod 12) pitches).

(** The first chord pattern, in the order of the loops of
    [_identify_chord], that the pitch classes contain. *)
Definition first_chord (pitch_classes : gset Z) : option (Z * (String.string * list Z)) :=
  List.find (fun '(root_pc, (_, pattern)) =>
               bool_decide (list_to_set (C := gset Z)
                              (map (fun interval => (root_pc + interval) mod 12) pattern)
                            ⊆ pitch_classes))
            MidiToTab.chord_candidates.

(** ** TabMeasure.get_tab_strings (midi_to_tab_converter.py) *)

Module TabText.

Import Py MidiToTab.

(** [Technique.value] *)
Definition technique_value (t : Technique) : String.string :=
  match t with
  | NORMAL => ""
  | HAMMER_ON => "h"
  | PULL_OFF => "p"
  | SLIDE_UP => "/"
  | SLIDE_DOWN => "\"
  | BEND => "b"
  | RELEASE => "r"
  | VIBRATO => "~"
  | PALM_MUTE => "PM"
  | HARMONIC => "<>"
  | TAP => "t"
  end%string.

Definition is_normal (t : Technique) : bool :=
  match t with NORMAL => true | _ => false end.

(** [s * n] on a string. *)
Fixpoint str_mul (s : String.string) (n : nat) : String.string :=
  match n with
  | O => ""%string
  | S n' => (s +:+ str_mul s n')%string
  end.

(** What the inner loop appends to the line of [string_idx] for
    [note]. *)
Definition cell (note : TabNote) (string_idx : Z) : String.string :=
  if string_idx + 1 =? string note
  then
    let fret_str := pretty (fret note) in
    if is_normal (technique note) then fret_str
    else (fret_str +:+ technique_value (technique note))%string
  else str_mul "-" (String.length (pretty (fret note))).

(** [get_tab_strings]: the lines start empty, every note appends one
    cell to every line, and the cells of a line are joined with "-". *)
Definition get_tab_strings (m : TabMeasure) (string_count : Z) : list String.string :=
  let tab_lines : list (list String.string) := replicate (Z.to_nat string_count) [] in
  let sorted_notes := sorted start_time (notes m) in
  let tab_lines :=
    foldl (fun tab_lines note =>
             map (fun '(string_idx, line) => line ++ [cell note string_idx])
                 (enumerate tab_lines))
          tab_lines sorted_notes in
  map (fun line => match line with
                   | [] => ""%string
                   | _ => String.concat "-" line
                   end) tab_lines.

End TabText.
(** The width every line of a measure should have: the fret texts of its
    notes with one "-" between neighbours. *)
Definition line_width (notes : list MidiToTab.TabNote) : nat :=
  (list_sum (map (fun n => String.length (pretty (MidiToTab.fret n))) notes)
   + (length notes - 1))%nat.

(** Two notes of a measure, given by their references, are close in
    time for [_group_by_time_proximity]: the second starts at most half
    a second after the end of the first. *)
Definition close_in_time (notes : list TabConv.GuitarNote) (i j : nat) : Prop :=
  exists a b, notes !! i = Some a /\ notes !! j = Some b
              /\ (TabConv.start_time b - TabConv.end_time a <= 5 # 10)%Q.

(** Every member of a group is close to the one before it. *)
Definition chained (notes : list TabConv.GuitarNote) (group : list nat) : Prop :=
  forall k i j, group !! k = Some i -> group !! S k = Some j -> close_in_time notes i j.

(** A list of groups as [_group_by_time_proximity] forms them: no group
    is empty, each group is chained, and the first note of a group is
    not close to the last note of the group before it. *)
Inductive proximity_groups (notes : list TabConv.GuitarNote) : list (list nat) -> Prop :=
| proximity_groups_nil : proximity_groups notes []
| proximity_groups_one (g : list nat) :
    g <> [] -> chained notes g -> proximity_groups notes [g]
| proximity_groups_cons (g1 g2 : list nat) (gs : list (list nat)) :
    g1 <> [] -> chained notes g1 ->
    (forall i j, last g1 = Some i -> head g2 = Some j -> ~ close_in_time notes i j) ->
    proximity_groups notes (g2 :: gs) ->
    proximity_groups notes (g1 :: g2 :: gs).

(** The notes of a chord group, given by their references, all start
    within the tolerance of the first note of the group. *)
Definition simultaneous (notes : list TabConv.NoteData) (group : list nat) : Prop :=
  exists i0 first,
    head group = Some i0 /\ notes !! i0 = Some first
    /\ List.Forall
         (fun i => exists n, notes !! i = Some n
                             /\ (Qabs (TabConv.note_start n - TabConv.note_start first)
                                 <= TabConv.tolerance)%Q)
         group.

(** What the fingering optimization may do to a note: leave it, or move
    it to one of the positions found for its pitch. *)
Definition moved_to_candidate (config : TabConv.TabConfiguration)
    (g g' : TabConv.GuitarNote) : Prop :=
  g' = g
  \/ exists alt, In alt (TabConv.compute_positions config (TabConv.pitch g))
                 /\ g' = TabConv.set_position alt g.

(** The note [g'] is the note [g] with further techniques. *)
Definition techniques_extended (g g' : TabConv.GuitarNote) : Prop :=
  exists ts,
    g' = {| TabConv.pitch := TabConv.pitch g;
            TabConv.start_time := TabConv.start_time g;
            TabConv.end_time := TabConv.end_time g;
            TabConv.string := TabConv.string g;
            TabConv.fret := TabConv.fret g;
            TabConv.velocity := TabConv.velocity g;
            TabConv.techniques := TabConv.techniques g ++ ts;
            TabConv.is_chord_tone := TabConv.is_chord_tone g;
            TabConv.chord_shape := TabConv.chord_shape g;
            TabConv.difficulty := TabConv.difficulty g |}.

(** A chord shape moved [k] frets up the neck: the fretted strings move,
    the open ones stay open. *)
Definition moved_up (k : Z) (shape : list (Z * Z)) : list (Z * Z) :=
  map (fun '(s, f) => (s, if 0 <? f then f + k else f)) shape.

(** ** services/tab_renderer/tab_renderer.py *)

Module TabRender.

Import Py.

Record RenderConfiguration : Type := mkRenderConfiguration {
  width : Z;
  height : Z;
  measures_per_line : Z;
  tab_line_spacing : Z;
  system_spacing : Z;
  font_family : String.string;
  font_size : Z;
  note_color : String.string;
  technique_color : String.string;
  chord_diagram_size : Z;
  show_notation : bool;
  show_tablature : bool;
  show_chord_diagrams : bool;
  show_techniques : bool;
  show_fingering : bool;
  show_time_signature : bool;
  show_tempo : bool;
  format : String.string;
  dpi : Z
}.

(** [RenderConfiguration()] *)
Definition default_render_configuration : RenderConfiguration :=
  {| width := 1200; height := 800; measures_per_line := 4;
     tab_line_spacing := 20; system_spacing := 60;
     font_family := "Arial, sans-serif"; font_size := 10;
     note_color := "#000000"; technique_color := "#FF0000";
     chord_diagram_size := 60;
     show_notation := true; show_tablature := true;
     show_chord_diagrams := true; show_techniques := true;
     show_fingering := true; show_time_signature := true; show_tempo := true;
     format := "svg"; dpi := 300 |}.

(** *** VexFlowFormatter *)

(** The dict [{"str": ..., "fret": ...}]. *)
Record TabPosition : Type := mkTabPosition {
  str : Z;
  fret : Z
}.

(** The dict [{"type": ..., "text": ..., "position": ...}]. *)
Record Modifier : Type := mkModifier {
  modifier_type : String.string;
  text : String.string;
  position : String.string
}.

(** A VexFlow note; [modifiers] is [None] when the dict has no
    ["modifiers"] key. *)
Record VexNote : Type := mkVexNote {
  positions : list TabPosition;
  duration : String.string;
  modifiers : option (list Modifier)
}.

Record Barre : Type := mkBarre {
  from_string : Z;
  to_string : Z;
  barre_fret : Z
}.

Record ChordDiagram : Type := mkChordDiagram {
  chord : String.string;
  diagram_positions : list TabPosition;
  barres : list Barre
}.

(** [TECHNIQUE_SYMBOLS]; [None] for a technique that is not a key. *)
Definition TECHNIQUE_SYMBOLS (tech : TabConv.PlayingTechnique) : option String.string :=
  match tech with
  | TabConv.HAMMER_ON => Some "h"
  | TabConv.PULL_OFF => Some "p"
  | TabConv.SLIDE_UP => Some "/"
  | TabConv.SLIDE_DOWN => Some "\"
  | TabConv.BEND => Some "b"
  | TabConv.VIBRATO => Some "~"
  | TabConv.PALM_MUTE => Some "P.M."
  | TabConv.HARMONIC => Some "H"
  | TabConv.TAP => Some "T"
  | TabConv.DEAD_NOTE => Some "X"
  | TabConv.NORMAL => None
  end%string.

(** [DURATION_MAP], in the order of its keys. *)
Definition DURATION_MAP : list (Q * String.string) :=
  [ (4%Q, "w"); (2%Q, "h"); (1%Q, "q"); (1 # 2, "8"); (1 # 4, "16"); (1 # 8, "32") ]%string.

(** [_get_vexflow_duration]: the key closest to the relative duration
    is searched among the items of [DURATION_MAP], whose keys are
    distinct, and its value is returned. *)
Definition _get_vexflow_duration (duration measure_duration : Q) : result String.string :=
  quotient ← truediv duration measure_duration;
  let relative_duration := (quotient * 4)%Q in
  closest ← min_by (fun item => Qabs (fst item - relative_duration)) DURATION_MAP;
  Ok (snd closest).

(** [format_tab_note] *)
Definition format_tab_note (note : TabConv.GuitarNote) (measure_duration : Q)
    : result VexNote :=
  let duration := (TabConv.end_time note - TabConv.start_time note)%Q in
  vexflow_duration ← _get_vexflow_duration duration measure_duration;
  Ok {| positions := [ {| str := 6 - TabConv.string note + 1;
                          fret := TabConv.fret note |} ];
        duration := vexflow_duration;
        modifiers :=
          match TabConv.techniques note with
          | [] => None
          | techniques =>
            Some (omap (fun tech =>
                          (fun symbol => {| modifier_type := "annotation";
                                            text := symbol;
                                            position := "above" |})
                          <$> TECHNIQUE_SYMBOLS tech)
                       techniques)
          end |}.

(** The dict [fret_groups] of [_detect_barres], in insertion order. *)
Fixpoint fret_groups_append (fret string : Z) (fret_groups : list (Z * list Z))
    : list (Z * list Z) :=
  match fret_groups with
  | [] => [(fret, [string])]
  | (f, strings) :: rest =>
    if f =? fret then (f, strings ++ [string]) :: rest
    else (f, strings) :: fret_groups_append fret string rest
  end.

(** [_detect_barres] *)
Definition _detect_barres (positions : list (Z * Z)) : result (list Barre) :=
  let fret_groups :=
    foldl (fun fret_groups '(string, fret) =>
             if 0 <? fret then fret_groups_append fret string fret_groups
             else fret_groups)
          [] positions in
  mapM (fun '(fret, strings) =>
          from_string ← max strings;
          to_string ← min strings;
          Ok {| from_string := from_string; to_string := to_string;
                barre_fret := fret |})
       (List.filter (fun '(_, strings) => (3 <=? length strings)%nat) fret_groups).

(** [format_chord_diagram] *)
Definition format_chord_diagram (chord_shape : String.string) (positions : list (Z * Z))
    : result ChordDiagram :=
  barres ← _detect_barres positions;
  Ok {| chord := chord_shape;
        diagram_positions := map (fun '(s, f) => {| str := s; fret := f |}) positions;
        barres := barres |}.

(** *** TabRenderer *)

Section Renderer.

Variable config : RenderConfiguration.

(** The loop of [_group_into_systems]. *)
Fixpoint systems_loop (measures : list TabConv.TabMeasure)
    (systems : list (list TabConv.TabMeasure)) (current_system : list TabConv.TabMeasure)
    : list (list TabConv.TabMeasure) * list TabConv.TabMeasure :=
  match measures with
  | [] => (systems, current_system)
  | measure :: rest =>
    let current_system := current_system ++ [measure] in
    if measures_per_line config <=? Z.of_nat (length current_system)
    then systems_loop rest (systems ++ [current_system]) []
    else systems_loop rest systems current_system
  end.

(** [_group_into_systems] *)
Definition _group_into_systems (measures : list TabConv.TabMeasure)
    : list (list TabConv.TabMeasure) :=
  let '(systems, current_system) := systems_loop measures [] [] in
  match current_system with
  | [] => systems
  | _ => systems ++ [current_system]
  end.

(** The loop of [_group_simultaneous_notes]. *)
Fixpoint simultaneous_loop (sorted_notes : list TabConv.GuitarNote)
    (groups : list (list TabConv.GuitarNote)) (current_group : list TabConv.GuitarNote)
    : result (list (list TabConv.GuitarNote) * list TabConv.GuitarNote) :=
  match sorted_notes with
  | [] => Ok (groups, current_group)
  | note :: rest =>
    first ← index current_group 0;
    if Qlt_bool (Qabs (TabConv.start_time note - TabConv.start_time first)) (1 # 100)
    then simultaneous_loop rest groups (current_group ++ [note])
    else simultaneous_loop rest (groups ++ [current_group]) [note]
  end.

(** [_group_simultaneous_notes] *)
Definition _group_simultaneous_notes (notes : list TabConv.GuitarNote)
    : result (list (list TabConv.GuitarNote)) :=
  match notes with
  | [] => Ok []
  | _ =>
    let sorted_notes := sorted TabConv.start_time notes in
    first ← index sorted_notes 0;
    '(groups, current_group) ← simultaneous_loop (drop 1 sorted_notes) [] [first];
    match current_group with
    | [] => Ok groups
    | _ => Ok (groups ++ [current_group])
    end
  end.

(** [_calculate_measure_duration] *)
Definition _calculate_measure_duration (measure : TabConv.TabMeasure) : result Q :=
  let beats_per_measure := fst (TabConv.time_signature measure) in
  beat_duration ← truediv 60 (TabConv.tempo measure);
  Ok (inject_Z beats_per_measure * beat_duration)%Q.

(** The body of the loop of [_render_measure_notes]. *)
Definition render_group (measure : TabConv.TabMeasure) (group : list TabConv.GuitarNote)
    : result VexNote :=
  if (length group =? 1)%nat
  then
    first ← index group 0;
    measure_duration ← _calculate_measure_duration measure;
    format_tab_note first measure_duration
  else
    let positions :=
      map (fun note => {| str := 6 - TabConv.string note + 1;
                          fret := TabConv.fret note |}) group in
    first ← index group 0;
    measure_duration ← _calculate_measure_duration measure;
    vexflow_duration ←
      _get_vexflow_duration (TabConv.end_time first - TabConv.start_time first)
                            measure_duration;
    Ok {| positions := positions; duration := vexflow_duration; modifiers := None |}.

(** [_render_measure_notes] *)
Definition _render_measure_notes (measure : TabConv.TabMeasure) : result (list VexNote) :=
  note_groups ← _group_simultaneous_notes (TabConv.notes measure);
  mapM (render_group measure) note_groups.

(** The loop of [_extract_chord_diagrams]. *)
Fixpoint diagrams_loop (measure_notes notes : list TabConv.GuitarNote)
    (diagrams : list ChordDiagram) (seen_shapes : gset String.string)
    : result (list ChordDiagram) :=
  match notes with
  | [] => Ok diagrams
  | note :: rest =>
    match TabConv.chord_shape note with
    | Some chord_shape =>
      if negb (String.eqb chord_shape "") && negb (bool_decide (chord_shape ∈ seen_shapes))
      then
        let chord_notes :=
          List.filter (fun n => bool_decide (TabConv.chord_shape n = Some chord_shape))
                      measure_notes in
        let positions := map (fun n => (TabConv.string n, TabConv.fret n)) chord_notes in
        diagram ← format_chord_diagram chord_shape positions;
        diagrams_loop measure_notes rest (diagrams ++ [diagram])
                      ({[chord_shape]} ∪ seen_shapes)
      else diagrams_loop measure_notes rest diagrams seen_shapes
    | None => diagrams_loop measure_notes rest diagrams seen_shapes
    end
  end.

(** [_extract_chord_diagrams] *)
Definition _extract_chord_diagrams (measure : TabConv.TabMeasure)
    : result (list ChordDiagram) :=
  diagrams_loop (TabConv.notes measure) (TabConv.notes measure) [] ∅.

End Renderer.

End TabRender.

(** A group of simultaneous notes of the renderer: it has a first note,
    and all its notes start less than 10 ms from it. *)
Definition rendered_together (group : list TabConv.GuitarNote) : Prop :=
  exists first,
    head group = Some first
    /\ List.Forall
         (fun n => (Qabs (TabConv.start_time n - TabConv.start_time first) < 1 # 100)%Q)
         group.

(** The position dict under which the renderer shows a note: VexFlow
    numbers the strings in the other direction. *)
Definition vexflow_position (n : TabConv.GuitarNote) : TabRender.TabPosition :=
  {| TabRender.str := 6 - TabConv.string n + 1; TabRender.fret := TabConv.fret n |}.

(** No chord shape is attached to the note. *)
Definition no_chord_shape (g : TabConv.GuitarNote) : Prop :=
  TabConv.chord_shape g = None /\ TabConv.is_chord_tone g = false.

(** * Properties *)

(** ** Facts about the Python helpers *)

Section PyFacts.

Import Py.

Lemma Qlt_bool_iff (x y : Q) : Qlt_bool x y = true <-> (x < y)%Q.
Proof.
  unfold Qlt_bool. rewrite negb_true_iff. split.
  - intros H. apply Qnot_le_lt. intros Hle.
    apply Qle_bool_iff in Hle. congruence.
  - intros H. destruct (Qle_bool y x) eqn:E; [|reflexivity].
    apply Qle_bool_iff in E. exfalso. exact (Qlt_not_le _ _ H E).
Qed.

Lemma Qlt_bool_false_iff (x y : Q) : Qlt_bool x y = false <-> (y <= x)%Q.
Proof.
  unfold Qlt_bool. rewrite negb_false_iff. apply Qle_bool_iff.
Qed.

Lemma elem_of_enumerate_from {A} (l : list A) (s i : Z) (x : A) :
  In (i, x) (enumerate_from s l) <->
  s <= i /\ l !! Z.to_nat (i - s) = Some x.
Proof.
  revert s. induction l as [|a l IH]; intros s; simpl.
  - split; [tauto | intros [_ H]; discriminate].
  - rewrite IH. split.
    + intros [H | [Hle Hl]].
      * inversion H; subst. split; [lia|]. now rewrite Z.sub_diag.
      * split; [lia|].
        replace (Z.to_nat (i - s)) with (S (Z.to_nat (i - (s + 1)))) by lia.
        exact Hl.
    + intros [Hle Hl].
      destruct (Z.eq_dec i s) as [->|Hne].
      * rewrite Z.sub_diag in Hl. simpl in Hl. left. congruence.
      * right. split; [lia|].
        replace (Z.to_nat (i - s)) with (S (Z.to_nat (i - (s + 1)))) in Hl by lia.
        exact Hl.
Qed.

Lemma elem_of_enumerate {A} (l : list A) (i : Z) (x : A) :
  In (i, x) (enumerate l) <-> 0 <= i /\ l !! Z.to_nat i = Some x.
Proof.
  unfold enumerate. rewrite elem_of_enumerate_from.
  now rewrite Z.sub_0_r.
Qed.

End PyFacts.

(** ** The position resolver *)

Section Resolver.

Import Py.

Lemma get_fret_positions_spec (cfg : MidiToTab.TabConfig) (pitch s f : Z) :
  In (s, f) (MidiToTab._get_fret_positions cfg pitch) <->
  exists open_pitch,
    string_of (MidiToTab.tuning cfg) s open_pitch /\
    pitch = open_pitch + MidiToTab.capo cfg + f /\ 0 <= f <= 24.
Proof.
  unfold MidiToTab._get_fret_positions, MidiToTab.self_tuning, MidiToTab.max_fret, string_of.
  rewrite in_flat_map. split.
  - intros [[i o] [Hin Hpos]].
    apply elem_of_enumerate in Hin as [Hi Hl].
    rewrite list_lookup_fmap in Hl.
    destruct (MidiToTab.tuning cfg !! Z.to_nat i) as [op|] eqn:E; [|discriminate].
    simpl in Hl. injection Hl as <-.
    destruct (0 <=? pitch - (op + MidiToTab.capo cfg)) eqn:E1;
      destruct (pitch - (op + MidiToTab.capo cfg) <=? 24) eqn:E2;
      simpl in Hpos; try tauto.
    destruct Hpos as [Hpos|[]]. inversion Hpos; subst.
    exists op. replace (i + 1 - 1) with i by lia. repeat split; try lia. exact E.
  - intros (op & [Hs Hl] & Hp & Hf).
    exists (s - 1, op + MidiToTab.capo cfg). split.
    + apply elem_of_enumerate. split; [lia|].
      rewrite list_lookup_fmap, Hl. reflexivity.
    + replace (pitch - (op + MidiToTab.capo cfg)) with f by lia.
      destruct (0 <=? f) eqn:E1; [|lia].
      destruct (f <=? 24) eqn:E2; [|lia].
      simpl. left. f_equal. lia.
Qed.

Lemma compute_positions_spec (config : TabConv.TabConfiguration) (pitch s f : Z) :
  (exists pos, In pos (TabConv.compute_positions config pitch)
               /\ TabConv.pos_string pos = s /\ TabConv.pos_fret pos = f) <->
  exists open_pitch,
    string_of (TabConv.tuning config) s open_pitch /\
    pitch = open_pitch + f /\ 0 <= f <= 24.
Proof.
  unfold TabConv.compute_positions, string_of. split.
  - intros (pos & Hin & Hs & Hf).
    apply in_flat_map in Hin as [[i op] [Hin Hpos]].
    apply elem_of_enumerate in Hin as [Hi Hl].
    destruct (0 <=? pitch - op) eqn:E1; destruct (pitch - op <=? 24) eqn:E2;
      simpl in Hpos; try tauto.
    destruct Hpos as [Hpos|[]]. subst pos. simpl in *. subst.
    exists op. replace (i + 1 - 1) with i by lia. repeat split; try lia. exact Hl.
  - intros (op & [Hs Hl] & Hp & Hf).
    eexists. split.
    + apply in_flat_map. exists (s - 1, op). split.
      * apply elem_of_enumerate. split; [lia|exact Hl].
      * replace (pitch - op) with f by lia.
        destruct (0 <=? f) eqn:E1; [|lia].
        destruct (f <=? 24) eqn:E2; [|lia].
        simpl. left. reflexivity.
    + simpl. split; lia.
Qed.

End Resolver.

Section ResolverClaim.

Import Py.

Lemma cache_ok_new config : cache_ok config TabConv.new_converter.
Proof. intros p ps H. simpl in H. rewrite lookup_empty in H. discriminate. Qed.

Lemma find_positions_cached config st pitch :
  cache_ok config st ->
  exists st',
    TabConv._find_positions config pitch st
    = Ok (TabConv.compute_positions config pitch, st')
    /\ cache_ok config st' /\ TabConv.log st' = TabConv.log st.
Proof.
  intros Hok. unfold TabConv._find_positions.
  destruct (TabConv.position_cache st !! pitch) as [ps|] eqn:E.
  - exists st. rewrite (Hok _ _ E). auto.
  - eexists. split; [reflexivity|]. split; [|reflexivity].
    intros p ps. simpl. rewrite lookup_insert.
    destruct (decide (pitch = p)) as [->|Hne]; simpl.
    + congruence.
    + apply Hok.
Qed.

Lemma nil_iff_no_member {A} (l : list A) : l = [] <-> forall x, ~ In x l.
Proof.
  split.
  - intros -> x [].
  - destruct l as [|a l]; [reflexivity|]. intros H. destruct (H a). now left.
Qed.

Lemma get_fret_positions_nil (cfg : MidiToTab.TabConfig) (pitch : Z) :
  MidiToTab._get_fret_positions cfg pitch = [] <->
  forall s open_pitch,
    string_of (MidiToTab.tuning cfg) s open_pitch ->
    pitch < open_pitch + MidiToTab.capo cfg
    \/ open_pitch + MidiToTab.capo cfg + 24 < pitch.
Proof.
  rewrite nil_iff_no_member. split.
  - intros H s op Hs.
    destruct (Z_lt_dec pitch (op + MidiToTab.capo cfg)) as [|H1]; [now left|].
    destruct (Z_lt_dec (op + MidiToTab.capo cfg + 24) pitch) as [|H2]; [now right|].
    exfalso. apply (H (s, pitch - op - MidiToTab.capo cfg)).
    apply get_fret_positions_spec. exists op. repeat split; try apply Hs; lia.
  - intros H [s f] Hin.
    apply get_fret_positions_spec in Hin as (op & Hs & Hp & Hf).
    destruct (H s op Hs); lia.
Qed.

Lemma compute_positions_nil (config : TabConv.TabConfiguration) (pitch : Z) :
  TabConv.compute_positions config pitch = [] <->
  forall s open_pitch,
    string_of (TabConv.tuning config) s open_pitch ->
    pitch < open_pitch \/ open_pitch + 24 < pitch.
Proof.
  rewrite nil_iff_no_member. split.
  - intros H s op Hs.
    destruct (Z_lt_dec pitch op) as [|H1]; [now left|].
    destruct (Z_lt_dec (op + 24) pitch) as [|H2]; [now right|].
    exfalso.
    assert (Hex : exists pos, In pos (TabConv.compute_positions config pitch)
                              /\ TabConv.pos_string pos = s
                              /\ TabConv.pos_fret pos = pitch - op).
    { apply compute_positions_spec. exists op. repeat split; try apply Hs; lia. }
    destruct Hex as (pos & Hin & _). exact (H pos Hin).
  - intros H pos Hin.
    assert (Hex : exists pos', In pos' (TabConv.compute_positions config pitch)
                               /\ TabConv.pos_string pos' = TabConv.pos_string pos
                               /\ TabConv.pos_fret pos' = TabConv.pos_fret pos)
      by (exists pos; auto).
    apply compute_positions_spec in Hex as (op & Hs & Hp & Hf).
    destruct (H _ op Hs); lia.
Qed.

(** C1.  Position resolver.  For every pitch and every tuning profile,
    [(s, f)] is a candidate returned by the resolver exactly when string
    [s] exists, [pitch = open_pitch[s] + capo + f] and [0 <= f <= 24]
    (the fret ceiling); the returned list is empty exactly when every
    string is too high for the pitch after capo or would need a fret
    above the ceiling.  This holds for [_get_fret_positions], and for
    [_find_positions] as [_convert_note] calls it (on the pitch minus the
    capo), from every converter state whose cache is valid. *)
Theorem position_resolver_sound_and_complete
    (cfg : MidiToTab.TabConfig) (config : TabConv.TabConfiguration)
    (st : TabConv.ConverterState) (pitch s f : Z)
    (Hcache : cache_ok config st) :
  (In (s, f) (MidiToTab._get_fret_positions cfg pitch) <->
   exists open_pitch,
     string_of (MidiToTab.tuning cfg) s open_pitch /\
     pitch = open_pitch + MidiToTab.capo cfg + f /\ 0 <= f <= 24)
  /\ (MidiToTab._get_fret_positions cfg pitch = [] <->
      forall s open_pitch,
        string_of (MidiToTab.tuning cfg) s open_pitch ->
        pitch < open_pitch + MidiToTab.capo cfg
        \/ open_pitch + MidiToTab.capo cfg + 24 < pitch)
  /\ exists positions st',
       TabConv._find_positions config (pitch - TabConv.capo_position config) st
       = Ok (positions, st')
       /\ cache_ok config st'
       /\ ((exists pos, In pos positions
                        /\ TabConv.pos_string pos = s /\ TabConv.pos_fret pos = f) <->
           exists open_pitch,
             string_of (TabConv.tuning config) s open_pitch /\
             pitch = open_pitch + TabConv.capo_position config + f /\ 0 <= f <= 24)
       /\ (positions = [] <->
           forall s open_pitch,
             string_of (TabConv.tuning config) s open_pitch ->
             pitch < open_pitch + TabConv.capo_position config
             \/ open_pitch + TabConv.capo_position config + 24 < pitch).
Proof.
  split; [apply get_fret_positions_spec|].
  split; [apply get_fret_positions_nil|].
  destruct (find_positions_cached config st (pitch - TabConv.capo_position config) Hcache)
    as (st' & Hrun & Hok' & _).
  exists (TabConv.compute_positions config (pitch - TabConv.capo_position config)), st'.
  split; [exact Hrun|]. split; [exact Hok'|]. split.
  - rewrite compute_positions_spec. split.
    + intros (op & Hs & Hp & Hf). exists op. repeat split; try apply Hs; lia.
    + intros (op & Hs & Hp & Hf). exists op. repeat split; try apply Hs; lia.
  - rewrite compute_positions_nil. split.
    + intros H s' op Hs. destruct (H s' op Hs); lia.
    + intros H s' op Hs. destruct (H s' op Hs); lia.
Qed.

Lemma position_resolver_witness :
  cache_ok TabConv.default_configuration TabConv.new_converter
  /\ (In (6, 0) (MidiToTab._get_fret_positions MidiToTab.default_config 64) <->
      exists open_pitch,
        string_of (MidiToTab.tuning MidiToTab.default_config) 6 open_pitch /\
        64 = open_pitch + MidiToTab.capo MidiToTab.default_config + 0 /\ 0 <= 0 <= 24).
Proof.
  split.
  - apply cache_ok_new.
  - exact (proj1 (position_resolver_sound_and_complete
                    MidiToTab.default_config TabConv.default_configuration
                    TabConv.new_converter 64 6 0
                    (cache_ok_new TabConv.default_configuration))).
Defined.

End ResolverClaim.

(** ** Sorting and minima *)

Section SortFacts.

Import Py.

Context {A : Type} (key : A -> Q).

Lemma insert_by_perm (x : A) (l : list A) :
  Permutation (insert_by key x l) (x :: l).
Proof.
  induction l as [|y l IH]; simpl; [reflexivity|].
  destruct (Qle_bool (key x) (key y)); [reflexivity|].
  rewrite IH. apply perm_swap.
Qed.

Lemma sorted_perm (l : list A) : Permutation (sorted key l) l.
Proof.
  induction l as [|x l IH]; simpl; [reflexivity|].
  rewrite insert_by_perm. now apply perm_skip.
Qed.

Lemma sorted_length (l : list A) : length (sorted key l) = length l.
Proof. apply Permutation_length, sorted_perm. Qed.

Lemma insert_by_sorted (x : A) (l : list A) :
  StronglySorted (key_le key) l -> StronglySorted (key_le key) (insert_by key x l).
Proof.
  induction 1 as [|y l Hl IH Hy]; simpl.
  - repeat constructor.
  - destruct (Qle_bool (key x) (key y)) eqn:E.
    + apply Qle_bool_iff in E. constructor; [now constructor|].
      constructor; [exact E|].
      eapply Forall_impl; [exact Hy|].
      intros z Hz. unfold key_le in *. eapply Qle_trans; eassumption.
    + assert (Hyx : (key y <= key x)%Q).
      { apply Qlt_le_weak, Qnot_le_lt. intros H. apply Qle_bool_iff in H. congruence. }
      constructor; [exact IH|].
      rewrite insert_by_perm. constructor; assumption.
Qed.

Lemma sorted_sorted (l : list A) : StronglySorted (key_le key) (sorted key l).
Proof.
  induction l as [|x l IH]; simpl; [constructor|].
  now apply insert_by_sorted.
Qed.

(** A list that is already in order is returned as it is. *)
Lemma sorted_id (l : list A) : StronglySorted (key_le key) l -> sorted key l = l.
Proof.
  induction 1 as [|x l Hl IH Hx]; simpl; [reflexivity|].
  rewrite IH. destruct l as [|y l]; [reflexivity|]. simpl.
  inversion Hx as [|? ? Hxy _]; subst.
  apply Qle_bool_iff in Hxy. now rewrite Hxy.
Qed.

Lemma min_by_from_in (best : A) (l : list A) :
  In (min_by_from key best l) (best :: l).
Proof.
  revert best. induction l as [|x l IH]; intros best; simpl; [now left|].
  destruct (IH (if Qlt_bool (key x) (key best) then x else best)) as [H|H].
  - destruct (Qlt_bool (key x) (key best)); rewrite <- H; auto.
  - auto.
Qed.

Lemma min_by_from_le_best (best : A) (l : list A) :
  (key (min_by_from key best l) <= key best)%Q.
Proof.
  revert best. induction l as [|x l IH]; intros best; simpl; [apply Qle_refl|].
  destruct (Qlt_bool (key x) (key best)) eqn:E; [|apply IH].
  apply Qlt_bool_iff in E.
  eapply Qle_trans; [apply IH|]. now apply Qlt_le_weak.
Qed.

Lemma min_by_from_le (best : A) (l : list A) (y : A) :
  In y (best :: l) -> (key (min_by_from key best l) <= key y)%Q.
Proof.
  revert best. induction l as [|x l IH]; intros best; simpl.
  - intros [<-|[]]. apply Qle_refl.
  - intros [<-|[<-|Hin]].
    + eapply Qle_trans; [apply min_by_from_le_best|].
      destruct (Qlt_bool (key x) (key best)) eqn:E; [|apply Qle_refl].
      apply Qlt_bool_iff in E. now apply Qlt_le_weak.
    + eapply Qle_trans; [apply min_by_from_le_best|].
      destruct (Qlt_bool (key x) (key best)) eqn:E; [apply Qle_refl|].
      now apply Qlt_bool_false_iff in E.
    + apply IH. now right.
Qed.

(** [min] returns the first of the minimal elements: everything before
    it in the list has a strictly greater key. *)
Lemma min_by_from_first (best : A) (l : list A) :
  exists l1 l2,
    best :: l = l1 ++ min_by_from key best l :: l2
    /\ Forall (fun y => (key (min_by_from key best l) < key y)%Q) l1.
Proof.
  revert best. induction l as [|x l IH]; intros best; simpl.
  - exists [], []. split; [reflexivity|constructor].
  - destruct (Qlt_bool (key x) (key best)) eqn:E.
    + destruct (IH x) as (l1 & l2 & Heq & Hall).
      exists (best :: l1), l2. split; [simpl; now rewrite Heq|].
      constructor; [|exact Hall].
      apply Qlt_bool_iff in E.
      eapply Qle_lt_trans; [apply min_by_from_le_best|exact E].
    + destruct (IH best) as (l1 & l2 & Heq & Hall).
      destruct l1 as [|b l1]; simpl in Heq.
      * exists [], (x :: l2). split; [|constructor].
        simpl. injection Heq as Hb Hl. f_equal; [exact Hb|]. f_equal. exact Hl.
      * injection Heq as -> Hl.
        exists (b :: x :: l1), l2. split; [simpl; do 2 f_equal; exact Hl|].
        inversion Hall as [|? ? Hb Hl1]; subst.
        constructor; [exact Hb|]. constructor; [|exact Hl1].
        apply Qlt_bool_false_iff in E.
        eapply Qlt_le_trans; eassumption.
Qed.

End SortFacts.

(** ** Conversion of the notes: kept notes and warnings *)

Section Conversion.

Import Py.

Lemma index_in_range {A} (l : list A) (i : Z) :
  0 <= i < Z.of_nat (length l) ->
  exists a, index l i = Ok a /\ In a l.
Proof.
  intros Hi. unfold index.
  destruct (i <? 0) eqn:E; [lia|].
  destruct (0 <=? i) eqn:E1; [|lia].
  destruct (i <? Z.of_nat (length l)) eqn:E2; [|lia]. simpl.
  destruct (nth_error l (Z.to_nat i)) as [a|] eqn:En.
  - exists a. split; [reflexivity|]. eapply nth_error_In; eassumption.
  - apply nth_error_None in En. lia.
Qed.

Lemma select_optimal_position_total (cfg : MidiToTab.TabConfig)
    (positions : list MidiToTab.Position) previous melodic :
  positions <> [] ->
  exists p, MidiToTab._select_optimal_position cfg positions previous melodic
            = Ok (Some p) /\ In p positions.
Proof.
  intros Hne. unfold MidiToTab._select_optimal_position.
  destruct positions as [|p0 ps]; [congruence|].
  destruct previous as [prev|].
  - simpl. eexists. split; [reflexivity|].
    set (costs := map _ ps).
    pose proof (min_by_from_in snd (p0, MidiToTab.position_cost cfg prev p0 melodic) costs) as Hin.
    destruct Hin as [<-|Hin]; [now left|].
    right. subst costs. apply in_map_iff in Hin as (q & <- & Hq). exact Hq.
  - destruct (MidiToTab.prefer_low_positions cfg).
    + simpl. eexists. split; [reflexivity|]. apply min_by_from_in.
    + destruct (index_in_range (p0 :: ps) (Z.of_nat (length (p0 :: ps)) / 2)) as (a & Ha & Hin).
      { split; [apply Z.div_pos; lia|].
        apply Z.div_lt_upper_bound; [lia|]. simpl length. lia. }
      exists a. split; [|exact Hin].
      unfold mbind, result_bind. rewrite Ha. reflexivity.
Qed.

Lemma convert_loop_spec (cfg : MidiToTab.TabConfig) (midi_notes : list MidiToTab.MidiNote) :
  forall tab_notes previous log,
  exists new_notes,
    MidiToTab.convert_loop cfg midi_notes tab_notes previous log
    = Ok (tab_notes ++ new_notes,
          log ++ map (fun n => MidiToTab.WARNING_out_of_range (MidiToTab.pitch n))
                     (List.filter (fun n => negb (playable cfg n)) midi_notes))
    /\ Forall2 (bound_to cfg) (List.filter (playable cfg) midi_notes) new_notes.
Proof.
  induction midi_notes as [|n rest IH]; intros tab_notes previous log; simpl.
  - exists []. rewrite !app_nil_r. split; [reflexivity|constructor].
  - destruct (MidiToTab._get_fret_positions cfg (MidiToTab.pitch n)) as [|p0 ps] eqn:Epos.
    + assert (Hp : playable cfg n = false) by (unfold playable; now rewrite Epos).
      rewrite Hp. simpl. destruct (IH tab_notes previous
                         (log ++ [MidiToTab.WARNING_out_of_range (MidiToTab.pitch n)]))
        as (new & Hrun & Hall).
      exists new. rewrite Hrun, <- app_assoc. split; [reflexivity|exact Hall].
    + assert (Hp : playable cfg n = true) by (unfold playable; now rewrite Epos).
      rewrite Hp. simpl negb. cbv iota.
      destruct (select_optimal_position_total cfg (p0 :: ps) previous
                  (MidiToTab.context_melodic n)) as (p & Hsel & Hin); [discriminate|].
      unfold mbind, result_bind. rewrite Hsel. simpl.
      match goal with
      | |- context [MidiToTab.convert_loop cfg rest (tab_notes ++ [?t]) ?pr log] =>
          destruct (IH (tab_notes ++ [t]) pr log) as (new & Hrun & Hall);
          exists (t :: new)
      end.
      rewrite Hrun, <- app_assoc. split; [reflexivity|].
      constructor; [|exact Hall].
      unfold bound_to. simpl. rewrite Epos.
      destruct p as [s f]. simpl. auto.
Qed.

Lemma filter_split_length {A} (f : A -> bool) (l : list A) :
  (length (List.filter (fun a => negb (f a)) l) + length (List.filter f l))%nat
  = length l.
Proof.
  induction l as [|a l IH]; simpl; [reflexivity|].
  destruct (f a); simpl; lia.
Qed.

End Conversion.

Section ConversionTabConv.

Import Py.

Variable config : TabConv.TabConfiguration.

Lemma tabconv_select_in (positions : list TabConv.PositionDict) previous_notes :
  positions <> [] ->
  exists pos, TabConv._select_optimal_position config positions previous_notes = Some pos
              /\ In pos positions.
Proof.
  intros Hne. unfold TabConv._select_optimal_position.
  destruct positions as [|p0 [|p1 ps]]; [congruence| |].
  - exists p0. split; [reflexivity|now left].
  - set (scored := map _ (p0 :: p1 :: ps)).
    pose proof (sorted_perm (fun x : Q * TabConv.PositionDict => (- fst x)%Q) scored) as Hperm.
    destruct (sorted _ scored) as [|best l] eqn:Es.
    + apply Permutation_nil in Hperm. discriminate.
    + exists (snd best). split; [reflexivity|].
      assert (Hin : In best scored).
      { eapply Permutation_in; [exact Hperm|now left]. }
      subst scored. apply in_map_iff in Hin as (q & <- & Hq). exact Hq.
Qed.

Lemma convert_note_spec (note : TabConv.NoteData)
    (measure_notes : list TabConv.GuitarNote) (st : TabConv.ConverterState) :
  cache_ok config st ->
  exists guitar_notes st',
    TabConv._convert_note config note measure_notes st = Ok (guitar_notes, st')
    /\ cache_ok config st'
    /\ match kept_positions config note with
       | [] =>
         guitar_notes = []
         /\ TabConv.log st'
            = TabConv.log st ++ [TabConv.WARNING_no_valid_position (TabConv.note_pitch note)]
       | _ =>
         TabConv.log st' = TabConv.log st
         /\ exists pos, In pos (kept_positions config note)
                        /\ guitar_notes = [guitar_note_at note pos]
       end.
Proof.
  intros Hok. unfold TabConv._convert_note, kept_positions.
  destruct (find_positions_cached config st
              (TabConv.note_pitch note - TabConv.capo_position config) Hok)
    as (st1 & Hrun & Hok1 & Hlog1).
  unfold mbind, TabConv.M_bind. rewrite Hrun.
  destruct (TabConv._filter_positions config _) as [|p0 ps] eqn:Ef.
  - unfold TabConv.logger, mret, TabConv.M_ret. simpl.
    eexists _, _. split; [reflexivity|]. split.
    + intros p q. simpl. apply Hok1.
    + simpl. rewrite Hlog1. auto.
  - destruct (tabconv_select_in (p0 :: ps) measure_notes) as (pos & Hsel & Hin);
      [discriminate|].
    rewrite Hsel. unfold mret, TabConv.M_ret.
    eexists _, _. split; [reflexivity|]. split; [exact Hok1|].
    split; [exact Hlog1|]. exists pos. split; [exact Hin|reflexivity].
Qed.

(** The loop over the notes of a measure keeps or warns each note. *)
Lemma convert_notes_spec (measure_notes : list TabConv.NoteData) :
  forall (tab_notes : list TabConv.GuitarNote) (st : TabConv.ConverterState),
  cache_ok config st ->
  exists new_notes st',
    TabConv.convert_notes config measure_notes tab_notes st
    = Ok (tab_notes ++ new_notes, st')
    /\ cache_ok config st'
    /\ TabConv.log st'
       = TabConv.log st
         ++ map (fun n => TabConv.WARNING_no_valid_position (TabConv.note_pitch n))
                (List.filter (fun n => negb (passes_filters config n)) measure_notes)
    /\ Forall2 (bound_to_kept config)
               (List.filter (passes_filters config) measure_notes) new_notes.
Proof.
  induction measure_notes as [|n rest IH]; intros tab_notes st Hok; simpl.
  - exists [], st. rewrite !app_nil_r. repeat split; auto.
  - destruct (convert_note_spec n tab_notes st Hok) as (gs & st1 & Hrun & Hok1 & Hcase).
    unfold mbind, TabConv.M_bind. rewrite Hrun.
    destruct (IH (tab_notes ++ gs) st1 Hok1) as (new & st2 & Hrun2 & Hok2 & Hlog2 & Hall).
    rewrite Hrun2.
    destruct (kept_positions config n) as [|p0 ps] eqn:Ek.
    + assert (Hp : passes_filters config n = false)
        by (unfold passes_filters; now rewrite Ek).
      rewrite Hp. destruct Hcase as [-> Hlog1].
      exists new, st2.
      rewrite app_nil_r. split; [reflexivity|]. split; [exact Hok2|].
      split; [|exact Hall].
      simpl. rewrite Hlog2, Hlog1, <- app_assoc. reflexivity.
    + assert (Hp : passes_filters config n = true)
        by (unfold passes_filters; now rewrite Ek).
      rewrite Hp. destruct Hcase as (Hlog1 & pos & Hin & ->).
      exists (guitar_note_at n pos :: new), st2.
      rewrite <- app_assoc. split; [reflexivity|]. split; [exact Hok2|].
      split; [simpl; rewrite Hlog2, Hlog1; reflexivity|].
      simpl. constructor; [|exact Hall].
      exists pos. rewrite Ek. auto.
Qed.

End ConversionTabConv.

Section ConversionClaims.

Import Py.

(** C2 (as amended).  Kept notes and warnings.  In MidiToTabConverter
    every input note is either dropped with one warning record, exactly
    when its candidate set is empty, or converted to exactly one tab
    note bound to one of its candidates, in the order of the input; so
    the number of warnings plus the number of tab notes is the number of
    input notes.  In TabConverter the same count holds for the notes of
    a measure, but a note is dropped with a warning exactly when no
    candidate passes the preference filters, which includes notes whose
    candidate set is not empty.  The warnings are records of the logger;
    the returned value does not contain them. *)
Theorem warnings_plus_tab_notes_is_input
    (cfg : MidiToTab.TabConfig) (midi_notes : list MidiToTab.MidiNote)
    (config : TabConv.TabConfiguration) (measure_notes : list TabConv.NoteData)
    (st : TabConv.ConverterState) (Hcache : cache_ok config st) :
  (exists tab_notes log,
     MidiToTab._convert_to_tab_notes cfg midi_notes = Ok (tab_notes, log)
     /\ (length log + length tab_notes)%nat = length midi_notes
     /\ log = map (fun n => MidiToTab.WARNING_out_of_range (MidiToTab.pitch n))
                  (List.filter (fun n => negb (playable cfg n)) midi_notes)
     /\ Forall2 (bound_to cfg) (List.filter (playable cfg) midi_notes) tab_notes)
  /\ (exists tab_notes warnings st',
        TabConv.convert_notes config measure_notes [] st = Ok (tab_notes, st')
        /\ TabConv.log st' = TabConv.log st ++ warnings
        /\ (length warnings + length tab_notes)%nat = length measure_notes
        /\ warnings
           = map (fun n => TabConv.WARNING_no_valid_position (TabConv.note_pitch n))
                 (List.filter (fun n => negb (passes_filters config n)) measure_notes)
        /\ Forall2 (bound_to_kept config)
                   (List.filter (passes_filters config) measure_notes) tab_notes).
Proof.
  split.
  - destruct (convert_loop_spec cfg midi_notes [] None []) as (new & Hrun & Hall).
    exists new, (map (fun n => MidiToTab.WARNING_out_of_range (MidiToTab.pitch n))
                     (List.filter (fun n => negb (playable cfg n)) midi_notes)).
    split; [exact Hrun|]. split; [|split; [reflexivity|exact Hall]].
    rewrite length_map, <- (Forall2_length _ _ _ Hall).
    apply filter_split_length.
  - destruct (convert_notes_spec config measure_notes [] st Hcache)
      as (new & st' & Hrun & _ & Hlog & Hall).
    exists new, (map (fun n => TabConv.WARNING_no_valid_position (TabConv.note_pitch n))
                     (List.filter (fun n => negb (passes_filters config n)) measure_notes)), st'.
    split; [exact Hrun|]. split; [exact Hlog|].
    split; [|split; [reflexivity|exact Hall]].
    rewrite length_map, <- (Forall2_length _ _ _ Hall).
    apply filter_split_length.
Qed.

Lemma warnings_plus_tab_notes_witness :
  cache_ok TabConv.default_configuration TabConv.new_converter
  /\ exists tab_notes log,
       MidiToTab._convert_to_tab_notes MidiToTab.default_config
         [midi_note 64 0 (1 # 2) 80; midi_note 28 1 2 80] = Ok (tab_notes, log)
       /\ (length log + length tab_notes)%nat = 2%nat.
Proof.
  split; [apply cache_ok_new|].
  destruct (warnings_plus_tab_notes_is_input MidiToTab.default_config
              [midi_note 64 0 (1 # 2) 80; midi_note 28 1 2 80]
              TabConv.default_configuration [] TabConv.new_converter
              (cache_ok_new _)) as [(tab_notes & log & Hrun & Hlen & _) _].
  exists tab_notes, log. split; [exact Hrun|exact Hlen].
Defined.

(** C2, counterexample.  The value returned by MidiToTabConverter for a
    piece made of the single unplayable pitch 28 is the value returned
    for the empty piece: the dropped note leaves no trace in the output,
    the warning is in the log only.  And under the default configuration
    of TabConverter the pitch 77 has three candidate positions, but the
    conversion of a piece made of that single note produces no guitar
    note, and one warning: a playable note is not kept. *)
Lemma playable_note_not_kept :
  match MidiToTab.convert_midi_to_tab MidiToTab.default_config
          [midi_note 28 0 1 80] timing_120_4_4,
        MidiToTab.convert_midi_to_tab MidiToTab.default_config [] timing_120_4_4 with
  | Ok (res, log), Ok (res', log') =>
    res = res' /\ log = [MidiToTab.WARNING_out_of_range 28] /\ log' = []
  | _, _ => False
  end
  /\ length (TabConv.compute_positions TabConv.default_configuration
               (77 - TabConv.capo_position TabConv.default_configuration)) = 3%nat
  /\ TabConv.convert TabConv.default_configuration [note_dict 77 0 (1 # 2) 80]
     = Ok ([ {| TabConv.number := 1; TabConv.time_signature := (4, 4);
                TabConv.tempo := 120; TabConv.notes := [];
                TabConv.chords := []; TabConv.lyrics := None |} ],
           [TabConv.WARNING_no_valid_position 77]).
Proof. repeat split; vm_compute; reflexivity. Qed.

(** C3 (as amended).  Preference filters.  [_convert_note] selects among
    the candidates that pass the [max_position] and
    [difficulty_threshold] filters only: the note is converted exactly
    when at least one candidate passes them, and its position is then
    one that passes them.  When the filters exclude every candidate the
    note is dropped with a warning; the filters are not relaxed. *)
Theorem preference_filters_are_never_dropped
    (config : TabConv.TabConfiguration) (note : TabConv.NoteData)
    (measure_notes : list TabConv.GuitarNote) (st : TabConv.ConverterState)
    (Hcache : cache_ok config st) :
  exists guitar_notes st',
    TabConv._convert_note config note measure_notes st = Ok (guitar_notes, st')
    /\ (kept_positions config note = [] ->
        guitar_notes = []
        /\ TabConv.log st'
           = TabConv.log st ++ [TabConv.WARNING_no_valid_position (TabConv.note_pitch note)])
    /\ (kept_positions config note <> [] ->
        TabConv.log st' = TabConv.log st
        /\ exists pos,
             guitar_notes = [guitar_note_at note pos]
             /\ In pos (TabConv.compute_positions config
                          (TabConv.note_pitch note - TabConv.capo_position config))
             /\ (TabConv.pos_fret pos <= TabConv.max_position config
                 \/ TabConv.pos_is_open pos = true)
             /\ (TabConv.pos_difficulty pos <= TabConv.difficulty_threshold config)%Q).
Proof.
  destruct (convert_note_spec config note measure_notes st Hcache)
    as (gs & st' & Hrun & _ & Hcase).
  exists gs, st'. split; [exact Hrun|].
  destruct (kept_positions config note) as [|p0 ps] eqn:Ek.
  - split; [intros _; exact Hcase|intros H; congruence].
  - split; [discriminate|]. intros _.
    destruct Hcase as (Hlog & pos & Hin & ->).
    split; [exact Hlog|]. exists pos. split; [reflexivity|].
    rewrite <- Ek in Hin. unfold kept_positions, TabConv._filter_positions in Hin.
    apply filter_In in Hin as [Hin Hpass].
    split; [exact Hin|].
    apply andb_true_iff in Hpass as [H1 H2].
    apply negb_true_iff in H1, H2.
    split.
    + apply andb_false_iff in H1 as [H1|H1].
      * left. lia.
      * right. now apply negb_false_iff in H1.
    + now apply Qlt_bool_false_iff in H2.
Qed.

Lemma preference_filters_witness :
  cache_ok TabConv.default_configuration TabConv.new_converter
  /\ exists guitar_notes st',
       TabConv._convert_note TabConv.default_configuration
         (note_dict 64 0 (1 # 2) 80) [] TabConv.new_converter = Ok (guitar_notes, st')
       /\ length guitar_notes = 1%nat.
Proof.
  split; [apply cache_ok_new|].
  destruct (preference_filters_are_never_dropped TabConv.default_configuration
              (note_dict 64 0 (1 # 2) 80) [] TabConv.new_converter (cache_ok_new _))
    as (gs & st' & Hrun & _ & Hkept).
  exists gs, st'. split; [exact Hrun|].
  destruct Hkept as (_ & pos & -> & _); [|reflexivity].
  vm_compute. discriminate.
Defined.

(** C3, counterexample.  Under the default configuration the pitch 88
    has the candidate position string 6, fret 24; the filters exclude
    it, and [_convert_note] returns no note and logs a warning instead
    of falling back to the full candidate set. *)
Lemma filtered_note_is_discarded :
  TabConv.compute_positions TabConv.default_configuration
    (88 - TabConv.capo_position TabConv.default_configuration) <> []
  /\ match TabConv._convert_note TabConv.default_configuration
             (note_dict 88 0 (1 # 2) 80) [] TabConv.new_converter with
     | Ok (guitar_notes, st') =>
       guitar_notes = []
       /\ TabConv.log st' = [TabConv.WARNING_no_valid_position 88]
     | Raise _ => False
     end.
Proof. split; [vm_compute; discriminate|vm_compute; auto]. Qed.

End ConversionClaims.

(** ** Measures *)

Section MeasureAssignment.

Import Py.

(** C4.  Measure of a note after a gap.  At 120 BPM in 4/4 the measure
    lasts 2 s.  The notes at 1.999 s and 2.000 s land in the first and
    in the second measure, as specified.  But a note at 5.0 s that
    follows a note at 0.0 s lands in the second measure, whose window is
    [2, 4), and not in the third one, [4, 6): the loop moves to the next
    measure once, however many measures the gap spans.  A further note
    at 5.5 s, which belongs to the same window as the one at 5.0 s, then
    opens yet another measure.  Both converters behave so. *)
Theorem note_after_gap_lands_in_next_measure :
  MidiToTab._organize_measures
    [tab_note 6 0 (1999 # 1000) (1 # 2) 80; tab_note 6 0 2 (1 # 2) 80] [] timing_120_4_4
  = Ok [ measure_of 1 [tab_note 6 0 (1999 # 1000) (1 # 2) 80];
         measure_of 2 [tab_note 6 0 2 (1 # 2) 80] ]
  /\ MidiToTab._organize_measures
       [tab_note 6 0 0 (1 # 2) 80; tab_note 6 0 5 (1 # 2) 80] [] timing_120_4_4
     = Ok [ measure_of 1 [tab_note 6 0 0 (1 # 2) 80];
            measure_of 2 [tab_note 6 0 5 (1 # 2) 80] ]
  /\ ~ in_window (measure_duration_of timing_120_4_4 (4, 4))
                 (measure_of 2 [tab_note 6 0 5 (1 # 2) 80]) 5
  /\ in_window (measure_duration_of timing_120_4_4 (4, 4)) (measure_of 3 []) 5
  /\ MidiToTab._organize_measures
       [tab_note 6 0 0 (1 # 2) 80; tab_note 6 0 5 (1 # 2) 80;
        tab_note 6 0 (11 # 2) (1 # 2) 80] [] timing_120_4_4
     = Ok [ measure_of 1 [tab_note 6 0 0 (1 # 2) 80];
            measure_of 2 [tab_note 6 0 5 (1 # 2) 80];
            measure_of 3 [tab_note 6 0 (11 # 2) (1 # 2) 80] ]
  /\ TabConv._group_into_measures
       [note_dict 64 0 (1 # 2) 80; note_dict 64 5 6 80] (4, 4) 120
     = Ok [ [note_dict 64 0 (1 # 2) 80]; [note_dict 64 5 6 80] ]
  /\ TabConv._group_into_measures
       [note_dict 64 0 (1 # 2) 80; note_dict 64 5 6 80; note_dict 64 (11 # 2) 6 80]
       (4, 4) 120
     = Ok [ [note_dict 64 0 (1 # 2) 80]; [note_dict 64 5 6 80];
            [note_dict 64 (11 # 2) 6 80] ].
Proof.
  split; [vm_compute; reflexivity|].
  split; [vm_compute; reflexivity|].
  split; [|split; [|repeat split; vm_compute; reflexivity]].
  - intros [_ H]. vm_compute in H. discriminate.
  - split; vm_compute; congruence.
Qed.

End MeasureAssignment.

Section MeasurePartition.

Import Py.

#[local] Instance Qlt_bool_comp : Proper (Qeq ==> Qeq ==> eq) Qlt_bool.
Proof. intros x x' Hx y y' Hy. unfold Qlt_bool. now rewrite Hx, Hy. Qed.

Lemma numbers_from_shift (num : Z) (n : nat) :
  map (fun k => num + Z.of_nat k) (seq 0 (S n))
  = num :: map (fun k => (num + 1) + Z.of_nat k) (seq 0 n).
Proof.
  simpl. f_equal; [lia|].
  rewrite <- seq_shift, map_map. apply map_ext. intros k. lia.
Qed.

Section Loop.

Variables (chords : list MidiToTab.Chord) (time_sig : Z * Z) (tempo d : Q).

Lemma organize_loop_spec (tab_notes : list MidiToTab.TabNote) :
  forall measures current measure_start measure_num,
  (measure_start == inject_Z (measure_num - 1) * d)%Q ->
  exists new_measures current' measure_start',
    MidiToTab.organize_loop chords time_sig tempo d tab_notes
      measures current measure_start measure_num
    = (measures ++ new_measures, current', measure_start',
       measure_num + Z.of_nat (length new_measures))
    /\ concat (map MidiToTab.notes new_measures) ++ current' = current ++ tab_notes
    /\ map MidiToTab.measure_number new_measures
       = map (fun k => measure_num + Z.of_nat k) (seq 0 (length new_measures))
    /\ (measure_start'
        == inject_Z (measure_num + Z.of_nat (length new_measures) - 1) * d)%Q
    /\ (tab_notes <> [] -> current' <> [])
    /\ Forall (fun m => MidiToTab.chords m = chords_in_window d m chords
                        /\ MidiToTab.time_signature m = time_sig
                        /\ MidiToTab.tempo m = tempo) new_measures.
Proof.
  induction tab_notes as [|note rest IH];
    intros measures current measure_start measure_num Hstart; simpl.
  - exists [], current, measure_start. simpl.
    rewrite !app_nil_r, Z.add_0_r. repeat split; auto.
  - destruct (Qlt_bool (MidiToTab.start_time note) (measure_start + d)) eqn:E.
    + destruct (IH measures (current ++ [note]) measure_start measure_num Hstart)
        as (new & cur' & ms' & Hrun & Hcat & Hnum & Hms & Hne & Hch).
      exists new, cur', ms'. rewrite Hrun. split; [reflexivity|].
      split; [rewrite Hcat, <- app_assoc; reflexivity|].
      split; [exact Hnum|]. split; [exact Hms|]. split; [|exact Hch].
      intros _. destruct rest as [|n' rest'].
      * simpl in Hrun. injection Hrun as Hm <- _ _.
        intros Hnil. now apply app_eq_nil in Hnil as [_ Hnil].
      * apply Hne. discriminate.
    + set (m := {| MidiToTab.measure_number := measure_num;
                   MidiToTab.time_signature := time_sig;
                   MidiToTab.tempo := tempo;
                   MidiToTab.notes := current;
                   MidiToTab.chords := _ |}).
      assert (Hstart' : (measure_start + d == inject_Z (measure_num + 1 - 1) * d)%Q).
      { rewrite Hstart. replace (measure_num + 1 - 1) with ((measure_num - 1) + 1) by lia.
        rewrite inject_Z_plus. ring. }
      destruct (IH (measures ++ [m]) [note] (measure_start + d)%Q (measure_num + 1) Hstart')
        as (new & cur' & ms' & Hrun & Hcat & Hnum & Hms & Hne & Hch).
      exists (m :: new), cur', ms'. rewrite Hrun, <- app_assoc.
      split; [simpl app; f_equal; simpl length; lia|].
      split; [simpl; rewrite <- app_assoc, Hcat; reflexivity|].
      change (length (m :: new)) with (S (length new)).
      split; [rewrite numbers_from_shift; simpl; now rewrite Hnum|].
      split; [rewrite Hms; apply Qmult_comp; [|reflexivity];
              apply inject_Z_injective; lia|].
      split.
      * intros _. destruct rest as [|n' rest'].
        -- simpl in Hrun. injection Hrun as _ <- _ _. discriminate.
        -- apply Hne. discriminate.
      * constructor; [|exact Hch].
        split; [|split; reflexivity].
        unfold chords_in_window, window_start, window_end. subst m.
        cbn [MidiToTab.chords MidiToTab.measure_number].
        apply filter_ext. intros c.
        assert (Hend : (measure_start + d == inject_Z measure_num * d)%Q).
        { rewrite Hstart'. apply Qmult_comp; [|reflexivity].
          apply inject_Z_injective. lia. }
        now rewrite Hend, Hstart.
Qed.

End Loop.

Lemma index_head {A} (x : A) (l : list A) : index (x :: l) 0 = Ok x.
Proof.
  unfold index. change (0 <? 0) with false. cbv iota.
  assert (H : (0 <? Z.of_nat (length (x :: l))) = true)
    by (apply Z.ltb_lt; simpl length; lia).
  rewrite H. reflexivity.
Qed.

Lemma truediv_nonzero (a b : Q) : ~ (b == 0)%Q -> truediv a b = Ok (a / b)%Q.
Proof.
  intros Hb. unfold truediv.
  destruct (Qeq_bool b 0) eqn:E; [|reflexivity].
  apply Qeq_bool_iff in E. contradiction.
Qed.

(** [_organize_measures] returns, and its measures hold the notes in
    their order, are numbered from 1 and tile the time axis. *)
Lemma organize_measures_spec (tab_notes : list MidiToTab.TabNote)
    (chords : list MidiToTab.Chord) (timing_info : MidiToTab.TimingInfo)
    (time_sig : Z * Z) (others : list (Z * Z)) :
  MidiToTab.time_signatures timing_info = time_sig :: others ->
  ~ (MidiToTab.timing_tempo timing_info == 0)%Q ->
  exists measures,
    MidiToTab._organize_measures tab_notes chords timing_info = Ok measures
    /\ concat (map MidiToTab.notes measures) = tab_notes
    /\ map MidiToTab.measure_number measures
       = map (fun k => 1 + Z.of_nat k) (seq 0 (length measures))
    /\ forall i m, measures !! i = Some m -> (S i < length measures)%nat ->
         MidiToTab.chords m
         = chords_in_window (measure_duration_of timing_info time_sig) m chords.
Proof.
  intros Hts Htempo. unfold MidiToTab._organize_measures.
  rewrite Hts, index_head. unfold mbind, result_bind. simpl rbind.
  rewrite (truediv_nonzero 60 _ Htempo). simpl rbind.
  fold (measure_duration_of timing_info time_sig).
  set (d := measure_duration_of timing_info time_sig).
  destruct (organize_loop_spec chords time_sig (MidiToTab.timing_tempo timing_info) d
              tab_notes [] [] 0%Q 1)
    as (new & cur' & ms' & Hrun & Hcat & Hnum & Hms & Hne & Hch).
  { change (inject_Z (1 - 1)) with 0%Q. symmetry. apply Qmult_0_l. }
  rewrite app_nil_l in Hrun. rewrite Hrun. simpl in Hcat.
  destruct cur' as [|c cs].
  - exists new. split; [reflexivity|].
    rewrite app_nil_r in Hcat. split; [exact Hcat|]. split; [exact Hnum|].
    intros i m Hi _. rewrite Forall_forall in Hch.
    refine (proj1 (Hch m _)). eapply list_elem_of_lookup_2. exact Hi.
  - eexists. split; [reflexivity|].
    split; [rewrite map_app, concat_app; simpl; rewrite app_nil_r; exact Hcat|].
    split.
    + rewrite map_app, length_app, Hnum. simpl length.
      replace (length new + 1)%nat with (S (length new)) by lia.
      rewrite seq_S, map_app. simpl. reflexivity.
    + intros i m Hi Hlt. rewrite length_app in Hlt. simpl in Hlt.
      rewrite lookup_app_l in Hi by lia.
      rewrite Forall_forall in Hch.
      refine (proj1 (Hch m _)). eapply list_elem_of_lookup_2. exact Hi.
Qed.

End MeasurePartition.

Section Chronology.

Import Py.

Lemma sorted_transfer {A B} (ka : A -> Q) (kb : B -> Q) (l : list A) (l' : list B) :
  Forall2 (fun a b => kb b = ka a) l l' ->
  StronglySorted (key_le ka) l -> StronglySorted (key_le kb) l'.
Proof.
  induction 1 as [|a b l l' Hab Hall IH]; intros Hs; [constructor|].
  inversion Hs as [|? ? Hl Ha]; subst.
  constructor; [now apply IH|].
  clear IH Hs Hl. induction Hall as [|a' b' l l' Hab' Hall IH'].
  - constructor.
  - inversion Ha as [|? ? Haa' Hrest]; subst. constructor.
    + unfold key_le in *. now rewrite Hab, Hab'.
    + now apply IH'.
Qed.

Lemma sorted_filter {A} (key : A -> Q) (f : A -> bool) (l : list A) :
  StronglySorted (key_le key) l -> StronglySorted (key_le key) (List.filter f l).
Proof.
  induction 1 as [|a l Hl IH Ha]; simpl; [constructor|].
  destruct (f a); [|exact IH].
  constructor; [exact IH|].
  rewrite List.Forall_forall in *. intros x Hx.
  apply filter_In in Hx as [Hx _]. now apply Ha.
Qed.

Lemma detect_techniques_from_start (prev : MidiToTab.TabNote) (l : list MidiToTab.TabNote) :
  Forall2 (fun a b => MidiToTab.start_time b = MidiToTab.start_time a)
          l (MidiToTab.detect_techniques_from prev l).
Proof.
  revert prev. induction l as [|n l IH]; intros prev; simpl; constructor.
  - reflexivity.
  - apply IH.
Qed.

Lemma detect_techniques_start (l : list MidiToTab.TabNote) :
  Forall2 (fun a b => MidiToTab.start_time b = MidiToTab.start_time a)
          l (MidiToTab._detect_techniques l).
Proof.
  destruct l as [|n l]; simpl; constructor; [reflexivity|].
  apply detect_techniques_from_start.
Qed.

Lemma group_loop_spec (d : Q) (notes : list TabConv.NoteData) :
  forall measures current measure_start_time,
  exists new_measures current' measure_start_time',
    TabConv.group_loop d notes measures current measure_start_time
    = (measures ++ new_measures, current', measure_start_time')
    /\ concat new_measures ++ current' = current ++ notes
    /\ Forall (fun g => g <> []) new_measures
    /\ (notes <> [] -> current' <> []).
Proof.
  induction notes as [|note rest IH]; intros measures current ms; simpl.
  - exists [], current, ms. rewrite !app_nil_r. repeat split; auto.
  - destruct (Qle_bool (ms + d) (TabConv.note_start note)).
    + destruct current as [|c cs].
      * destruct (IH measures [note] (ms + d)%Q) as (new & cur' & ms' & Hrun & Hcat & Hne & Hcur).
        exists new, cur', ms'. rewrite Hrun. repeat split; auto.
        intros _. destruct rest; [|apply Hcur; discriminate].
        simpl in Hrun. injection Hrun as _ <- _. discriminate.
      * destruct (IH (measures ++ [c :: cs]) [note] (ms + d)%Q)
          as (new & cur' & ms' & Hrun & Hcat & Hne & Hcur).
        exists ((c :: cs) :: new), cur', ms'. rewrite Hrun, <- app_assoc.
        split; [reflexivity|].
        split; [simpl; rewrite <- app_assoc, Hcat; reflexivity|].
        split; [constructor; [discriminate|exact Hne]|].
        intros _. destruct rest; [|apply Hcur; discriminate].
        simpl in Hrun. injection Hrun as _ <- _. discriminate.
    + destruct (IH measures (current ++ [note]) ms) as (new & cur' & ms' & Hrun & Hcat & Hne & Hcur).
      exists new, cur', ms'. rewrite Hrun. split; [reflexivity|].
      split; [rewrite Hcat, <- app_assoc; reflexivity|].
      split; [exact Hne|].
      intros _. destruct rest; [|apply Hcur; discriminate].
      simpl in Hrun. injection Hrun as _ <- _.
      intros Hnil. now apply app_eq_nil in Hnil as [_ Hnil].
Qed.

Lemma group_into_measures_spec (notes : list TabConv.NoteData)
    (time_signature : Z * Z) (tempo : Q) :
  ~ (tempo == 0)%Q ->
  exists measures,
    TabConv._group_into_measures notes time_signature tempo = Ok measures
    /\ concat measures = sorted TabConv.note_start notes
    /\ Forall (fun g => g <> []) measures.
Proof.
  intros Htempo. unfold TabConv._group_into_measures.
  destruct notes as [|n notes]; [exists []; repeat split; constructor|].
  rewrite (truediv_nonzero 60 _ Htempo). unfold mbind, result_bind. cbn [rbind].
  destruct (group_loop_spec (inject_Z (fst time_signature) * (60 / tempo))
              (sorted TabConv.note_start (n :: notes)) [] [] 0%Q)
    as (new & cur' & ms' & Hrun & Hcat & Hne & Hcur).
  rewrite app_nil_l in Hrun. rewrite Hrun. simpl in Hcat.
  destruct cur' as [|c cs].
  - exists new. rewrite app_nil_r in Hcat. auto.
  - exists (new ++ [c :: cs]). split; [reflexivity|].
    split; [rewrite concat_app; simpl; rewrite app_nil_r; exact Hcat|].
    apply Forall_app. split; [exact Hne|]. constructor; [discriminate|constructor].
Qed.

Lemma lookup_numbers (measures : list MidiToTab.TabMeasure) (i : nat) (m : MidiToTab.TabMeasure) :
  map MidiToTab.measure_number measures
  = map (fun k => 1 + Z.of_nat k) (seq 0 (length measures)) ->
  measures !! i = Some m -> MidiToTab.measure_number m = Z.of_nat i + 1.
Proof.
  intros Hnum Hi.
  assert (H : map MidiToTab.measure_number measures !! i
              = Some (MidiToTab.measure_number m)).
  { change (map MidiToTab.measure_number measures) with (MidiToTab.measure_number <$> measures).
    now rewrite list_lookup_fmap, Hi. }
  rewrite Hnum in H.
  change (map (fun k => 1 + Z.of_nat k) (seq 0 (length measures)))
    with ((fun k => 1 + Z.of_nat k) <$> seq 0 (length measures)) in H.
  rewrite list_lookup_fmap in H.
  destruct (seq 0 (length measures) !! i) as [k|] eqn:Ek; [|discriminate].
  apply lookup_seq in Ek as [-> _]. simpl in H. injection H as <-. lia.
Qed.

End Chronology.

(** ** Techniques *)

Section Techniques.

Import Py.

Lemma technique_after_set_technique (prev curr : MidiToTab.TabNote) t :
  MidiToTab.technique_after (MidiToTab.set_technique prev t) curr
  = MidiToTab.technique_after prev curr.
Proof. reflexivity. Qed.

Lemma detect_techniques_from_lookup (l : list MidiToTab.TabNote) :
  forall prev t i x y,
    (prev :: l) !! i = Some x -> l !! i = Some y ->
    MidiToTab.detect_techniques_from (MidiToTab.set_technique prev t) l !! i
    = Some (MidiToTab.set_technique y (MidiToTab.technique_after x y)).
Proof.
  induction l as [|y0 rest IH]; intros prev t i x y Hx Hy; [discriminate|].
  destruct i as [|j]; simpl in Hx, Hy.
  - injection Hx as <-. injection Hy as <-. reflexivity.
  - simpl. rewrite technique_after_set_technique.
    apply (IH y0 _ j x y); assumption.
Qed.

Lemma detect_techniques_lookup (l : list MidiToTab.TabNote) (i : nat) prev curr :
  l !! i = Some prev -> l !! S i = Some curr ->
  MidiToTab._detect_techniques l !! S i
  = Some (MidiToTab.set_technique curr (MidiToTab.technique_after prev curr)).
Proof.
  destruct l as [|first rest]; [discriminate|]. intros Hp Hc. simpl in Hc. simpl.
  assert (Hfirst : first = MidiToTab.set_technique first (MidiToTab.technique first))
    by now destruct first.
  rewrite Hfirst at 1.
  now apply detect_techniques_from_lookup.
Qed.

Lemma technique_after_hammer_on (prev curr : MidiToTab.TabNote) :
  MidiToTab.technique curr = MidiToTab.NORMAL ->
  (MidiToTab.technique_after prev curr = MidiToTab.HAMMER_ON
   <-> MidiToTab.fret prev < MidiToTab.fret curr /\ legato_after prev curr).
Proof.
  intros Hn. unfold MidiToTab.technique_after, legato_after.
  destruct (Z.eqb_spec (MidiToTab.string prev) (MidiToTab.string curr)) as [Hs|Hs];
    [|rewrite Hn; split; [discriminate|tauto]].
  destruct (Z.ltb_spec 0 (MidiToTab.fret curr - MidiToTab.fret prev)) as [Hf|Hf];
  destruct (Qlt_bool (MidiToTab.start_time curr - MidiToTab.start_time prev) (1 # 10)) eqn:Ht;
  destruct (Z.ltb_spec (MidiToTab.velocity curr) (MidiToTab.velocity prev)) as [Hv|Hv];
  try apply Qlt_bool_iff in Ht; try apply Qlt_bool_false_iff in Ht;
  cbn [andb];
  repeat match goal with
         | |- context [if ?b then _ else _] => destruct b
         end;
  rewrite ?Hn; split; try discriminate; try tauto;
  try (intros (? & ? & ? & ?); try lia; exfalso; eapply Qlt_not_le; eassumption).
  all: intros _; repeat split; auto; lia.
Qed.

Lemma technique_after_pull_off (prev curr : MidiToTab.TabNote) :
  MidiToTab.technique curr = MidiToTab.NORMAL ->
  (MidiToTab.technique_after prev curr = MidiToTab.PULL_OFF
   <-> MidiToTab.fret curr < MidiToTab.fret prev /\ legato_after prev curr).
Proof.
  intros Hn. unfold MidiToTab.technique_after, legato_after.
  destruct (Z.eqb_spec (MidiToTab.string prev) (MidiToTab.string curr)) as [Hs|Hs];
    [|rewrite Hn; split; [discriminate|tauto]].
  destruct (Z.ltb_spec 0 (MidiToTab.fret curr - MidiToTab.fret prev)) as [Hf|Hf];
  destruct (Z.ltb_spec (MidiToTab.fret curr - MidiToTab.fret prev) 0) as [Hf'|Hf'];
  destruct (Qlt_bool (MidiToTab.start_time curr - MidiToTab.start_time prev) (1 # 10)) eqn:Ht;
  destruct (Z.ltb_spec (MidiToTab.velocity curr) (MidiToTab.velocity prev)) as [Hv|Hv];
  try apply Qlt_bool_iff in Ht; try apply Qlt_bool_false_iff in Ht;
  cbn [andb];
  repeat match goal with
         | |- context [if ?b then _ else _] => destruct b
         end;
  rewrite ?Hn; split; try discriminate; try tauto;
  try (intros (? & ? & ? & ?); try lia; exfalso; eapply Qlt_not_le; eassumption).
  all: intros _; repeat split; auto; lia.
Qed.

End Techniques.

Section TechniqueClaims.

Import Py.

(** C6 (as amended).  Hammer-on and pull-off.  For every two adjacent
    tab notes of which the second has no technique yet,
    MidiToTabConverter tags the second one hammer-on exactly when both
    are on the same string, its fret is higher, its start time is less
    than 100 ms after the START time of the first, and its velocity is
    lower; and pull-off exactly when its fret is lower under the same
    conditions.  The end time of the first note plays no part: fret 5
    sounding 0.0-0.5 s followed on the same string by fret 3 at 0.51 s
    with lower velocity keeps the default technique.  TabConverter,
    which compares the start with the end of the previous note against
    50 ms and ignores the velocity, tags that pair pull-off. *)
Theorem hammer_on_and_pull_off_by_start_times
    (tab_notes : list MidiToTab.TabNote) (i : nat) (prev curr : MidiToTab.TabNote)
    (Hprev : tab_notes !! i = Some prev) (Hcurr : tab_notes !! S i = Some curr)
    (Hnormal : MidiToTab.technique curr = MidiToTab.NORMAL) :
  (exists tagged,
     MidiToTab._detect_techniques tab_notes !! S i = Some tagged
     /\ (MidiToTab.technique tagged = MidiToTab.HAMMER_ON
         <-> MidiToTab.fret prev < MidiToTab.fret curr /\ legato_after prev curr)
     /\ (MidiToTab.technique tagged = MidiToTab.PULL_OFF
         <-> MidiToTab.fret curr < MidiToTab.fret prev /\ legato_after prev curr))
  /\ map MidiToTab.technique
       (MidiToTab._detect_techniques
          [tab_note 1 5 0 (1 # 2) 80; tab_note 1 3 (51 # 100) (1 # 2) 60])
     = [MidiToTab.NORMAL; MidiToTab.NORMAL]
  /\ map TabConv.techniques
       (TabConv._detect_techniques
          [guitar_note 45 1 5 0 (1 # 2) 80; guitar_note 43 1 3 (51 # 100) 1 60])
     = [[]; [TabConv.PULL_OFF]].
Proof.
  split; [|split; vm_compute; reflexivity].
  exists (MidiToTab.set_technique curr (MidiToTab.technique_after prev curr)).
  split; [now apply detect_techniques_lookup|].
  split; [now apply technique_after_hammer_on|now apply technique_after_pull_off].
Qed.

Lemma hammer_on_and_pull_off_witness :
  [tab_note 1 5 0 (1 # 2) 80; tab_note 1 3 (5 # 100) (1 # 2) 60] !! 0%nat
  = Some (tab_note 1 5 0 (1 # 2) 80)
  /\ [tab_note 1 5 0 (1 # 2) 80; tab_note 1 3 (5 # 100) (1 # 2) 60] !! 1%nat
     = Some (tab_note 1 3 (5 # 100) (1 # 2) 60)
  /\ MidiToTab.technique (tab_note 1 3 (5 # 100) (1 # 2) 60) = MidiToTab.NORMAL
  /\ exists tagged,
       MidiToTab._detect_techniques
         [tab_note 1 5 0 (1 # 2) 80; tab_note 1 3 (5 # 100) (1 # 2) 60] !! 1%nat
       = Some tagged
       /\ (MidiToTab.technique tagged = MidiToTab.PULL_OFF
           <-> 3 < 5 /\ legato_after (tab_note 1 5 0 (1 # 2) 80)
                                      (tab_note 1 3 (5 # 100) (1 # 2) 60)).
Proof.
  split; [reflexivity|]. split; [reflexivity|]. split; [reflexivity|].
  destruct (hammer_on_and_pull_off_by_start_times
              [tab_note 1 5 0 (1 # 2) 80; tab_note 1 3 (5 # 100) (1 # 2) 60] 0
              (tab_note 1 5 0 (1 # 2) 80) (tab_note 1 3 (5 # 100) (1 # 2) 60)
              eq_refl eq_refl eq_refl) as [(tagged & Hrun & _ & Hpull) _].
  exists tagged. split; [exact Hrun|exact Hpull].
Defined.

(** C6, counterexample.  Fret 5 sounding 0.0-0.5 s, then fret 3 at
    0.51 s on the same string with lower velocity: the gap from the end
    of the first note is 10 ms, below 100 ms, and yet the second note is
    not classified pull-off. *)
Lemma pull_off_after_short_gap_not_detected :
  let prev := tab_note 1 5 0 (1 # 2) 80 in
  let curr := tab_note 1 3 (51 # 100) (1 # 2) 60 in
  MidiToTab.string prev = MidiToTab.string curr
  /\ MidiToTab.fret curr < MidiToTab.fret prev
  /\ (gap_after prev curr == 1 # 100)%Q
  /\ (gap_after prev curr < 1 # 10)%Q
  /\ MidiToTab.velocity curr < MidiToTab.velocity prev
  /\ exists tagged,
       MidiToTab._detect_techniques [prev; curr] !! 1%nat = Some tagged
       /\ MidiToTab.technique tagged <> MidiToTab.PULL_OFF.
Proof.
  cbv zeta. split; [reflexivity|]. split; [reflexivity|].
  split; [reflexivity|]. split; [reflexivity|]. split; [reflexivity|].
  eexists. split; [vm_compute; reflexivity|]. simpl. discriminate.
Qed.

End TechniqueClaims.

(** ** Selection of the first position *)

Section FirstPosition.

Import Py.

Lemma fret_positions_increasing_from (midi_pitch s : Z) (l : list Z) :
  let positions :=
    flat_map (fun '(string_idx, open_pitch) =>
                let fret := midi_pitch - open_pitch in
                if (0 <=? fret) && (fret <=? MidiToTab.max_fret)
                then [(string_idx + 1, fret)] else [])
             (enumerate_from s l) in
  StronglySorted (fun a b : MidiToTab.Position => fst a < fst b) positions
  /\ List.Forall (fun a : MidiToTab.Position => s + 1 <= fst a) positions.
Proof.
  revert s. induction l as [|o l IH]; intros s; simpl.
  - split; constructor.
  - destruct (IH (s + 1)) as [Hs Hall].
    assert (Hall' : List.Forall (fun a : MidiToTab.Position => s + 1 < fst a)
                      (flat_map (fun '(string_idx, open_pitch) =>
                         let fret := midi_pitch - open_pitch in
                         if (0 <=? fret) && (fret <=? MidiToTab.max_fret)
                         then [(string_idx + 1, fret)] else [])
                       (enumerate_from (s + 1) l))).
    { eapply List.Forall_impl; [|exact Hall]. intros a Ha. simpl in Ha. lia. }
    destruct ((0 <=? midi_pitch - o) && (midi_pitch - o <=? MidiToTab.max_fret)); simpl.
    + split.
      * constructor; [exact Hs|exact Hall'].
      * constructor; [simpl; lia|].
        eapply List.Forall_impl; [|exact Hall']. intros a Ha. simpl in Ha. lia.
    + split; [exact Hs|].
      eapply List.Forall_impl; [|exact Hall']. intros a Ha. simpl in Ha. lia.
Qed.

Lemma fret_positions_increasing (cfg : MidiToTab.TabConfig) (midi_pitch : Z) :
  StronglySorted (fun a b : MidiToTab.Position => fst a < fst b)
                 (MidiToTab._get_fret_positions cfg midi_pitch).
Proof. apply (fret_positions_increasing_from midi_pitch 0). Qed.

Lemma strongly_sorted_split {A} (R : A -> A -> Prop) (l1 l2 : list A) (x : A) :
  StronglySorted R (l1 ++ x :: l2) -> List.Forall (R x) l2.
Proof.
  induction l1 as [|a l1 IH]; simpl; intros H; inversion H; subst; auto.
Qed.



End FirstPosition.

(** ** Chords *)

Section Chords.

Import Py.

Lemma mapM_result_Forall2 {A B} (f : A -> result B) (l : list A) (k : list B) :
  mapM f l = Ok k -> Forall2 (fun x y => f x = Ok y) l k.
Proof.
  revert k. induction l as [|x l IH]; intros k; simpl.
  - intros H. injection H as <-. constructor.
  - unfold mbind, result_bind, mret, result_ret.
    destruct (f x) as [y|e] eqn:Ef; simpl; [|discriminate].
    destruct (mapM f l) as [k'|e] eqn:Em; simpl; [|discriminate].
    intros H. injection H as <-. constructor; [exact Ef|]. now apply IH.
Qed.

Lemma chord_group_loop_sizes (sorted_notes : list MidiToTab.TabNote) :
  forall note_groups current_group,
    List.Forall (fun g => (3 <= length g)%nat) note_groups ->
    List.Forall (fun g => (3 <= length g)%nat)
                (fst (MidiToTab.chord_group_loop sorted_notes note_groups current_group)).
Proof.
  induction sorted_notes as [|n rest IH]; intros groups current Hall; simpl; [exact Hall|].
  destruct (_ || _); [now apply IH|].
  apply IH. destruct (Z.leb_spec 3 (Z.of_nat (length current))); [|exact Hall].
  apply List.Forall_app. split; [exact Hall|]. constructor; [lia|constructor].
Qed.

Lemma chord_note_groups_sizes (tab_notes : list MidiToTab.TabNote) :
  List.Forall (fun g => (3 <= length g)%nat) (MidiToTab.chord_note_groups tab_notes).
Proof.
  unfold MidiToTab.chord_note_groups.
  pose proof (chord_group_loop_sizes (sorted MidiToTab.start_time tab_notes) [] []
                (List.Forall_nil _)) as H.
  destruct (MidiToTab.chord_group_loop _ [] []) as [groups current]. simpl in H.
  destruct (Z.leb_spec 3 (Z.of_nat (length current))); [|exact H].
  apply List.Forall_app. split; [exact H|]. constructor; [lia|constructor].
Qed.

Lemma chord_of_group_positions (cfg : MidiToTab.TabConfig)
    (group : list MidiToTab.TabNote) (chords : list MidiToTab.Chord) :
  MidiToTab.chord_of_group cfg group = Ok chords ->
  List.Forall (fun c => MidiToTab.tab_positions c
                        = map (fun n => (MidiToTab.string n, MidiToTab.fret n)) group)
              chords.
Proof.
  unfold MidiToTab.chord_of_group, mbind, result_bind.
  destruct (mapM _ group) as [pitches|e]; simpl; [|discriminate].
  destruct (MidiToTab._identify_chord pitches group) as [[info|]|e]; simpl;
    [| |discriminate].
  - destruct (index group 0) as [first|e]; simpl; [|discriminate].
    destruct (maxq (map MidiToTab.duration group)) as [d|e]; simpl; [|discriminate].
    intros H. injection H as <-. constructor; [reflexivity|constructor].
  - intros H. injection H as <-. constructor.
Qed.

(** No group of fewer than three notes is emitted as a chord. *)
Lemma detect_chords_sizes (cfg : MidiToTab.TabConfig)
    (tab_notes : list MidiToTab.TabNote) (chords : list MidiToTab.Chord) :
  MidiToTab._detect_chords cfg tab_notes = Ok chords ->
  List.Forall (fun c => (3 <= length (MidiToTab.tab_positions c))%nat) chords.
Proof.
  unfold MidiToTab._detect_chords, mbind, result_bind.
  destruct (mapM _ _) as [css|e] eqn:Em; simpl; [|discriminate].
  intros H. injection H as <-.
  apply mapM_result_Forall2 in Em.
  pose proof (chord_note_groups_sizes tab_notes) as Hsizes.
  induction Em as [|g cs gs css Hg Hall IH]; simpl; [constructor|].
  inversion Hsizes as [|? ? Hlen Hrest]; subst.
  apply List.Forall_app. split; [|now apply IH].
  apply chord_of_group_positions in Hg.
  eapply List.Forall_impl; [|exact Hg].
  intros c Hc. simpl in Hc. rewrite Hc, length_map. exact Hlen.
Qed.

End Chords.

Section ChordIdentification.

Import Py.

Lemma find_none_existsb {A} (f : A -> bool) (l : list A) :
  List.find f l = None <-> existsb f l = false.
Proof.
  induction l as [|a l IH]; simpl; [tauto|].
  destruct (f a); simpl; [split; discriminate|exact IH].
Qed.

Lemma find_chord_shape_total (cfg : MidiToTab.TabConfig)
    (tab_notes : list MidiToTab.TabNote) (root chord_type : String.string) :
  exists shape, MidiToTab._find_chord_shape tab_notes root chord_type = Ok shape.
Proof.
  unfold MidiToTab._find_chord_shape.
  destruct (List.find _ _) as [[shape_name ?]|]; [eexists; reflexivity|].
  destruct (List.filter _ _) as [|f fs]; [eexists; reflexivity|].
  unfold mbind, result_bind. simpl.
  destruct (_ =? _); eexists; reflexivity.
Qed.

Lemma chord_candidates_root (root_pc : Z) (tp : String.string * list Z) :
  In (root_pc, tp) MidiToTab.chord_candidates -> 0 <= root_pc < 12.
Proof.
  unfold MidiToTab.chord_candidates. intros H.
  apply in_flat_map in H as (r & Hr & Hin).
  apply in_map_iff in Hin as (tp' & Heq & _). injection Heq as -> _.
  apply in_map_iff in Hr as (k & <- & Hk). apply in_seq in Hk. lia.
Qed.

Lemma identify_chord_known (cfg : MidiToTab.TabConfig) (pitches : list Z)
    (tab_notes : list MidiToTab.TabNote) :
  known_chord pitches = true ->
  exists chord_info,
    MidiToTab._identify_chord pitches tab_notes = Ok (Some chord_info)
    /\ MidiToTab.pitches chord_info = pitches.
Proof.
  intros Hk. unfold MidiToTab._identify_chord.
  destruct (List.find _ MidiToTab.chord_candidates) as [[root_pc [chord_type pattern]]|] eqn:Ef.
  - apply find_some in Ef as [Hin _]. apply chord_candidates_root in Hin.
    destruct (index_in_range MidiToTab.note_names root_pc) as (root_name & Hidx & _);
      [simpl; lia|].
    destruct (find_chord_shape_total cfg tab_notes root_name chord_type) as (shape & Hshape).
    unfold mbind, result_bind. rewrite Hidx. simpl. rewrite Hshape. simpl.
    eexists. split; reflexivity.
  - apply find_none_existsb in Ef. unfold known_chord in Hk. congruence.
Qed.

Lemma identify_chord_unknown (pitches : list Z) (tab_notes : list MidiToTab.TabNote) :
  known_chord pitches = false ->
  MidiToTab._identify_chord pitches tab_notes = Ok None.
Proof.
  intros Hk. unfold MidiToTab._identify_chord.
  apply find_none_existsb in Hk. unfold known_chord in Hk.
  destruct (List.find _ MidiToTab.chord_candidates) as [[root_pc [chord_type pattern]]|] eqn:Ef;
    [|reflexivity].
  congruence.
Qed.

(** Three notes whose starts are in order and less than the threshold
    apart form one group. *)
Lemma three_notes_one_group (n1 n2 n3 : MidiToTab.TabNote) :
  (MidiToTab.start_time n1 <= MidiToTab.start_time n2)%Q ->
  (MidiToTab.start_time n2 <= MidiToTab.start_time n3)%Q ->
  (Qabs (MidiToTab.start_time n2 - MidiToTab.start_time n1) < MidiToTab.time_threshold)%Q ->
  (Qabs (MidiToTab.start_time n3 - MidiToTab.start_time n2) < MidiToTab.time_threshold)%Q ->
  MidiToTab.chord_note_groups [n1; n2; n3] = [[n1; n2; n3]].
Proof.
  intros H12 H23 T12 T23. unfold MidiToTab.chord_note_groups.
  rewrite sorted_id.
  - apply Qlt_bool_iff in T12, T23.
    cbn -[Qabs Qminus Qlt_bool MidiToTab.time_threshold].
    rewrite T12. cbn -[Qabs Qminus Qlt_bool MidiToTab.time_threshold].
    rewrite T23. reflexivity.
  - repeat constructor; unfold key_le; auto.
    eapply Qle_trans; eassumption.
Qed.

End ChordIdentification.

Section ChordClaims.

Import Py.




End ChordClaims.

(** ** Chord shapes *)

Section ChordShapes.

Import Py.

Lemma filter_positive_nil (l : list Z) :
  List.filter (fun f => 0 <? f) l = [] <-> List.Forall (fun f => f <= 0) l.
Proof.
  induction l as [|a l IH]; simpl.
  - split; constructor.
  - destruct (Z.ltb_spec 0 a).
    + split; [discriminate|]. intros Hall. inversion Hall; subst. lia.
    + rewrite IH. split; [now constructor|]. intros Hall. now inversion Hall.
Qed.

Lemma matches_shape_open (positions shape : list (Z * Z)) :
  List.Forall (fun f => f <= 0) (map snd positions) ->
  TabConv._matches_shape positions shape
  = if Nat.eqb (length positions) (length shape) then Raise ValueError else Ok false.
Proof.
  intros Hopen. unfold TabConv._matches_shape.
  destruct (Nat.eqb (length positions) (length shape)); [|reflexivity]. simpl.
  apply filter_positive_nil in Hopen. now rewrite Hopen.
Qed.

Lemma matches_shape_fretted (positions shape : list (Z * Z)) :
  ~ List.Forall (fun f => f <= 0) (map snd positions) ->
  List.filter (fun f => 0 <? f) (map snd shape) <> [] ->
  exists b, TabConv._matches_shape positions shape = Ok b.
Proof.
  intros Hfretted Hshape. unfold TabConv._matches_shape.
  destruct (negb _); [eexists; reflexivity|].
  rewrite <- filter_positive_nil in Hfretted.
  destruct (List.filter _ (map snd positions)) as [|f fs]; [congruence|].
  destruct (List.filter _ (map snd shape)) as [|f' fs']; [congruence|].
  eexists. reflexivity.
Qed.

Lemma detect_in_shapes_open (positions : list (Z * Z))
    (shapes : list (String.string * list (Z * Z))) :
  List.Forall (fun f => f <= 0) (map snd positions) ->
  TabConv.detect_in_shapes positions shapes
  = if existsb (fun s => Nat.eqb (length positions) (length (snd s))) shapes
    then Raise ValueError else Ok None.
Proof.
  intros Hopen. induction shapes as [|[name shape] shapes IH]; simpl; [reflexivity|].
  rewrite (matches_shape_open _ _ Hopen). unfold mbind, result_bind.
  destruct (Nat.eqb (length positions) (length shape)); simpl; [reflexivity|exact IH].
Qed.

Lemma detect_in_shapes_fretted (positions : list (Z * Z))
    (shapes : list (String.string * list (Z * Z))) :
  ~ List.Forall (fun f => f <= 0) (map snd positions) ->
  List.Forall (fun s => List.filter (fun f => 0 <? f) (map snd (snd s)) <> []) shapes ->
  exists r, TabConv.detect_in_shapes positions shapes = Ok r.
Proof.
  intros Hfretted Hshapes.
  induction Hshapes as [|[name shape] shapes Hs Hrest IH]; simpl; [eexists; reflexivity|].
  destruct (matches_shape_fretted positions shape Hfretted Hs) as (b & Hb).
  unfold mbind, result_bind. rewrite Hb. simpl.
  destruct b; [eexists; reflexivity|exact IH].
Qed.

Lemma common_shapes_fretted :
  List.Forall (fun s => List.filter (fun f => 0 <? f) (map snd (snd s)) <> [])
              TabConv.COMMON_SHAPES.
Proof. repeat constructor; discriminate. Qed.

(** C10.  Totality of [detect_chord_shape].  The function raises
    ValueError exactly when the group has four, five or six notes and
    none of them is fretted: the minimum over the fretted positions is
    then taken over an empty sequence.  In particular it raises on four
    notes on the open strings 1 to 4 (while three open notes give None),
    and [convert_midi_to_tab] raises on four simultaneous notes of pitch
    40 under the default configuration. *)
Theorem detect_chord_shape_raises_on_open_groups :
  (forall notes : list TabConv.GuitarNote,
     (TabConv.detect_chord_shape notes = Raise ValueError
      <-> all_open notes /\ (4 <= length notes <= 6)%nat)
     /\ ((exists r, TabConv.detect_chord_shape notes = Ok r)
         <-> ~ (all_open notes /\ (4 <= length notes <= 6)%nat)))
  /\ TabConv.detect_chord_shape
       [guitar_note 40 1 0 0 1 80; guitar_note 45 2 0 0 1 80;
        guitar_note 50 3 0 0 1 80; guitar_note 55 4 0 0 1 80]
     = Raise ValueError
  /\ TabConv.detect_chord_shape
       [guitar_note 40 1 0 0 1 80; guitar_note 45 2 0 0 1 80; guitar_note 50 3 0 0 1 80]
     = Ok None
  /\ TabConv.convert TabConv.default_configuration
       [note_dict 40 0 1 80; note_dict 40 0 1 80; note_dict 40 0 1 80; note_dict 40 0 1 80]
     = Raise ValueError.
Proof.
  split; [|repeat split; vm_compute; reflexivity].
  intros notes.
  assert (Hcases :
    (all_open notes /\ (4 <= length notes <= 6)%nat
     /\ TabConv.detect_chord_shape notes = Raise ValueError)
    \/ (~ (all_open notes /\ (4 <= length notes <= 6)%nat)
        /\ exists r, TabConv.detect_chord_shape notes = Ok r)).
  { unfold TabConv.detect_chord_shape.
    destruct (Nat.ltb_spec (length notes) 3) as [Hlt|Hge].
    - right. split; [lia|eexists; reflexivity].
    - set (positions := map (fun n => (TabConv.string n, TabConv.fret n)) notes).
      assert (Hlen : length positions = length notes) by apply length_map.
      assert (Hsnd : map snd positions = map TabConv.fret notes).
      { unfold positions. rewrite map_map. reflexivity. }
      destruct (List.Forall_dec (fun f => f <= 0) (fun f => Z_le_dec f 0) (map snd positions))
        as [Hopen|Hfretted].
      + rewrite (detect_in_shapes_open _ _ Hopen), Hlen.
        assert (Hall : all_open notes).
        { unfold all_open. rewrite Hsnd in Hopen.
          exact (proj1 (List.Forall_map TabConv.fret (fun f => f <= 0) notes) Hopen). }
        destruct (length notes) as [|[|[|[|[|[|[|n]]]]]]] eqn:El; try lia;
          simpl; try (left; repeat split; auto; lia);
          right; (split; [lia|eexists; reflexivity]).
      + right. split.
        * intros [Hall _]. apply Hfretted. rewrite Hsnd.
          exact (proj2 (List.Forall_map TabConv.fret (fun f => f <= 0) notes) Hall).
        * apply detect_in_shapes_fretted; [exact Hfretted|apply common_shapes_fretted]. }
  destruct Hcases as [(Hopen & Hlen & Hraise)|(Hnot & r & Hok)].
  - split; [tauto|]. split; [intros (r & Hr); congruence|tauto].
  - split.
    + split; [congruence|tauto].
    + split; [auto|eauto].
Qed.

End ChordShapes.

(** ** Pitch preservation *)

Section PitchPreservation.

Import Py.

(** [_convert_note] itself preserves the pitch, for every capo: the
    positions are searched for the pitch minus the capo. *)
Lemma convert_note_preserves_pitch (config : TabConv.TabConfiguration)
    (note : TabConv.NoteData) (measure_notes : list TabConv.GuitarNote)
    (st : TabConv.ConverterState) :
  cache_ok config st ->
  exists guitar_notes st',
    TabConv._convert_note config note measure_notes st = Ok (guitar_notes, st')
    /\ List.Forall (pitch_preserved config) guitar_notes.
Proof.
  intros Hok.
  destruct (convert_note_spec config note measure_notes st Hok)
    as (gs & st' & Hrun & _ & Hcase).
  exists gs, st'. split; [exact Hrun|].
  destruct (kept_positions config note) as [|p0 ps] eqn:Ek.
  - destruct Hcase as [-> _]. constructor.
  - destruct Hcase as (_ & pos & Hin & ->). constructor; [|constructor].
    rewrite <- Ek in Hin. unfold kept_positions, TabConv._filter_positions in Hin.
    apply filter_In in Hin as [Hin _].
    assert (Hex : exists pos', In pos' (TabConv.compute_positions config
                                 (TabConv.note_pitch note - TabConv.capo_position config))
                               /\ TabConv.pos_string pos' = TabConv.pos_string pos
                               /\ TabConv.pos_fret pos' = TabConv.pos_fret pos)
      by (exists pos; auto).
    apply compute_positions_spec in Hex as (op & Hs & Hp & _).
    exists op. split; [exact Hs|]. simpl. lia.
Qed.

(** C9.  Pitch preservation after the optimization pass.  With
    [capo_position = 2] and the notes of pitch 78 (0.0-0.5 s) and 46
    (0.5-1.0 s), [_convert_note] places the second note on string 1,
    fret 4, which preserves its pitch (40 + 2 + 4 = 46); the
    optimization pass then moves it to string 1, fret 6, a position of
    the pitch 46 without capo, so that the note returned sounds 48.
    [_optimize_group_fingering] looks the alternatives up for the pitch
    itself, not for the pitch minus the capo. *)
Theorem optimization_pass_breaks_pitch_with_capo :
  match TabConv.convert_notes capo_2_configuration
          [note_dict 78 0 (1 # 2) 80; note_dict 46 (1 # 2) 1 80] []
          TabConv.new_converter with
  | Ok (tab_notes, _) =>
    map (fun g => (TabConv.pitch g, TabConv.string g, TabConv.fret g)) tab_notes
    = [(78, 6, 12); (46, 1, 4)]
    /\ List.Forall (pitch_preserved capo_2_configuration) tab_notes
  | Raise _ => False
  end
  /\ match TabConv.convert capo_2_configuration
             [note_dict 78 0 (1 # 2) 80; note_dict 46 (1 # 2) 1 80] with
     | Ok ([measure], _) =>
       map (fun g => (TabConv.pitch g, TabConv.string g, TabConv.fret g))
           (TabConv.notes measure)
       = [(78, 6, 12); (46, 1, 6)]
       /\ ~ List.Forall (pitch_preserved capo_2_configuration) (TabConv.notes measure)
     | _ => False
     end.
Proof.
  split.
  - vm_compute. split; [reflexivity|].
    constructor; [|constructor; [|constructor]].
    + exists 64. repeat split; solve [reflexivity | intro; discriminate].
    + exists 40. repeat split; solve [reflexivity | intro; discriminate].
  - vm_compute. split; [reflexivity|].
    intros H. inversion H as [|? ? _ H2]; subst.
    inversion H2 as [|? ? (op & [_ Hs] & Hp) _]; subst.
    vm_compute in Hs. injection Hs as <-. vm_compute in Hp. discriminate.
Qed.

End PitchPreservation.

(** ** The whole conversion returns *)

Section Totality.

Import Py.

Variable cfg : MidiToTab.TabConfig.

Lemma mapM_result_total {A B} (f : A -> result B) (l : list A) :
  List.Forall (fun x => exists y, f x = Ok y) l -> exists k, mapM f l = Ok k.
Proof.
  induction 1 as [|x l [y Hy] _ [k Hk]].
  - eexists. reflexivity.
  - exists (y :: k).
    change (mapM f (x :: l))
      with (rbind (f x) (fun y => rbind (mapM f l) (fun k => Ok (y :: k)))).
    rewrite Hy. cbn [rbind]. rewrite Hk. reflexivity.
Qed.

Lemma chord_group_loop_members (P : MidiToTab.TabNote -> Prop)
    (sorted_notes : list MidiToTab.TabNote) :
  forall note_groups current_group,
    List.Forall P sorted_notes ->
    List.Forall (List.Forall P) note_groups -> List.Forall P current_group ->
    List.Forall (List.Forall P)
      (fst (MidiToTab.chord_group_loop sorted_notes note_groups current_group))
    /\ List.Forall P
         (snd (MidiToTab.chord_group_loop sorted_notes note_groups current_group)).
Proof.
  induction sorted_notes as [|n rest IH]; intros groups current Hnotes Hgroups Hcur;
    simpl; [auto|].
  inversion Hnotes as [|? ? Hn Hrest]; subst.
  destruct (_ || _).
  - apply IH; auto. apply List.Forall_app. auto.
  - apply IH; auto.
    destruct (3 <=? Z.of_nat (length current)); [|exact Hgroups].
    apply List.Forall_app. auto.
Qed.

Lemma chord_note_groups_members (P : MidiToTab.TabNote -> Prop)
    (tab_notes : list MidiToTab.TabNote) :
  List.Forall P tab_notes ->
  List.Forall (List.Forall P) (MidiToTab.chord_note_groups tab_notes).
Proof.
  intros Hall. unfold MidiToTab.chord_note_groups.
  assert (Hsorted : List.Forall P (sorted MidiToTab.start_time tab_notes)).
  { rewrite List.Forall_forall in *. intros x Hx. apply Hall.
    eapply Permutation_in; [apply sorted_perm|exact Hx]. }
  destruct (chord_group_loop_members P _ [] [] Hsorted (List.Forall_nil _) (List.Forall_nil _))
    as [Hg Hc].
  destruct (MidiToTab.chord_group_loop _ [] []) as [groups current]. simpl in Hg, Hc.
  destruct (3 <=? Z.of_nat (length current)); [|exact Hg].
  apply List.Forall_app. auto.
Qed.

Lemma sounding_pitches_total (group : list MidiToTab.TabNote) :
  List.Forall (valid_string cfg) group ->
  exists pitches, sounding_pitches cfg group = Ok pitches.
Proof.
  intros Hall. apply mapM_result_total.
  eapply List.Forall_impl; [|exact Hall].
  intros n (op & Hs & Hl).
  destruct (index_in_range (MidiToTab.self_tuning cfg) (MidiToTab.string n - 1))
    as (a & Ha & _).
  { apply lookup_lt_Some in Hl. unfold MidiToTab.self_tuning.
    rewrite length_map. lia. }
  unfold mbind, result_bind. rewrite Ha. eexists. reflexivity.
Qed.

Lemma identify_chord_total (pitches : list Z) (tab_notes : list MidiToTab.TabNote) :
  exists r, MidiToTab._identify_chord pitches tab_notes = Ok r.
Proof.
  destruct (known_chord pitches) eqn:Hk.
  - destruct (identify_chord_known cfg pitches tab_notes Hk) as (info & H & _). eauto.
  - rewrite (identify_chord_unknown pitches tab_notes Hk). eauto.
Qed.

Lemma chord_of_group_total (group : list MidiToTab.TabNote) :
  List.Forall (valid_string cfg) group -> (3 <= length group)%nat ->
  exists chords, MidiToTab.chord_of_group cfg group = Ok chords.
Proof.
  intros Hall Hlen. unfold MidiToTab.chord_of_group.
  destruct (sounding_pitches_total group Hall) as (pitches & Hp).
  change (mapM _ group) with (sounding_pitches cfg group). rewrite Hp.
  unfold mbind, result_bind. cbn [rbind].
  destruct (identify_chord_total pitches group) as ([info|] & Hid); rewrite Hid; cbn [rbind];
    [|eexists; reflexivity].
  destruct group as [|n g]; [simpl in Hlen; lia|].
  rewrite index_head. cbn [rbind map maxq]. eexists. reflexivity.
Qed.

Lemma detect_chords_total (tab_notes : list MidiToTab.TabNote) :
  List.Forall (valid_string cfg) tab_notes ->
  exists chords, MidiToTab._detect_chords cfg tab_notes = Ok chords.
Proof.
  intros Hall. unfold MidiToTab._detect_chords.
  destruct (mapM_result_total (MidiToTab.chord_of_group cfg)
              (MidiToTab.chord_note_groups tab_notes)) as (css & Hcss).
  { pose proof (chord_note_groups_members _ tab_notes Hall) as Hm.
    pose proof (chord_note_groups_sizes tab_notes) as Hs.
    rewrite List.Forall_forall in *. intros g Hg.
    apply chord_of_group_total; [apply Hm|apply Hs]; exact Hg. }
  exists (concat css).
  change (rbind (mapM (MidiToTab.chord_of_group cfg) (MidiToTab.chord_note_groups tab_notes))
                (fun chords => Ok (concat chords)) = Ok (concat css)).
  rewrite Hcss. reflexivity.
Qed.

Lemma bound_notes_valid (midi_notes : list MidiToTab.MidiNote)
    (tab_notes : list MidiToTab.TabNote) :
  Forall2 (bound_to cfg) midi_notes tab_notes ->
  List.Forall (valid_string cfg) tab_notes.
Proof.
  induction 1 as [|n t ns ts (Hin & _) _ IH]; constructor; [|exact IH].
  apply get_fret_positions_spec in Hin as (op & Hs & _). exists op. exact Hs.
Qed.

End Totality.

Section WholeConversion.

Import Py.

Lemma bound_notes_chronological (cfg : MidiToTab.TabConfig)
    (instrument_notes : list MidiToTab.MidiNote) (tab_notes : list MidiToTab.TabNote) :
  Forall2 (bound_to cfg)
          (List.filter (playable cfg) (sorted MidiToTab.start instrument_notes))
          tab_notes ->
  StronglySorted (key_le MidiToTab.start_time) (annotated cfg tab_notes).
Proof.
  intros Hall.
  assert (Hs : StronglySorted (key_le MidiToTab.start_time) tab_notes).
  { eapply (sorted_transfer MidiToTab.start).
    - eapply Forall2_impl; [exact Hall|]. intros n t (_ & H & _). exact H.
    - apply sorted_filter, sorted_sorted. }
  unfold annotated. destruct (MidiToTab.detect_techniques cfg); [|exact Hs].
  eapply sorted_transfer; [apply detect_techniques_start|exact Hs].
Qed.

Lemma detect_techniques_valid (cfg : MidiToTab.TabConfig) (tab_notes : list MidiToTab.TabNote) :
  List.Forall (valid_string cfg) tab_notes ->
  List.Forall (valid_string cfg) (annotated cfg tab_notes).
Proof.
  intros Hall. unfold annotated.
  destruct (MidiToTab.detect_techniques cfg); [|exact Hall].
  assert (Hfrom : forall prev l, List.Forall (valid_string cfg) l ->
            List.Forall (valid_string cfg) (MidiToTab.detect_techniques_from prev l)).
  { intros prev l Hl. revert prev.
    induction Hl as [|n l Hn _ IH]; intros prev; simpl; constructor; [exact Hn|apply IH]. }
  destruct Hall as [|n l Hn Hl]; simpl; constructor; [exact Hn|now apply Hfrom].
Qed.

(** C5.  Measure partition.  At 120 BPM in 4/4 (measures of 2 s), a
    note at 0 s followed by three notes that all start at 5.0 s comes
    out of [convert_midi_to_tab] in three measures: the first of the
    simultaneous notes alone in measure 2, whose window is [2, 4), and
    the two others in measure 3.  No note is lost or duplicated and the
    order is kept, but the consecutive measures 2 and 3 are not disjoint
    in time: both hold a note that starts at 5.0 s, and the note of
    measure 2 lies outside the window of its measure.  The grouping of
    TabConverter splits the same notes in the same way.  The loop moves
    to the next measure once per note, however long the gap is. *)
Theorem simultaneous_notes_are_split_over_two_measures :
  match MidiToTab.convert_midi_to_tab MidiToTab.default_config
          [midi_note 40 0 (1 # 2) 80; midi_note 48 5 6 80;
           midi_note 52 5 6 80; midi_note 55 5 6 80] timing_120_4_4 with
  | Ok (res, log) =>
    log = []
    /\ map (fun m => (MidiToTab.measure_number m,
                      map (fun n => (MidiToTab.string n, MidiToTab.fret n,
                                     MidiToTab.start_time n))
                          (MidiToTab.notes m)))
           (MidiToTab.result_measures res)
       = [ (1, [(1, 0, 0%Q)]); (2, [(2, 3, 5%Q)]); (3, [(2, 7, 5%Q); (2, 10, 5%Q)]) ]
    /\ exists m1 m2 m3,
         MidiToTab.result_measures res = [m1; m2; m3]
         /\ ~ starts_before MidiToTab.start_time (MidiToTab.notes m2) (MidiToTab.notes m3)
         /\ List.Forall
              (fun n => ~ in_window (measure_duration_of timing_120_4_4 (4, 4)) m2
                                    (MidiToTab.start_time n))
              (MidiToTab.notes m2)
         /\ List.Forall
              (fun n => in_window (measure_duration_of timing_120_4_4 (4, 4)) m3
                                  (MidiToTab.start_time n))
              (MidiToTab.notes m3)
  | Raise _ => False
  end
  /\ TabConv._group_into_measures
       [note_dict 40 0 (1 # 2) 80; note_dict 48 5 6 80;
        note_dict 52 5 6 80; note_dict 55 5 6 80] (4, 4) 120
     = Ok [ [note_dict 40 0 (1 # 2) 80]; [note_dict 48 5 6 80];
            [note_dict 52 5 6 80; note_dict 55 5 6 80] ]
  /\ ~ starts_before TabConv.note_start
                     [note_dict 48 5 6 80]
                     [note_dict 52 5 6 80; note_dict 55 5 6 80].
Proof.
  split; [|split].
  - destruct (MidiToTab.convert_midi_to_tab MidiToTab.default_config _ timing_120_4_4)
      as [[res log]|e] eqn:E; vm_compute in E; [|discriminate].
    injection E as <- <-.
    split; [reflexivity|]. split; [reflexivity|].
    eexists _, _, _. split; [reflexivity|]. split; [|split].
    + intros H. cbn [MidiToTab.notes] in H.
      specialize (H _ _ (or_introl eq_refl) (or_introl eq_refl)).
      vm_compute in H. discriminate.
    + constructor; [|constructor]. intros [_ H]. vm_compute in H. discriminate.
    + repeat constructor; vm_compute; congruence.
  - vm_compute. reflexivity.
  - intros H. specialize (H _ _ (or_introl eq_refl) (or_introl eq_refl)).
    vm_compute in H. discriminate.
Qed.

(** No note is lost, duplicated or reordered by the measures.  For every
    piece with a time signature and a non-zero tempo,
    [convert_midi_to_tab] returns, and the concatenation of the notes of
    its measures, in measure order, is the list of the converted notes,
    which is in chronological order; the measures are numbered 1, 2,
    ...  The grouping of TabConverter likewise returns non-empty groups
    whose concatenation is the chronological list of the notes. *)
Theorem measures_keep_every_note_in_order
    (cfg : MidiToTab.TabConfig) (instrument_notes : list MidiToTab.MidiNote)
    (timing_info : MidiToTab.TimingInfo)
    (time_sig : Z * Z) (others : list (Z * Z)) (midi_notes : list TabConv.NoteData)
    (Hsig : MidiToTab.time_signatures timing_info = time_sig :: others)
    (Htempo : ~ (MidiToTab.timing_tempo timing_info == 0)%Q) :
  (exists res log tab_notes,
     MidiToTab.convert_midi_to_tab cfg instrument_notes timing_info = Ok (res, log)
     /\ MidiToTab._convert_to_tab_notes cfg (sorted MidiToTab.start instrument_notes)
        = Ok (tab_notes, log)
     /\ concat (map MidiToTab.notes (MidiToTab.result_measures res))
        = annotated cfg tab_notes
     /\ StronglySorted (key_le MidiToTab.start_time)
          (concat (map MidiToTab.notes (MidiToTab.result_measures res)))
     /\ (forall i m, MidiToTab.result_measures res !! i = Some m ->
           MidiToTab.measure_number m = Z.of_nat i + 1))
  /\ (exists groups,
        TabConv._group_into_measures midi_notes time_sig (MidiToTab.timing_tempo timing_info)
        = Ok groups
        /\ concat groups = sorted TabConv.note_start midi_notes
        /\ Permutation (concat groups) midi_notes
        /\ StronglySorted (key_le TabConv.note_start) (concat groups)
        /\ Forall (fun g => g <> []) groups).
Proof.
  split.
  - destruct (convert_loop_spec cfg (sorted MidiToTab.start instrument_notes) [] None [])
      as (tab_notes & Hrun & Hall).
    simpl in Hrun.
    pose proof (bound_notes_chronological cfg instrument_notes tab_notes Hall) as Hs.
    pose proof (bound_notes_valid cfg _ tab_notes Hall) as Hvalid.
    assert (Hchords : exists chords,
              (if MidiToTab.detect_chords cfg
               then MidiToTab._detect_chords cfg tab_notes else Ok []) = Ok chords).
    { destruct (MidiToTab.detect_chords cfg); [|eexists; reflexivity].
      now apply detect_chords_total. }
    destruct Hchords as (chords & Hchords).
    destruct (organize_measures_spec (annotated cfg tab_notes) chords timing_info
                time_sig others Hsig Htempo) as (measures & Horg & Hcat & Hnum & Hch).
    eexists _, _, tab_notes.
    split.
    { unfold MidiToTab.convert_midi_to_tab, MidiToTab._convert_to_tab_notes.
      unfold mbind, result_bind. rewrite Hrun. cbn [rbind].
      rewrite Hchords. cbn [rbind].
      fold (annotated cfg tab_notes). rewrite Horg. cbn [rbind]. reflexivity. }
    cbn [MidiToTab.result_measures].
    split; [exact Hrun|]. split; [exact Hcat|].
    split; [rewrite Hcat; exact Hs|].
    intros i m; now apply lookup_numbers.
  - destruct (group_into_measures_spec midi_notes time_sig _ Htempo)
      as (groups & Hrun & Hcat & Hne).
    exists groups. split; [exact Hrun|]. split; [exact Hcat|].
    split; [rewrite Hcat; apply sorted_perm|].
    split; [rewrite Hcat; apply sorted_sorted|exact Hne].
Qed.

Lemma measures_keep_every_note_witness :
  MidiToTab.time_signatures timing_120_4_4 = [(4, 4)]
  /\ ~ (MidiToTab.timing_tempo timing_120_4_4 == 0)%Q
  /\ exists res log tab_notes,
       MidiToTab.convert_midi_to_tab MidiToTab.default_config
         [midi_note 64 5 6 80; midi_note 60 0 (1 # 2) 80] timing_120_4_4
       = Ok (res, log)
       /\ concat (map MidiToTab.notes (MidiToTab.result_measures res))
          = annotated MidiToTab.default_config tab_notes.
Proof.
  assert (Htempo : ~ (MidiToTab.timing_tempo timing_120_4_4 == 0)%Q)
    by (vm_compute; discriminate).
  split; [reflexivity|]. split; [exact Htempo|].
  destruct (measures_keep_every_note_in_order MidiToTab.default_config
              [midi_note 64 5 6 80; midi_note 60 0 (1 # 2) 80] timing_120_4_4
              (4, 4) [] [] eq_refl Htempo)
    as [(res & log & tab_notes & H1 & _ & H3 & _) _].
  exists res, log, tab_notes. auto.
Defined.

End WholeConversion.

(** * Further properties of the converters *)

(** ** MidiToTabConverter: selection, alternatives and the notes returned *)

Section MidiToTabNotes.

Import Py.

Lemma min_by_from_map_first {A B} (f : A -> B) (key : B -> Q) (a : A) (l : list A) :
  exists p l1 l2,
    min_by_from key (f a) (map f l) = f p
    /\ a :: l = l1 ++ p :: l2
    /\ List.Forall (fun q => (key (f p) < key (f q))%Q) l1
    /\ List.Forall (fun q => (key (f p) <= key (f q))%Q) l2.
Proof.
  destruct (min_by_from_first key (f a) (map f l)) as (l1' & l2' & Heq & Hlt).
  change (f a :: map f l) with (map f (a :: l)) in Heq.
  apply map_eq_app in Heq as (l1 & r & Hal & Hl1 & Hr).
  apply map_eq_cons in Hr as (p & l2 & -> & Hp & Hl2).
  exists p, l1, l2. split; [now rewrite Hp|]. split; [exact Hal|].
  split.
  - subst l1'. rewrite <- Hp in Hlt.
    exact (proj1 (List.Forall_map f (fun y => (key (f p) < key y)%Q) l1) Hlt).
  - apply List.Forall_forall. intros q Hq.
    rewrite Hp. apply min_by_from_le.
    change (f a :: map f l) with (map f (a :: l)). rewrite Hal.
    apply in_map, in_or_app. right. now right.
Qed.

(** With a previous position, the selected candidate is one of cheapest
    cost, and the first of them in the list. *)
Theorem select_optimal_position_minimises_cost
    (cfg : MidiToTab.TabConfig) (positions : list MidiToTab.Position)
    (previous : MidiToTab.Position) (melodic : bool)
    (Hne : positions <> []) :
  exists p l1 l2,
    MidiToTab._select_optimal_position cfg positions (Some previous) melodic = Ok (Some p)
    /\ positions = l1 ++ p :: l2
    /\ List.Forall (fun q => (MidiToTab.position_cost cfg previous p melodic
                            < MidiToTab.position_cost cfg previous q melodic)%Q) l1
    /\ List.Forall (fun q => (MidiToTab.position_cost cfg previous p melodic
                            <= MidiToTab.position_cost cfg previous q melodic)%Q) l2.
Proof.
  destruct positions as [|p0 ps]; [congruence|].
  destruct (min_by_from_map_first
              (fun pos => (pos, MidiToTab.position_cost cfg previous pos melodic))
              snd p0 ps) as (p & l1 & l2 & Hmin & Heq & Hlt & Hle).
  exists p, l1, l2. split; [|auto].
  unfold MidiToTab._select_optimal_position. simpl.
  unfold mbind, result_bind. simpl. rewrite Hmin. reflexivity.
Qed.

Lemma select_optimal_position_minimises_cost_witness :
  [(1, 6); (2, 1)] <> ([] : list MidiToTab.Position)
  /\ exists p l1 l2,
       MidiToTab._select_optimal_position MidiToTab.default_config
         [(1, 6); (2, 1)] (Some (1, 0)) false = Ok (Some p)
       /\ [(1, 6); (2, 1)] = l1 ++ p :: l2.
Proof.
  assert (Hne : [(1, 6); (2, 1)] <> ([] : list MidiToTab.Position)) by discriminate.
  split; [exact Hne|].
  destruct (select_optimal_position_minimises_cost MidiToTab.default_config
              [(1, 6); (2, 1)] (1, 0) false Hne) as (p & l1 & l2 & H1 & H2 & _).
  exists p, l1, l2. auto.
Defined.

End MidiToTabNotes.

Section MidiToTabAlternatives.

Import Py.

Lemma position_eqb_eq (p q : MidiToTab.Position) :
  MidiToTab.Position_eqb p q = true <-> p = q.
Proof.
  destruct p as [a b], q as [c d]. unfold MidiToTab.Position_eqb. simpl.
  rewrite andb_true_iff, !Z.eqb_eq. split; [intros [-> ->]; reflexivity|].
  intros H. injection H as -> ->. auto.
Qed.

Lemma convert_loop_converted (cfg : MidiToTab.TabConfig)
    (midi_notes : list MidiToTab.MidiNote) :
  forall tab_notes previous log,
  exists new_notes,
    MidiToTab.convert_loop cfg midi_notes tab_notes previous log
    = Ok (tab_notes ++ new_notes,
          log ++ map (fun n => MidiToTab.WARNING_out_of_range (MidiToTab.pitch n))
                     (List.filter (fun n => negb (playable cfg n)) midi_notes))
    /\ Forall2 (converted_from cfg) (List.filter (playable cfg) midi_notes) new_notes.
Proof.
  induction midi_notes as [|n rest IH]; intros tab_notes previous log; simpl.
  - exists []. rewrite !app_nil_r. split; [reflexivity|constructor].
  - destruct (MidiToTab._get_fret_positions cfg (MidiToTab.pitch n)) as [|p0 ps] eqn:Epos.
    + assert (Hp : playable cfg n = false) by (unfold playable; now rewrite Epos).
      rewrite Hp. simpl. destruct (IH tab_notes previous
                         (log ++ [MidiToTab.WARNING_out_of_range (MidiToTab.pitch n)]))
        as (new & Hrun & Hall).
      exists new. rewrite Hrun, <- app_assoc. split; [reflexivity|exact Hall].
    + assert (Hp : playable cfg n = true) by (unfold playable; now rewrite Epos).
      rewrite Hp. simpl negb. cbv iota.
      destruct (select_optimal_position_total cfg (p0 :: ps) previous
                  (MidiToTab.context_melodic n)) as (p & Hsel & Hin); [discriminate|].
      unfold mbind, result_bind. rewrite Hsel. simpl.
      match goal with
      | |- context [MidiToTab.convert_loop cfg rest (tab_notes ++ [?t]) ?pr log] =>
          destruct (IH (tab_notes ++ [t]) pr log) as (new & Hrun & Hall);
          exists (t :: new)
      end.
      rewrite Hrun, <- app_assoc. split; [reflexivity|].
      constructor; [|exact Hall].
      exists p. rewrite Epos. split; [exact Hin|].
      unfold tab_note_of. rewrite Epos. reflexivity.
Qed.

Lemma fret_positions_nodup (cfg : MidiToTab.TabConfig) (midi_pitch : Z) :
  List.NoDup (MidiToTab._get_fret_positions cfg midi_pitch).
Proof.
  pose proof (fret_positions_increasing cfg midi_pitch) as H.
  induction H as [|a l _ IH Ha]; constructor; [|exact IH].
  intros Hin. rewrite List.Forall_forall in Ha. specialize (Ha a Hin). lia.
Qed.

Lemma chosen_and_others {A} (eqb : A -> A -> bool) (x : A) (l : list A) :
  (forall a b, eqb a b = true <-> a = b) ->
  List.NoDup l -> In x l ->
  Permutation (x :: List.filter (fun y => negb (eqb y x)) l) l.
Proof.
  intros Heqb Hnd. induction Hnd as [|a l Ha Hnd IH]; intros Hin; [destruct Hin|].
  simpl. destruct (eqb a x) eqn:E; simpl.
  - apply Heqb in E. subst a. apply perm_skip.
    rewrite forallb_filter_id; [reflexivity|].
    apply forallb_forall. intros y Hy. apply negb_true_iff.
    destruct (eqb y x) eqn:E'; [|reflexivity].
    apply Heqb in E'. subst y. contradiction.
  - destruct Hin as [->|Hin].
    + assert (eqb x x = true) by now apply Heqb. congruence.
    + rewrite perm_swap. apply perm_skip. now apply IH.
Qed.

(** The alternatives of a tab note are the other candidates of its note:
    together with the chosen position they are the candidate list, and
    the chosen position is not among them. *)
Theorem alternatives_are_the_other_candidates
    (cfg : MidiToTab.TabConfig) (midi_notes : list MidiToTab.MidiNote) :
  exists tab_notes log,
    MidiToTab._convert_to_tab_notes cfg midi_notes = Ok (tab_notes, log)
    /\ Forall2 (fun n t =>
                  Permutation ((MidiToTab.string t, MidiToTab.fret t)
                               :: MidiToTab.alternatives t)
                              (MidiToTab._get_fret_positions cfg (MidiToTab.pitch n))
                  /\ ~ In (MidiToTab.string t, MidiToTab.fret t) (MidiToTab.alternatives t))
               (List.filter (playable cfg) midi_notes) tab_notes.
Proof.
  destruct (convert_loop_converted cfg midi_notes [] None []) as (new & Hrun & Hall).
  eexists _, _. split; [exact Hrun|].
  eapply Forall2_impl; [exact Hall|].
  intros n t (chosen & Hin & ->). simpl.
  replace (chosen.1, chosen.2) with chosen by now destruct chosen.
  split.
  - apply chosen_and_others; [apply position_eqb_eq|apply fret_positions_nodup|exact Hin].
  - intros H. apply filter_In in H as [_ H].
    apply negb_true_iff in H.
    assert (MidiToTab.Position_eqb chosen chosen = true) by now apply position_eqb_eq.
    congruence.
Qed.

End MidiToTabAlternatives.

Section MidiToTabPipeline.

Import Py.

Variable cfg : MidiToTab.TabConfig.

Lemma converted_from_bound (n : MidiToTab.MidiNote) (t : MidiToTab.TabNote) :
  converted_from cfg n t -> bound_to cfg n t.
Proof.
  intros (chosen & Hin & ->). unfold bound_to. simpl.
  replace (chosen.1, chosen.2) with chosen by now destruct chosen. auto.
Qed.

Lemma converted_from_sounds (n : MidiToTab.MidiNote) (t : MidiToTab.TabNote) :
  converted_from cfg n t -> sounds cfg n t.
Proof.
  intros (chosen & Hin & ->). destruct chosen as [s f].
  apply get_fret_positions_spec in Hin as (op & Hs & Hp & Hf).
  unfold sounds. simpl. repeat split; try lia; try reflexivity.
  exists op. split; [exact Hs|lia].
Qed.

Lemma detect_techniques_from_only_technique (prev : MidiToTab.TabNote)
    (l : list MidiToTab.TabNote) :
  Forall2 (fun a b => b = MidiToTab.set_technique a (MidiToTab.technique b))
          l (MidiToTab.detect_techniques_from prev l).
Proof.
  revert prev. induction l as [|n l IH]; intros prev; simpl; constructor.
  - reflexivity.
  - apply IH.
Qed.

(** The technique pass changes nothing but the technique of a note. *)
Lemma annotated_only_technique (l : list MidiToTab.TabNote) :
  Forall2 (fun a b => b = MidiToTab.set_technique a (MidiToTab.technique b))
          l (annotated cfg l).
Proof.
  unfold annotated. destruct (MidiToTab.detect_techniques cfg).
  - destruct l as [|n l]; simpl; constructor.
    + now destruct n.
    + apply detect_techniques_from_only_technique.
  - induction l as [|n l IH]; constructor; [now destruct n|exact IH].
Qed.

Lemma Forall2_exists_in {A B} (R : A -> B -> Prop) (l : list A) (l' : list B) :
  Forall2 R l l' -> List.Forall (fun b => exists a, In a l /\ R a b) l'.
Proof.
  induction 1 as [|a b l l' Hab _ IH]; constructor.
  - exists a. split; [now left|exact Hab].
  - eapply List.Forall_impl; [|exact IH].
    intros b' (a' & Hin & HR). exists a'. split; [now right|exact HR].
Qed.

(** The steps of [convert_midi_to_tab] on a piece with a time signature
    and a non-zero tempo. *)
Lemma convert_midi_to_tab_runs (instrument_notes : list MidiToTab.MidiNote)
    (timing_info : MidiToTab.TimingInfo) (time_sig : Z * Z) (others : list (Z * Z)) :
  MidiToTab.time_signatures timing_info = time_sig :: others ->
  ~ (MidiToTab.timing_tempo timing_info == 0)%Q ->
  exists tab_notes chords measures,
    Forall2 (converted_from cfg)
            (List.filter (playable cfg) (sorted MidiToTab.start instrument_notes))
            tab_notes
    /\ (if MidiToTab.detect_chords cfg
        then MidiToTab._detect_chords cfg tab_notes else Ok []) = Ok chords
    /\ MidiToTab._organize_measures (annotated cfg tab_notes) chords timing_info
       = Ok measures
    /\ MidiToTab.convert_midi_to_tab cfg instrument_notes timing_info
       = Ok ({| MidiToTab.result_measures := measures;
                MidiToTab.result_tuning := MidiToTab.tuning cfg;
                MidiToTab.result_capo := MidiToTab.capo cfg;
                MidiToTab.result_timing_info := timing_info;
                MidiToTab.statistics :=
                  {| MidiToTab.total_notes := Z.of_nat (length (annotated cfg tab_notes));
                     MidiToTab.total_measures := Z.of_nat (length measures);
                     MidiToTab.detected_chords := Z.of_nat (length chords);
                     MidiToTab.statistics_tempo := MidiToTab.timing_tempo timing_info |} |},
             map (fun n => MidiToTab.WARNING_out_of_range (MidiToTab.pitch n))
                 (List.filter (fun n => negb (playable cfg n))
                              (sorted MidiToTab.start instrument_notes))).
Proof.
  intros Hsig Htempo.
  destruct (convert_loop_converted cfg (sorted MidiToTab.start instrument_notes) [] None [])
    as (tab_notes & Hrun & Hall).
  simpl in Hrun.
  assert (Hvalid : List.Forall (valid_string cfg) tab_notes).
  { eapply bound_notes_valid. eapply Forall2_impl; [exact Hall|].
    apply converted_from_bound. }
  assert (Hchords : exists chords,
            (if MidiToTab.detect_chords cfg
             then MidiToTab._detect_chords cfg tab_notes else Ok []) = Ok chords).
  { destruct (MidiToTab.detect_chords cfg); [|eexists; reflexivity].
    now apply detect_chords_total. }
  destruct Hchords as (chords & Hchords).
  destruct (organize_measures_spec (annotated cfg tab_notes) chords timing_info
              time_sig others Hsig Htempo) as (measures & Horg & _).
  exists tab_notes, chords, measures.
  split; [exact Hall|]. split; [exact Hchords|]. split; [exact Horg|].
  unfold MidiToTab.convert_midi_to_tab, MidiToTab._convert_to_tab_notes.
  unfold mbind, result_bind. rewrite Hrun. cbn [rbind].
  rewrite Hchords. cbn [rbind].
  fold (annotated cfg tab_notes). rewrite Horg. cbn [rbind]. reflexivity.
Qed.

(** End to end, every note that MidiToTabConverter returns sounds the
    pitch of an input note, capo included, on an existing string and at
    a fret between 0 and 24, at the time and velocity of that note; and
    the statistics count the notes and measures that are returned. *)
Theorem returned_notes_sound_an_input_pitch
    (instrument_notes : list MidiToTab.MidiNote)
    (timing_info : MidiToTab.TimingInfo) (time_sig : Z * Z) (others : list (Z * Z))
    (Hsig : MidiToTab.time_signatures timing_info = time_sig :: others)
    (Htempo : ~ (MidiToTab.timing_tempo timing_info == 0)%Q) :
  exists res log,
    MidiToTab.convert_midi_to_tab cfg instrument_notes timing_info = Ok (res, log)
    /\ List.Forall (fun t => exists n, In n instrument_notes /\ sounds cfg n t)
                   (concat (map MidiToTab.notes (MidiToTab.result_measures res)))
    /\ MidiToTab.total_notes (MidiToTab.statistics res)
       = Z.of_nat (length (concat (map MidiToTab.notes (MidiToTab.result_measures res))))
    /\ MidiToTab.total_measures (MidiToTab.statistics res)
       = Z.of_nat (length (MidiToTab.result_measures res))
    /\ MidiToTab.total_notes (MidiToTab.statistics res) + Z.of_nat (length log)
       = Z.of_nat (length instrument_notes).
Proof.
  destruct (convert_midi_to_tab_runs instrument_notes timing_info time_sig others
              Hsig Htempo) as (tab_notes & chords & measures & Hall & _ & Horg & Hrun).
  destruct (organize_measures_spec (annotated cfg tab_notes) chords timing_info
              time_sig others Hsig Htempo) as (measures' & Horg' & Hcat & _).
  assert (measures' = measures) by congruence. subst measures'.
  eexists _, _. split; [exact Hrun|].
  cbn [MidiToTab.result_measures MidiToTab.statistics MidiToTab.total_notes
       MidiToTab.total_measures].
  rewrite Hcat.
  assert (Hlen : length (annotated cfg tab_notes) = length tab_notes).
  { symmetry. eapply Forall2_length, annotated_only_technique. }
  split; [|split; [reflexivity|split; [reflexivity|]]].
  - assert (Hs : List.Forall (fun t => exists n, In n instrument_notes /\ sounds cfg n t)
                             tab_notes).
    { eapply List.Forall_impl; [|exact (Forall2_exists_in _ _ _ Hall)].
      intros t (n & Hin & Hconv). exists n. split; [|now apply converted_from_sounds].
      apply filter_In in Hin as [Hin _].
      eapply Permutation_in; [apply sorted_perm|exact Hin]. }
    pose proof (annotated_only_technique tab_notes) as Hann.
    clear Hrun Horg Horg' Hcat Hlen Hall.
    induction Hann as [|a b l l' Hab _ IH]; [constructor|].
    inversion Hs as [|? ? (n & Hn & Hsound) Hrest]; subst.
    constructor; [|now apply IH].
    exists n. split; [exact Hn|]. rewrite Hab. exact Hsound.
  - rewrite Hlen, length_map, <- (Forall2_length _ _ _ Hall).
    rewrite <- Nat2Z.inj_add. f_equal.
    rewrite Nat.add_comm, filter_split_length. apply sorted_length.
Qed.

End MidiToTabPipeline.

Lemma returned_notes_sound_witness :
  MidiToTab.time_signatures timing_120_4_4 = [(4, 4)]
  /\ ~ (MidiToTab.timing_tempo timing_120_4_4 == 0)%Q
  /\ exists res log,
       MidiToTab.convert_midi_to_tab MidiToTab.default_config
         [midi_note 64 0 (1 # 2) 80; midi_note 28 1 2 80] timing_120_4_4 = Py.Ok (res, log)
       /\ MidiToTab.total_notes (MidiToTab.statistics res) + Z.of_nat (length log) = 2.
Proof.
  assert (Htempo : ~ (MidiToTab.timing_tempo timing_120_4_4 == 0)%Q)
    by (vm_compute; discriminate).
  split; [reflexivity|]. split; [exact Htempo|].
  destruct (returned_notes_sound_an_input_pitch MidiToTab.default_config
              [midi_note 64 0 (1 # 2) 80; midi_note 28 1 2 80] timing_120_4_4
              (4, 4) [] eq_refl Htempo) as (res & log & H1 & _ & _ & _ & H5).
  exists res, log. split; [exact H1|exact H5].
Defined.

(** ** MidiToTabConverter: the technique pass *)

Section MidiToTabTechniques.

Import Py.

Lemma technique_after_stable (prev curr : MidiToTab.TabNote) t :
  MidiToTab.technique_after (MidiToTab.set_technique prev t)
    (MidiToTab.set_technique curr (MidiToTab.technique_after prev curr))
  = MidiToTab.technique_after prev curr.
Proof.
  unfold MidiToTab.technique_after. cbn [MidiToTab.set_technique MidiToTab.string
    MidiToTab.fret MidiToTab.start_time MidiToTab.velocity MidiToTab.technique].
  repeat match goal with
         | |- context [if ?b then _ else _] => destruct b eqn:?
         end; reflexivity.
Qed.

Lemma detect_techniques_from_idempotent (l : list MidiToTab.TabNote) :
  forall prev t,
    MidiToTab.detect_techniques_from (MidiToTab.set_technique prev t)
      (MidiToTab.detect_techniques_from prev l)
    = MidiToTab.detect_techniques_from prev l.
Proof.
  induction l as [|curr rest IH]; intros prev t; simpl; [reflexivity|].
  rewrite technique_after_stable. f_equal. apply IH.
Qed.

(** Running the technique pass a second time changes nothing, and the
    pass never touches anything but the technique of a note; the first
    note keeps its technique. *)
Theorem detect_techniques_idempotent (tab_notes : list MidiToTab.TabNote) :
  MidiToTab._detect_techniques (MidiToTab._detect_techniques tab_notes)
  = MidiToTab._detect_techniques tab_notes
  /\ Forall2 (fun a b => b = MidiToTab.set_technique a (MidiToTab.technique b))
             tab_notes (MidiToTab._detect_techniques tab_notes)
  /\ hd_error (MidiToTab._detect_techniques tab_notes) = hd_error tab_notes.
Proof.
  split; [|split].
  - destruct tab_notes as [|first rest]; simpl; [reflexivity|]. f_equal.
    assert (Hfirst : first = MidiToTab.set_technique first (MidiToTab.technique first))
      by now destruct first.
    rewrite Hfirst at 1. apply detect_techniques_from_idempotent.
  - destruct tab_notes as [|n l]; simpl; constructor.
    + now destruct n.
    + apply detect_techniques_from_only_technique.
  - now destruct tab_notes.
Qed.

Lemma technique_after_cases (prev curr : MidiToTab.TabNote) :
  MidiToTab.technique curr = MidiToTab.NORMAL ->
  (MidiToTab.technique_after prev curr = MidiToTab.SLIDE_UP
   <-> 1 < MidiToTab.fret curr - MidiToTab.fret prev /\ slide_after prev curr)
  /\ (MidiToTab.technique_after prev curr = MidiToTab.SLIDE_DOWN
      <-> MidiToTab.fret curr - MidiToTab.fret prev < -1 /\ slide_after prev curr).
Proof.
  intros Hn. unfold MidiToTab.technique_after, slide_after.
  destruct (Z.eqb_spec (MidiToTab.string prev) (MidiToTab.string curr)) as [Hs|Hs];
    [|rewrite Hn; split; (split; [discriminate|tauto])].
  destruct (Z.ltb_spec 0 (MidiToTab.fret curr - MidiToTab.fret prev)) as [Hf|Hf];
  destruct (Z.ltb_spec (MidiToTab.fret curr - MidiToTab.fret prev) 0) as [Hf'|Hf'];
  destruct (Z.ltb_spec 1 (Z.abs (MidiToTab.fret curr - MidiToTab.fret prev))) as [Ha|Ha];
  destruct (Qlt_bool (MidiToTab.start_time curr - MidiToTab.start_time prev) (1 # 10)) eqn:Ht;
  destruct (Qlt_bool (MidiToTab.start_time curr - MidiToTab.start_time prev) (2 # 10)) eqn:Ht2;
  destruct (Z.ltb_spec (MidiToTab.velocity curr) (MidiToTab.velocity prev)) as [Hv|Hv];
  try apply Qlt_bool_iff in Ht; try apply Qlt_bool_false_iff in Ht;
  try apply Qlt_bool_iff in Ht2; try apply Qlt_bool_false_iff in Ht2;
  cbn [andb]; rewrite ?Hn;
  (split; (split;
   [ try discriminate; intros _
   | intros (Hd & _ & Hlt & Hnot); try lia; try reflexivity;
     try (exfalso; apply Hnot; split; assumption);
     try (exfalso; eapply Qlt_not_le; eassumption) ]));
  try lia;
  try (split; [lia|]; split; [assumption|]; split; [assumption|];
       intros [Hx Hy]; try lia; eapply Qlt_not_le; eassumption).
Qed.

(** A note is tagged slide-up exactly when, on the same string as the
    note before it, its fret is more than one fret higher, it starts
    less than 200 ms after the start of that note, and it is not a
    hammer-on (which takes precedence); slide-down likewise for a fret
    more than one fret lower. *)
Theorem slides_by_start_times
    (tab_notes : list MidiToTab.TabNote) (i : nat) (prev curr : MidiToTab.TabNote)
    (Hprev : tab_notes !! i = Some prev) (Hcurr : tab_notes !! S i = Some curr)
    (Hnormal : MidiToTab.technique curr = MidiToTab.NORMAL) :
  exists tagged,
    MidiToTab._detect_techniques tab_notes !! S i = Some tagged
    /\ (MidiToTab.technique tagged = MidiToTab.SLIDE_UP
        <-> 1 < MidiToTab.fret curr - MidiToTab.fret prev /\ slide_after prev curr)
    /\ (MidiToTab.technique tagged = MidiToTab.SLIDE_DOWN
        <-> MidiToTab.fret curr - MidiToTab.fret prev < -1 /\ slide_after prev curr).
Proof.
  exists (MidiToTab.set_technique curr (MidiToTab.technique_after prev curr)).
  split; [now apply detect_techniques_lookup|].
  now apply technique_after_cases.
Qed.

Lemma slides_by_start_times_witness :
  [tab_note 1 5 0 (1 # 2) 80; tab_note 1 8 (15 # 100) (1 # 2) 80] !! 0%nat
  = Some (tab_note 1 5 0 (1 # 2) 80)
  /\ [tab_note 1 5 0 (1 # 2) 80; tab_note 1 8 (15 # 100) (1 # 2) 80] !! 1%nat
     = Some (tab_note 1 8 (15 # 100) (1 # 2) 80)
  /\ MidiToTab.technique (tab_note 1 8 (15 # 100) (1 # 2) 80) = MidiToTab.NORMAL
  /\ exists tagged,
       MidiToTab._detect_techniques
         [tab_note 1 5 0 (1 # 2) 80; tab_note 1 8 (15 # 100) (1 # 2) 80] !! 1%nat
       = Some tagged
       /\ (MidiToTab.technique tagged = MidiToTab.SLIDE_UP
           <-> 1 < 8 - 5 /\ slide_after (tab_note 1 5 0 (1 # 2) 80)
                                        (tab_note 1 8 (15 # 100) (1 # 2) 80)).
Proof.
  split; [reflexivity|]. split; [reflexivity|]. split; [reflexivity|].
  destruct (slides_by_start_times
              [tab_note 1 5 0 (1 # 2) 80; tab_note 1 8 (15 # 100) (1 # 2) 80] 0
              (tab_note 1 5 0 (1 # 2) 80) (tab_note 1 8 (15 # 100) (1 # 2) 80)
              eq_refl eq_refl eq_refl) as (tagged & Hrun & Hup & _).
  exists tagged. split; [exact Hrun|exact Hup].
Defined.

End MidiToTabTechniques.

(** ** MidiToTabConverter: chords of the measures, errors *)

Section MidiToTabChordsOfMeasures.

Import Py.

Variables (chords : list MidiToTab.Chord) (d : Q).
Hypothesis Hd : (0 <= d)%Q.

Lemma window_then_rest (k : Z) (l : list MidiToTab.Chord) :
  Permutation
    (List.filter (fun c => Qle_bool (inject_Z (k - 1) * d) (MidiToTab.time c)
                           && Qlt_bool (MidiToTab.time c) (inject_Z k * d)) l
     ++ chords_from (inject_Z k * d) l)
    (chords_from (inject_Z (k - 1) * d) l).
Proof.
  assert (Hstep : (inject_Z (k - 1) * d <= inject_Z k * d)%Q).
  { apply Qmult_le_compat_r; [|exact Hd]. rewrite <- Zle_Qle. lia. }
  unfold chords_from. induction l as [|c l IH]; simpl; [reflexivity|].
  destruct (Qle_bool (inject_Z (k - 1) * d) (MidiToTab.time c)) eqn:E1;
  destruct (Qlt_bool (MidiToTab.time c) (inject_Z k * d)) eqn:E2;
  destruct (Qle_bool (inject_Z k * d) (MidiToTab.time c)) eqn:E3; simpl;
  try apply Qle_bool_iff in E1; try apply Qle_bool_iff in E3;
  try apply Qlt_bool_iff in E2; try apply Qlt_bool_false_iff in E2.
  - exfalso. exact (Qlt_not_le _ _ E2 E3).
  - now apply perm_skip.
  - rewrite <- Permutation_middle. now apply perm_skip.
  - exfalso. apply not_true_iff_false in E3. apply E3. now apply Qle_bool_iff.
  - exfalso. exact (Qlt_not_le _ _ E2 E3).
  - exact IH.
  - exfalso. apply not_true_iff_false in E1. apply E1. apply Qle_bool_iff.
    eapply Qle_trans; eassumption.
  - exact IH.
Qed.

Lemma windows_then_rest (ms : list MidiToTab.TabMeasure) :
  forall num,
    map MidiToTab.measure_number ms
    = map (fun k => num + Z.of_nat k) (seq 0 (length ms)) ->
    List.Forall (fun m => MidiToTab.chords m = chords_in_window d m chords) ms ->
    Permutation
      (concat (map MidiToTab.chords ms)
       ++ chords_from (inject_Z (num + Z.of_nat (length ms) - 1) * d) chords)
      (chords_from (inject_Z (num - 1) * d) chords).
Proof.
  induction ms as [|m ms IH]; intros num Hnum Hall.
  - simpl. rewrite Z.add_0_r. reflexivity.
  - change (length (m :: ms)) with (S (length ms)) in *.
    rewrite numbers_from_shift in Hnum. simpl in Hnum.
    injection Hnum as Hm Hrest.
    inversion Hall as [|? ? Hc Hall']; subst.
    specialize (IH (MidiToTab.measure_number m + 1) Hrest Hall').
    simpl. rewrite <- app_assoc.
    replace (MidiToTab.measure_number m + Z.of_nat (S (length ms)) - 1)
      with (MidiToTab.measure_number m + 1 + Z.of_nat (length ms) - 1) by lia.
    rewrite IH. rewrite Hc. unfold chords_in_window, window_start, window_end.
    replace (MidiToTab.measure_number m + 1 - 1) with (MidiToTab.measure_number m) by lia.
    apply window_then_rest.
Qed.

End MidiToTabChordsOfMeasures.

Section MidiToTabMeasureErrors.

Import Py.

#[local] Instance Qlt_bool_proper : Proper (Qeq ==> Qeq ==> eq) Qlt_bool.
Proof. intros x x' Hx y y' Hy. unfold Qlt_bool. now rewrite Hx, Hy. Qed.

(** Every chord that starts at a time >= 0 is in exactly one measure:
    when there is at least one note and the measure duration is not
    negative, the chords of the measures, taken together, are the chords
    at times >= 0, each once. *)
Theorem chords_are_spread_over_the_measures
    (tab_notes : list MidiToTab.TabNote) (chords : list MidiToTab.Chord)
    (timing_info : MidiToTab.TimingInfo) (time_sig : Z * Z) (others : list (Z * Z))
    (Hsig : MidiToTab.time_signatures timing_info = time_sig :: others)
    (Htempo : ~ (MidiToTab.timing_tempo timing_info == 0)%Q)
    (Hd : (0 <= measure_duration_of timing_info time_sig)%Q)
    (Hnotes : tab_notes <> []) :
  exists measures,
    MidiToTab._organize_measures tab_notes chords timing_info = Ok measures
    /\ Permutation (concat (map MidiToTab.chords measures)) (chords_from 0 chords).
Proof.
  unfold MidiToTab._organize_measures.
  rewrite Hsig, index_head. unfold mbind, result_bind. cbn [rbind].
  rewrite (truediv_nonzero 60 _ Htempo). cbn [rbind].
  fold (measure_duration_of timing_info time_sig).
  set (d := measure_duration_of timing_info time_sig) in *.
  destruct (organize_loop_spec chords time_sig (MidiToTab.timing_tempo timing_info) d
              tab_notes [] [] 0%Q 1)
    as (new & cur' & ms' & Hrun & Hcat & Hnum & Hms & Hne & Hch).
  { change (inject_Z (1 - 1)) with 0%Q. symmetry. apply Qmult_0_l. }
  rewrite app_nil_l in Hrun. rewrite Hrun.
  destruct cur' as [|c cs]; [now destruct (Hne Hnotes)|].
  eexists. split; [reflexivity|].
  rewrite map_app, concat_app. cbn [map concat MidiToTab.chords]. rewrite app_nil_r.
  assert (Hall : List.Forall (fun m => MidiToTab.chords m = chords_in_window d m chords) new).
  { eapply List.Forall_impl; [|exact Hch]. intros m Hm. apply Hm. }
  pose proof (windows_then_rest chords d Hd new 1 Hnum Hall) as Hperm.
  assert (Hlast : List.filter (fun c0 => Qle_bool ms' (MidiToTab.time c0)) chords
                  = chords_from (inject_Z (1 + Z.of_nat (length new) - 1) * d) chords).
  { unfold chords_from. apply filter_ext. intros c0. now rewrite Hms. }
  assert (Hfirst : chords_from (inject_Z (1 - 1) * d) chords = chords_from 0 chords).
  { unfold chords_from. apply filter_ext. intros c0.
    assert (H0 : (inject_Z (1 - 1) * d == 0)%Q)
      by (change (inject_Z (1 - 1)) with 0%Q; apply Qmult_0_l).
    now rewrite H0. }
  rewrite Hlast, Hperm, Hfirst. reflexivity.
Qed.

End MidiToTabMeasureErrors.

Section MidiToTabErrors.

Import Py.


Lemma chords_are_spread_witness :
  MidiToTab.time_signatures timing_120_4_4 = [(4, 4)]
  /\ ~ (MidiToTab.timing_tempo timing_120_4_4 == 0)%Q
  /\ (0 <= measure_duration_of timing_120_4_4 (4%Z, 4%Z))%Q
  /\ [tab_note 6 0 0 (1 # 2) 80] <> []
  /\ exists measures,
       MidiToTab._organize_measures [tab_note 6 0 0 (1 # 2) 80] [] timing_120_4_4
       = Ok measures
       /\ Permutation (concat (map MidiToTab.chords measures)) (chords_from 0 []).
Proof.
  assert (Htempo : ~ (MidiToTab.timing_tempo timing_120_4_4 == 0)%Q)
    by (vm_compute; discriminate).
  assert (Hd : (0 <= measure_duration_of timing_120_4_4 (4%Z, 4%Z))%Q)
    by (vm_compute; discriminate).
  assert (Hne : [tab_note 6 0 0 (1 # 2) 80] <> []) by discriminate.
  split; [reflexivity|]. split; [exact Htempo|]. split; [exact Hd|]. split; [exact Hne|].
  exact (chords_are_spread_over_the_measures [tab_note 6 0 0 (1 # 2) 80] []
           timing_120_4_4 (4, 4) [] eq_refl Htempo Hd Hne).
Defined.

End MidiToTabErrors.

(** ** MidiToTabConverter: identification of triads *)

Section Triads.

Import Py.

Lemma identify_chord_first (cfg : MidiToTab.TabConfig) (pitches : list Z)
    (tab_notes : list MidiToTab.TabNote) (root_pc : Z) (chord_type : String.string)
    (pattern : list Z) :
  first_chord (pitch_classes_of pitches) = Some (root_pc, (chord_type, pattern)) ->
  exists chord_info,
    MidiToTab._identify_chord pitches tab_notes = Ok (Some chord_info)
    /\ index MidiToTab.note_names root_pc = Ok (MidiToTab.root chord_info)
    /\ MidiToTab.type chord_info = chord_type.
Proof.
  intros Hfirst. unfold MidiToTab._identify_chord.
  change (List.find _ MidiToTab.chord_candidates)
    with (first_chord (pitch_classes_of pitches)).
  rewrite Hfirst.
  unfold first_chord in Hfirst. apply find_some in Hfirst as [Hin _].
  apply chord_candidates_root in Hin.
  destruct (index_in_range MidiToTab.note_names root_pc) as (root_name & Hidx & _);
    [simpl; lia|].
  destruct (find_chord_shape_total cfg tab_notes root_name chord_type) as (shape & Hshape).
  unfold mbind, result_bind. rewrite Hidx. cbn [rbind]. rewrite Hshape. cbn [rbind].
  eexists. split; [reflexivity|]. split; reflexivity.
Qed.

(** A group whose pitch classes are those of a major triad on the root
    [r] is identified as the major chord on [r], in every octave and
    voicing; likewise for a minor triad. *)
Theorem triads_are_identified_on_their_root
    (cfg : MidiToTab.TabConfig) (pitches : list Z)
    (tab_notes : list MidiToTab.TabNote) (r : Z) (Hr : 0 <= r < 12) :
  (pitch_classes_of pitches = {[ r; (r + 4) mod 12; (r + 7) mod 12 ]} ->
   exists chord_info,
     MidiToTab._identify_chord pitches tab_notes = Ok (Some chord_info)
     /\ index MidiToTab.note_names r = Ok (MidiToTab.root chord_info)
     /\ MidiToTab.type chord_info = "major"%string)
  /\ (pitch_classes_of pitches = {[ r; (r + 3) mod 12; (r + 7) mod 12 ]} ->
      exists chord_info,
        MidiToTab._identify_chord pitches tab_notes = Ok (Some chord_info)
        /\ index MidiToTab.note_names r = Ok (MidiToTab.root chord_info)
        /\ MidiToTab.type chord_info = "minor"%string).
Proof.
  assert (Hcases : r = 0 \/ r = 1 \/ r = 2 \/ r = 3 \/ r = 4 \/ r = 5 \/ r = 6
                   \/ r = 7 \/ r = 8 \/ r = 9 \/ r = 10 \/ r = 11) by lia.
  split; intros Hpc;
    [apply (identify_chord_first cfg pitches tab_notes r "major" [0; 4; 7])
    |apply (identify_chord_first cfg pitches tab_notes r "minor" [0; 3; 7])];
    rewrite Hpc; clear Hpc Hr;
    repeat (destruct Hcases as [->|Hcases]; [vm_compute; reflexivity|]);
    subst r; vm_compute; reflexivity.
Qed.

Lemma triads_are_identified_witness :
  0 <= 0 < 12
  /\ (pitch_classes_of [60; 64; 67] = {[ 0; (0 + 4) mod 12; (0 + 7) mod 12 ]} ->
      exists chord_info,
        MidiToTab._identify_chord [60; 64; 67] [] = Ok (Some chord_info)
        /\ index MidiToTab.note_names 0 = Ok (MidiToTab.root chord_info)
        /\ MidiToTab.type chord_info = "major"%string).
Proof.
  assert (Hr : 0 <= 0 < 12) by lia.
  split; [exact Hr|].
  exact (proj1 (triads_are_identified_on_their_root MidiToTab.default_config
                  [60; 64; 67] [] 0 Hr)).
Defined.

End Triads.

(** ** The text lines of a measure *)

Section TabLines.

Import Py MidiToTab TabText.

Lemma string_length_app (s t : String.string) :
  String.length (s +:+ t) = (String.length s + String.length t)%nat.
Proof. induction s as [|c s IH]; simpl; [reflexivity|]. now rewrite IH. Qed.

Lemma str_mul_length (n : nat) : String.length (str_mul "-" n) = n.
Proof. induction n as [|n IH]; simpl; [reflexivity|]. f_equal. exact IH. Qed.

Lemma concat_length (sep : String.string) (l : list String.string) :
  String.length (String.concat sep l)
  = (list_sum (map String.length l) + String.length sep * (length l - 1))%nat.
Proof.
  induction l as [|x l IH]; simpl; [lia|].
  destruct l as [|y l]; [simpl; lia|].
  rewrite !string_length_app, IH. simpl. lia.
Qed.

Lemma enumerate_from_map {A B} (g : Z -> A -> B) (start : Z) (l : list A) :
  enumerate_from start (map (fun '(i, x) => g i x) (enumerate_from start l))
  = map (fun '(i, x) => (i, g i x)) (enumerate_from start l).
Proof.
  revert start; induction l as [|x l IH]; intros start; simpl; [reflexivity|].
  now rewrite IH.
Qed.

Lemma enumerate_from_app_nil {A} (start : Z) (l : list (list A)) :
  map (fun '(_, x) => x ++ []) (enumerate_from start l) = l.
Proof.
  revert start; induction l as [|x l IH]; intros start; simpl; [reflexivity|].
  now rewrite app_nil_r, IH.
Qed.

(** The nested loop leaves on line [string_idx] the cells of the notes in
    their order. *)
Lemma tab_lines_rows (notes : list TabNote) (tab_lines : list (list String.string)) :
  foldl (fun tab_lines note =>
           map (fun '(string_idx, line) => line ++ [cell note string_idx])
               (enumerate tab_lines))
        tab_lines notes
  = map (fun '(string_idx, line) =>
           line ++ map (fun note => cell note string_idx) notes)
        (enumerate tab_lines).
Proof.
  revert tab_lines; induction notes as [|n notes IH]; intros tab_lines; simpl.
  - symmetry. apply enumerate_from_app_nil.
  - rewrite IH. unfold enumerate. rewrite enumerate_from_map.
    rewrite map_map. apply map_ext. intros [i x]. now rewrite <- app_assoc.
Qed.

Lemma cell_length (note : TabNote) (string_idx : Z) :
  technique note = NORMAL ->
  String.length (cell note string_idx) = String.length (pretty (fret note)).
Proof.
  intros Hn. unfold cell. destruct (string_idx + 1 =? string note).
  - now rewrite Hn.
  - apply str_mul_length.
Qed.

Lemma list_sum_perm (l l' : list nat) :
  Permutation l l' -> list_sum l = list_sum l'.
Proof. induction 1; simpl; lia. Qed.

Lemma line_width_perm (l l' : list TabNote) :
  Permutation l l' -> line_width l = line_width l'.
Proof.
  intros Hp. unfold line_width.
  rewrite (Permutation_length Hp).
  now rewrite (list_sum_perm _ _ (Permutation_map _ Hp)).
Qed.

(** [get_tab_strings] returns one line per string, and when no note of
    the measure carries a technique all lines have the same width: the
    fret texts of the notes with one dash between neighbours, so the
    columns of the tablature line up. *)
Theorem plain_measure_lines_are_aligned
    (m : TabMeasure) (string_count : Z)
    (Hplain : Forall (fun n => technique n = NORMAL) (notes m)) :
  length (get_tab_strings m string_count) = Z.to_nat string_count
  /\ Forall (fun line => String.length line = line_width (notes m))
            (get_tab_strings m string_count).
Proof.
  unfold get_tab_strings. rewrite tab_lines_rows.
  split.
  - rewrite !length_map. unfold enumerate.
    generalize 0. induction (Z.to_nat string_count) as [|k IH]; intros s; simpl;
      [reflexivity|]. now rewrite IH.
  - rewrite <- (line_width_perm _ _ (sorted_perm start_time (notes m))).
    assert (Hs : Forall (fun n => technique n = NORMAL)
                        (sorted start_time (notes m))).
    { apply List.Forall_forall. intros n Hin.
      apply (proj1 (List.Forall_forall _ _) Hplain).
      now apply (Permutation_in _ (sorted_perm start_time (notes m))). }
    set (ns := sorted start_time (notes m)) in *. clearbody ns.
    apply List.Forall_forall. intros line Hin.
    apply in_map_iff in Hin as [row [<- Hin]].
    apply in_map_iff in Hin as [[i x] [<- Hin]].
    assert (x = []) as ->.
    { unfold enumerate in Hin. revert Hin. generalize 0.
      induction (Z.to_nat string_count) as [|k IH]; intros s; simpl; [tauto|].
      intros [Heq | Hin]; [congruence | now apply (IH (s + 1))]. }
    simpl.
    assert (Hlen : map String.length (map (fun note => cell note i) ns)
                   = map (fun n => String.length (pretty (fret n))) ns).
    { rewrite map_map. induction Hs as [|n ns Hn Hs IH]; simpl; [reflexivity|].
      now rewrite cell_length, IH. }
    destruct (map (fun note => cell note i) ns) as [|c cs] eqn:E.
    + destruct ns; [reflexivity | discriminate].
    + assert (Hl : length (c :: cs) = length ns)
        by (rewrite <- E; apply length_map).
      rewrite concat_length, Hlen, Hl. unfold line_width.
      change (String.length "-") with 1%nat. lia.
Qed.

Lemma plain_measure_lines_witness :
  length (get_tab_strings
            (measure_of 1 [tab_note 6 0 0 (1 # 2) 80; tab_note 5 12 1 (1 # 2) 80;
                           tab_note 1 3 (1 # 2) 1 80]) 6) = 6%nat
  /\ Forall (fun line => String.length line = 6%nat)
            (get_tab_strings
               (measure_of 1 [tab_note 6 0 0 (1 # 2) 80; tab_note 5 12 1 (1 # 2) 80;
                              tab_note 1 3 (1 # 2) 1 80]) 6).
Proof.
  apply (plain_measure_lines_are_aligned
           (measure_of 1 [tab_note 6 0 0 (1 # 2) 80; tab_note 5 12 1 (1 # 2) 80;
                          tab_note 1 3 (1 # 2) 1 80]) 6).
  repeat constructor.
Defined.

End TabLines.

(** ** TabConverter: difficulty and selection of a position *)

Section TabConvSelection.

Import Py.

Lemma inject_Z_pos (z : Z) : 0 < z -> (0 < inject_Z z)%Q.
Proof. intros H. rewrite Zlt_Qlt in H. exact H. Qed.

Lemma inject_Z_nonneg (z : Z) : 0 <= z -> (0 <= inject_Z z)%Q.
Proof. intros H. rewrite Zle_Qle in H. exact H. Qed.

(** [_calculate_difficulty] is 0 on an open string, and on a fretted
    position (a fret above 0) it is positive and at most 1, as its
    docstring announces. *)
Theorem difficulty_is_between_0_and_1 (string fret : Z) (Hfret : 0 <= fret) :
  (fret = 0 -> TabConv._calculate_difficulty string fret = 0%Q)
  /\ (0 < fret ->
      (0 < TabConv._calculate_difficulty string fret)%Q
      /\ (TabConv._calculate_difficulty string fret <= 1)%Q).
Proof.
  unfold TabConv._calculate_difficulty. split.
  - intros ->. reflexivity.
  - intros Hpos. destruct (fret =? 0) eqn:E0; [lia|].
    pose proof (inject_Z_pos fret Hpos) as Hf.
    assert (H12 : (12 <? fret) = true -> (0 <= inject_Z (fret - 12))%Q).
    { intros H. apply inject_Z_nonneg. lia. }
    set (a := inject_Z fret) in *. set (b := inject_Z (fret - 12)) in *.
    clearbody a b.
    change (a / 24)%Q with (a * (1 # 24))%Q.
    change (b / 12)%Q with (b * (1 # 12))%Q.
    destruct (12 <? fret); [specialize (H12 eq_refl)|clear H12];
      destruct ((string =? 1) || (string =? 6));
      destruct ((string <=? 3) && (15 <? fret));
      match goal with
      | |- context [Qlt_bool 1 ?d] =>
        destruct (Qlt_bool 1 d) eqn:E;
          [split; [reflexivity|apply Qle_refl]
          |apply Qlt_bool_false_iff in E; split; [lra|exact E]]
      end.
Qed.

Lemma difficulty_is_between_0_and_1_witness :
  (0 < TabConv._calculate_difficulty 6 24)%Q
  /\ (TabConv._calculate_difficulty 6 24 <= 1)%Q.
Proof.
  apply (difficulty_is_between_0_and_1 6 24); lia.
Defined.

(** Among several candidates [_select_optimal_position] returns one
    whose score is the highest. *)
Theorem select_optimal_position_maximises_score
    (config : TabConv.TabConfiguration)
    (positions : list TabConv.PositionDict) (previous_notes : list TabConv.GuitarNote)
    (Hne : positions <> []) :
  exists pos,
    TabConv._select_optimal_position config positions previous_notes = Some pos
    /\ In pos positions
    /\ forall p, In p positions ->
         (TabConv.position_score config previous_notes p
          <= TabConv.position_score config previous_notes pos)%Q.
Proof.
  unfold TabConv._select_optimal_position.
  destruct positions as [|p0 [|p1 ps]]; [congruence| |].
  - exists p0. split; [reflexivity|]. split; [now left|].
    intros p [<-|[]]. apply Qle_refl.
  - set (scored := map _ (p0 :: p1 :: ps)).
    pose proof (sorted_perm (fun x : Q * TabConv.PositionDict => (- fst x)%Q) scored) as Hperm.
    pose proof (sorted_sorted (fun x : Q * TabConv.PositionDict => (- fst x)%Q) scored) as Hsort.
    destruct (sorted _ scored) as [|best l] eqn:Es.
    + apply Permutation_nil in Hperm. discriminate.
    + exists (snd best). split; [reflexivity|].
      assert (Hin : In best scored).
      { eapply Permutation_in; [exact Hperm|now left]. }
      assert (Hbest : fst best = TabConv.position_score config previous_notes (snd best)).
      { subst scored. apply in_map_iff in Hin as (q & <- & _). reflexivity. }
      split.
      * subst scored. apply in_map_iff in Hin as (q & <- & Hq). exact Hq.
      * intros p Hp.
        assert (Hp' : In (TabConv.position_score config previous_notes p, p) (best :: l)).
        { eapply Permutation_in; [symmetry; exact Hperm|].
          subst scored. apply in_map_iff. exists p. auto. }
        apply StronglySorted_inv in Hsort as [_ Hall].
        destruct Hp' as [Heq|Hp']; [subst best; apply Qle_refl|].
        apply (proj1 (List.Forall_forall _ _) Hall) in Hp'.
        unfold key_le in Hp'. simpl in Hp'. rewrite <- Hbest. lra.
Qed.

Lemma select_optimal_position_maximises_score_witness :
  exists pos,
    TabConv._select_optimal_position TabConv.default_configuration
      (TabConv.compute_positions TabConv.default_configuration 64) [] = Some pos
    /\ TabConv.pos_string pos = 6.
Proof.
  destruct (select_optimal_position_maximises_score TabConv.default_configuration
              (TabConv.compute_positions TabConv.default_configuration 64) [])
    as (pos & Hsel & _); [vm_compute; discriminate|].
  exists pos. split; [exact Hsel|].
  vm_compute in Hsel. injection Hsel as <-. reflexivity.
Defined.

End TabConvSelection.

(** ** TabConverter: the groups of the fingering optimization *)

Section TabConvProximity.

Import Py.

Variable notes : list TabConv.GuitarNote.

Lemma sorted_refs_valid {A} (key : A -> Q) (store : list A) (i : nat) :
  In i (sorted_refs key store) -> exists a, store !! i = Some a.
Proof.
  intros Hin. unfold sorted_refs in Hin.
  apply (Permutation_in _ (sorted_perm _ _)) in Hin.
  apply in_seq in Hin. apply lookup_lt_is_Some_2. lia.
Qed.

(** The groups already closed do not influence the loop. *)
Lemma proximity_loop_acc (threshold : Q) (refs : list nat) :
  forall groups current_group,
    TabConv.proximity_loop threshold notes refs groups current_group
    = (groups ++ fst (TabConv.proximity_loop threshold notes refs [] current_group),
       snd (TabConv.proximity_loop threshold notes refs [] current_group)).
Proof.
  induction refs as [|i rest IH]; intros groups cur; simpl.
  - now rewrite app_nil_r.
  - destruct (notes !! i) as [note|]; [|apply IH].
    destruct (last cur ≫= (notes !!.)) as [last_note|]; [|apply IH].
    destruct (Qle_bool _ _); [apply IH|].
    rewrite (IH (groups ++ [cur])), (IH ([] ++ [cur])). simpl.
    now rewrite <- app_assoc.
Qed.

Lemma chained_snoc (g : list nat) (l i : nat) :
  chained notes g -> last g = Some l -> close_in_time notes l i ->
  chained notes (g ++ [i]).
Proof.
  intros Hc Hl Hclose k a b Ha Hb.
  destruct (decide (S k < length g)%nat) as [Hlt|Hge].
  - rewrite lookup_app_l in Ha by lia. rewrite lookup_app_l in Hb by lia.
    now apply (Hc k).
  - assert (Hk : S k = length g).
    { apply lookup_lt_Some in Hb. rewrite length_app in Hb. simpl in Hb. lia. }
    rewrite lookup_app_l in Ha by lia.
    rewrite lookup_app_r in Hb by lia.
    rewrite Hk, Nat.sub_diag in Hb. injection Hb as <-.
    rewrite last_lookup in Hl.
    replace (Nat.pred (length g)) with k in Hl by lia.
    rewrite Hl in Ha. injection Ha as <-. exact Hclose.
Qed.

Lemma chained_singleton (i : nat) : chained notes [i].
Proof. intros k a b Ha Hb. destruct k; discriminate. Qed.

Lemma proximity_loop_spec (refs : list nat) :
  forall current_group,
    current_group <> [] ->
    chained notes current_group ->
    Forall (fun i => exists a, notes !! i = Some a) (current_group ++ refs) ->
    let '(groups, last_group) :=
      TabConv.proximity_loop (5 # 10) notes refs [] current_group in
    proximity_groups notes (groups ++ [last_group])
    /\ concat (groups ++ [last_group]) = current_group ++ refs
    /\ exists tail, head (groups ++ [last_group]) = Some (current_group ++ tail).
Proof.
  induction refs as [|i rest IH]; intros cur Hne Hc Hval; simpl.
  - rewrite !app_nil_r. split; [now constructor|]. split; [reflexivity|].
    exists []. now rewrite app_nil_r.
  - assert (Hi : exists a, notes !! i = Some a).
    { apply (proj1 (List.Forall_forall _ _) Hval). apply in_app_iff. right. now left. }
    destruct Hi as [note Hi]. rewrite Hi.
    destruct (last cur) as [l|] eqn:El; [|now apply last_None in El].
    assert (Hl : exists a, notes !! l = Some a).
    { apply (proj1 (List.Forall_forall _ _) Hval). apply in_app_iff. left.
      apply list_elem_of_In. rewrite last_lookup in El.
      now apply list_elem_of_lookup_2 in El. }
    destruct Hl as [last_note Hl]. simpl. rewrite Hl.
    destruct (Qle_bool _ _) eqn:Eq.
    + assert (Hclose : close_in_time notes l i).
      { exists last_note, note. repeat split; try assumption.
        apply Qle_bool_iff in Eq. exact Eq. }
      specialize (IH (cur ++ [i])).
      destruct (TabConv.proximity_loop _ notes rest [] (cur ++ [i])) as [gs lg].
      destruct IH as (Hg & Hcat & tail & Hhead).
      * now destruct cur.
      * now apply (chained_snoc cur l i).
      * now rewrite <- app_assoc.
      * split; [exact Hg|]. split; [now rewrite Hcat, <- app_assoc|].
        exists (i :: tail). now rewrite Hhead, <- app_assoc.
    + assert (Hfar : ~ close_in_time notes l i).
      { intros (a & b & Ha & Hb & Hle). rewrite Hl in Ha. rewrite Hi in Hb.
        injection Ha as <-. injection Hb as <-.
        apply Qle_bool_iff in Hle. rewrite Hle in Eq. discriminate. }
      rewrite proximity_loop_acc. simpl.
      specialize (IH [i]).
      destruct (TabConv.proximity_loop _ notes rest [] [i]) as [gs lg].
      destruct IH as (Hg & Hcat & tail & Hhead).
      * discriminate.
      * apply chained_singleton.
      * apply List.Forall_forall. intros x Hx.
        apply (proj1 (List.Forall_forall _ _) Hval). apply in_app_iff. right. exact Hx.
      * simpl. split; [|split].
        -- destruct (gs ++ [lg]) as [|g2 gs'] eqn:Egs; [discriminate|].
           simpl in Hhead. injection Hhead as ->.
           constructor; try assumption.
           intros a b Ha Hb. rewrite El in Ha. injection Ha as <-.
           simpl in Hb. injection Hb as <-. exact Hfar.
        -- now rewrite Hcat.
        -- exists []. now rewrite app_nil_r.
Qed.

(** [_group_by_time_proximity] cuts the notes of a measure, taken in
    the order of their start times, into consecutive groups: the groups
    put end to end are the sorted notes, no group is empty, inside a
    group every note starts at most 0.5 s after the end of the note
    before it, and a group starts with a note that is not. *)
Theorem time_proximity_groups_partition_the_notes :
  concat (TabConv._group_by_time_proximity notes) = sorted_refs TabConv.start_time notes
  /\ proximity_groups notes (TabConv._group_by_time_proximity notes).
Proof.
  unfold TabConv._group_by_time_proximity.
  pose proof (@sorted_refs_valid _ TabConv.start_time notes) as Hval.
  destruct (sorted_refs TabConv.start_time notes) as [|i rest]; simpl.
  - split; [reflexivity|constructor].
  - destruct (Hval i) as [note Hi]; [now left|]. rewrite Hi. simpl.
    pose proof (proximity_loop_spec rest [i]) as Hspec.
    destruct (TabConv.proximity_loop _ notes rest [] [i]) as [gs lg].
    destruct Hspec as (Hg & Hcat & tail & Hhead).
    + discriminate.
    + apply chained_singleton.
    + apply List.Forall_forall. intros x Hx. now apply Hval.
    + assert (Hlg : lg <> []).
      { intros ->. clear -Hg. remember (gs ++ [[]]) as G eqn:EG.
        revert gs EG. induction Hg as [|g Hne|g1 g2 gs' Hne Hc Hb Hg IH]; intros gs0 EG.
        - now destruct gs0.
        - destruct gs0 as [|x [|y gs0]]; simpl in EG; try discriminate.
          injection EG as ->. congruence.
        - destruct gs0 as [|x gs0]; [discriminate|].
          simpl in EG. injection EG as -> EG. now apply (IH gs0). }
      destruct lg as [|x lg]; [congruence|].
      split; [exact Hcat|exact Hg].
Qed.

End TabConvProximity.

Section TabConvChordGroups.

Import Py.

Variable notes : list TabConv.NoteData.

Let chord_group (g : list nat) : Prop := (2 <= length g)%nat /\ simultaneous notes g.

Let open_group (current_group : list nat) (group_start : option Q) : Prop :=
  match group_start with
  | None => current_group = []
  | Some gs =>
    exists i0 first,
      head current_group = Some i0 /\ notes !! i0 = Some first
      /\ gs = TabConv.note_start first
      /\ List.Forall
           (fun i => exists n, notes !! i = Some n
                               /\ (Qabs (TabConv.note_start n - TabConv.note_start first)
                                   <= TabConv.tolerance)%Q)
           current_group
  end.

Lemma open_group_singleton (i : nat) (note : TabConv.NoteData) :
  notes !! i = Some note -> open_group [i] (Some (TabConv.note_start note)).
Proof.
  intros Hi. exists i, note. repeat split; try assumption.
  constructor; [|constructor]. exists note. split; [exact Hi|].
  apply Qabs_case; intros _; unfold TabConv.tolerance; lra.
Qed.

Lemma open_group_closed (current_group : list nat) (group_start : option Q) :
  open_group current_group group_start ->
  (2 <= length current_group)%nat -> chord_group current_group.
Proof.
  intros Ho Hlen. split; [exact Hlen|].
  destruct group_start as [gs|]; simpl in Ho.
  - destruct Ho as (i0 & first & Hh & Hf & _ & Hall). now exists i0, first.
  - subst. simpl in Hlen. lia.
Qed.

Lemma chord_group_loop_spec (refs : list nat) :
  forall chord_groups current_group group_start,
    List.Forall chord_group chord_groups ->
    open_group current_group group_start ->
    List.Forall (fun i => exists n, notes !! i = Some n) refs ->
    let '(chord_groups', current_group') :=
      TabConv.chord_group_loop notes refs chord_groups current_group group_start in
    List.Forall chord_group chord_groups'
    /\ (exists group_start', open_group current_group' group_start')
    /\ sublist (concat chord_groups' ++ current_group')
               (concat chord_groups ++ current_group ++ refs).
Proof.
  induction refs as [|i rest IH]; intros groups cur gs Hg Ho Hval;
    cbn [TabConv.chord_group_loop].
  - rewrite app_nil_r. split; [exact Hg|]. split; [now exists gs|reflexivity].
  - apply List.Forall_cons_iff in Hval as [[note Hi] Hval]. rewrite Hi.
    destruct gs as [gs|].
    + destruct (Qle_bool _ _) eqn:Eq.
      * specialize (IH groups (cur ++ [i]) (Some gs) Hg).
        destruct (TabConv.chord_group_loop notes rest groups (cur ++ [i]) (Some gs))
          as [groups' cur'].
        destruct IH as (Hg' & Ho' & Hsub); [|exact Hval|].
        { destruct Ho as (i0 & first & Hh & Hf & -> & Hall).
          exists i0, first. repeat split; try assumption.
          - destruct cur; [discriminate|exact Hh].
          - apply List.Forall_app. split; [exact Hall|].
            constructor; [|constructor]. exists note. split; [exact Hi|].
            now apply Qle_bool_iff in Eq. }
        split; [exact Hg'|]. split; [exact Ho'|].
        now rewrite <- app_assoc in Hsub.
      * destruct (2 <=? length cur)%nat eqn:El; cbv zeta.
        -- specialize (IH (groups ++ [cur]) [i] (Some (TabConv.note_start note))).
           destruct (TabConv.chord_group_loop notes rest (groups ++ [cur]) [i] _)
             as [groups' cur'].
           destruct IH as (Hg' & Ho' & Hsub); [| |exact Hval|].
           { apply List.Forall_app. split; [exact Hg|].
             constructor; [|constructor].
             apply (open_group_closed cur (Some gs) Ho). now apply Nat.leb_le. }
           { now apply open_group_singleton. }
           split; [exact Hg'|]. split; [exact Ho'|].
           rewrite concat_app in Hsub. simpl in Hsub.
           now rewrite app_nil_r, <- app_assoc in Hsub.
        -- specialize (IH groups [i] (Some (TabConv.note_start note)) Hg).
           destruct (TabConv.chord_group_loop notes rest groups [i] _)
             as [groups' cur'].
           destruct IH as (Hg' & Ho' & Hsub); [|exact Hval|].
           { now apply open_group_singleton. }
           split; [exact Hg'|]. split; [exact Ho'|].
           etransitivity; [exact Hsub|].
           apply sublist_app; [reflexivity|].
           now apply sublist_inserts_l.
    + simpl in Ho. subst cur.
      specialize (IH groups [i] (Some (TabConv.note_start note)) Hg).
      destruct (TabConv.chord_group_loop notes rest groups [i] _) as [groups' cur'].
      destruct IH as (Hg' & Ho' & Hsub); [|exact Hval|].
      { now apply open_group_singleton. }
      split; [exact Hg'|]. split; [exact Ho'|exact Hsub].
Qed.

(** Every group returned by [_detect_chord_groups] has at least two
    notes, all of which start within 50 ms of the first note of the
    group; the groups, in their order, are taken from the notes sorted
    by start time without repeating or reordering any. *)
Theorem chord_groups_are_simultaneous_notes :
  List.Forall (fun g => (2 <= length g)%nat /\ simultaneous notes g)
              (TabConv._detect_chord_groups notes)
  /\ sublist (concat (TabConv._detect_chord_groups notes))
             (sorted_refs TabConv.note_start notes).
Proof.
  unfold TabConv._detect_chord_groups.
  pose proof (chord_group_loop_spec (sorted_refs TabConv.note_start notes) [] [] None)
    as Hspec.
  destruct (TabConv.chord_group_loop notes _ [] [] None) as [groups cur].
  destruct Hspec as (Hg & [gs Ho] & Hsub).
  - constructor.
  - reflexivity.
  - apply List.Forall_forall. intros i Hin. now apply sorted_refs_valid in Hin.
  - simpl in Hsub. destruct (2 <=? length cur)%nat eqn:El.
    + split.
      * apply List.Forall_app. split; [exact Hg|].
        constructor; [|constructor].
        apply (open_group_closed cur gs Ho). now apply Nat.leb_le.
      * rewrite concat_app. simpl. now rewrite app_nil_r.
    + split; [exact Hg|].
      etransitivity; [|exact Hsub]. now apply sublist_inserts_r.
Qed.

End TabConvChordGroups.

(** ** TabConverter: the passes over the notes of a measure *)

Section TabConvPasses.

Import Py.

Variable config : TabConv.TabConfiguration.

Lemma moved_to_candidate_refl (g : TabConv.GuitarNote) : moved_to_candidate config g g.
Proof. now left. Qed.

Lemma moved_to_candidate_trans (g g1 g2 : TabConv.GuitarNote) :
  moved_to_candidate config g g1 -> moved_to_candidate config g1 g2 ->
  moved_to_candidate config g g2.
Proof.
  intros [->|(alt & Hin & ->)] H2; [exact H2|].
  destruct H2 as [->|(alt2 & Hin2 & ->)].
  - right. now exists alt.
  - right. exists alt2. split; [exact Hin2|reflexivity].
Qed.

Lemma Forall2_diag {A} (R : A -> A -> Prop) (l : list A) :
  (forall x, R x x) -> Forall2 R l l.
Proof. intros HR. induction l; constructor; auto. Qed.

Lemma optimize_loop_spec (target_position : Z) (group : list nat) :
  forall (measure_notes : list TabConv.GuitarNote) (st : TabConv.ConverterState),
    cache_ok config st ->
    exists notes' st',
      TabConv.optimize_loop config target_position measure_notes group st
      = Ok (notes', st')
      /\ cache_ok config st' /\ TabConv.log st' = TabConv.log st
      /\ Forall2 (moved_to_candidate config) measure_notes notes'.
Proof.
  induction group as [|i rest IH]; intros notes st Hok; cbn [TabConv.optimize_loop].
  - exists notes, st. repeat split; try assumption.
    apply Forall2_diag, moved_to_candidate_refl.
  - destruct (notes !! i) as [note|] eqn:Ei; [|now apply IH].
    destruct (_ <? _); [|now apply IH].
    destruct (find_positions_cached config st (TabConv.pitch note) Hok)
      as (st1 & Hrun & Hok1 & Hlog1).
    unfold mbind, TabConv.M_bind. rewrite Hrun.
    destruct (List.find _ _) as [alt|] eqn:Ef.
    + apply find_some in Ef as [Hin _].
      destruct (IH (<[i := TabConv.set_position alt note]> notes) st1 Hok1)
        as (notes' & st' & Hrun' & Hok' & Hlog' & Hall).
      exists notes', st'. split; [exact Hrun'|]. split; [exact Hok'|].
      split; [congruence|].
      eapply Forall2_trans; [apply moved_to_candidate_trans| |exact Hall].
      rewrite <- (list_insert_id notes i note Ei) at 1.
      apply Forall2_insert; [apply Forall2_diag, moved_to_candidate_refl|].
      right. now exists alt.
    + destruct (IH notes st1 Hok1) as (notes' & st' & Hrun' & Hok' & Hlog' & Hall).
      exists notes', st'. split; [exact Hrun'|]. split; [exact Hok'|].
      split; [congruence|exact Hall].
Qed.

Lemma optimize_group_fingering_spec (measure_notes : list TabConv.GuitarNote)
    (group : list nat) (st : TabConv.ConverterState) :
  cache_ok config st -> group <> [] ->
  exists notes' st',
    TabConv._optimize_group_fingering config measure_notes group st = Ok (notes', st')
    /\ cache_ok config st' /\ TabConv.log st' = TabConv.log st
    /\ Forall2 (moved_to_candidate config) measure_notes notes'.
Proof.
  intros Hok Hne. unfold TabConv._optimize_group_fingering.
  rewrite truediv_nonzero.
  - unfold mbind, TabConv.M_bind, TabConv.lift. now apply optimize_loop_spec.
  - intros H. destruct group as [|i rest]; [congruence|].
    unfold Qeq in H. simpl in H. lia.
Qed.

Lemma optimize_groups_spec (note_groups : list (list nat)) :
  forall (measure_notes : list TabConv.GuitarNote) (st : TabConv.ConverterState),
    cache_ok config st ->
    exists notes' st',
      TabConv.optimize_groups config measure_notes note_groups st = Ok (notes', st')
      /\ cache_ok config st' /\ TabConv.log st' = TabConv.log st
      /\ Forall2 (moved_to_candidate config) measure_notes notes'.
Proof.
  induction note_groups as [|group rest IH]; intros notes st Hok;
    cbn [TabConv.optimize_groups].
  - exists notes, st. repeat split; try assumption.
    apply Forall2_diag, moved_to_candidate_refl.
  - assert (H1 : exists notes1 st1,
               (if (1 <? length group)%nat
                then TabConv._optimize_group_fingering config notes group
                else @mret TabConv.M TabConv.M_ret _ notes) st = Ok (notes1, st1)
               /\ cache_ok config st1 /\ TabConv.log st1 = TabConv.log st
               /\ Forall2 (moved_to_candidate config) notes notes1).
    { destruct (1 <? length group)%nat eqn:El.
      - apply optimize_group_fingering_spec; [exact Hok|].
        intros ->. discriminate.
      - exists notes, st. repeat split; try assumption.
        apply Forall2_diag, moved_to_candidate_refl. }
    destruct H1 as (notes1 & st1 & Hrun1 & Hok1 & Hlog1 & Hall1).
    unfold mbind, TabConv.M_bind. rewrite Hrun1.
    destruct (IH notes1 st1 Hok1) as (notes' & st' & Hrun' & Hok' & Hlog' & Hall').
    exists notes', st'. split; [exact Hrun'|]. split; [exact Hok'|].
    split; [congruence|].
    eapply Forall2_trans; [apply moved_to_candidate_trans|exact Hall1|exact Hall'].
Qed.

Lemma optimize_measure_fingering_spec (measure_notes : list TabConv.GuitarNote)
    (st : TabConv.ConverterState) :
  cache_ok config st ->
  exists notes' st',
    TabConv._optimize_measure_fingering config measure_notes st = Ok (notes', st')
    /\ cache_ok config st' /\ TabConv.log st' = TabConv.log st
    /\ Forall2 (moved_to_candidate config) measure_notes notes'.
Proof.
  intros Hok. unfold TabConv._optimize_measure_fingering.
  destruct (length measure_notes <? 2)%nat.
  - exists measure_notes, st. repeat split; try assumption.
    apply Forall2_diag, moved_to_candidate_refl.
  - now apply optimize_groups_spec.
Qed.

Lemma moved_to_candidate_pitch_preserved (g g' : TabConv.GuitarNote) :
  TabConv.capo_position config = 0 ->
  moved_to_candidate config g g' ->
  pitch_preserved config g -> pitch_preserved config g'.
Proof.
  intros Hcapo [->|(alt & Hin & ->)] Hp; [exact Hp|].
  assert (Hex : exists pos, In pos (TabConv.compute_positions config (TabConv.pitch g))
                            /\ TabConv.pos_string pos = TabConv.pos_string alt
                            /\ TabConv.pos_fret pos = TabConv.pos_fret alt)
    by (exists alt; auto).
  apply compute_positions_spec in Hex as (op & Hs & Hpitch & _).
  exists op. split; [exact Hs|]. simpl. lia.
Qed.

Lemma techniques_extended_refl (g : TabConv.GuitarNote) : techniques_extended g g.
Proof. exists []. destruct g. simpl. now rewrite app_nil_r. Qed.

Lemma techniques_extended_add (ts : list TabConv.PlayingTechnique)
    (g g' : TabConv.GuitarNote) :
  techniques_extended g g' -> techniques_extended g (TabConv.add_techniques ts g').
Proof.
  intros [ts0 ->]. exists (ts0 ++ ts). unfold TabConv.add_techniques. simpl.
  now rewrite app_assoc.
Qed.

Lemma detect_techniques_spec (measure_notes : list TabConv.GuitarNote) :
  Forall2 techniques_extended measure_notes (TabConv._detect_techniques measure_notes).
Proof.
  unfold TabConv._detect_techniques.
  set (refs := sorted_refs TabConv.start_time measure_notes).
  generalize (seq 0 (length refs)). intros ks.
  assert (H0 : Forall2 techniques_extended measure_notes measure_notes)
    by apply Forall2_diag, techniques_extended_refl.
  revert H0. generalize measure_notes at 2 4 as store.
  induction ks as [|k ks IH]; intros store H0; simpl; [exact H0|].
  apply IH.
  destruct (refs !! k ≫= (store !!.)) as [current|]; [|exact H0].
  destruct (refs !! k) as [i|]; [|exact H0].
  apply Forall2_alter_r; [exact H0|].
  intros x y _ _ Hxy. now apply techniques_extended_add.
Qed.

Lemma techniques_extended_pitch_preserved (g g' : TabConv.GuitarNote) :
  techniques_extended g g' -> pitch_preserved config g -> pitch_preserved config g'.
Proof. intros [ts ->] Hp. exact Hp. Qed.

End TabConvPasses.

Section TabConvPassesResults.

Import Py.

(** The fingering optimization of a measure always returns, logs
    nothing, and returns the same notes in the same order, each one
    either untouched or moved to one of the positions that
    [_find_positions] gives for its pitch.  Without a capo a moved note
    therefore still sounds its pitch. *)
Theorem optimization_moves_notes_to_positions_of_their_pitch
    (config : TabConv.TabConfiguration) (measure_notes : list TabConv.GuitarNote)
    (st : TabConv.ConverterState) (Hcache : cache_ok config st) :
  exists notes' st',
    TabConv._optimize_measure_fingering config measure_notes st = Ok (notes', st')
    /\ TabConv.log st' = TabConv.log st
    /\ Forall2 (moved_to_candidate config) measure_notes notes'
    /\ (TabConv.capo_position config = 0 ->
        List.Forall (pitch_preserved config) measure_notes ->
        List.Forall (pitch_preserved config) notes').
Proof.
  destruct (optimize_measure_fingering_spec config measure_notes st Hcache)
    as (notes' & st' & Hrun & _ & Hlog & Hall).
  exists notes', st'. split; [exact Hrun|]. split; [exact Hlog|].
  split; [exact Hall|].
  intros Hcapo Hp. clear Hrun.
  induction Hall as [|g g' l l' Hg Hall IH]; [constructor|].
  apply List.Forall_cons_iff in Hp as [Hp Hps].
  constructor; [|now apply IH].
  now apply (moved_to_candidate_pitch_preserved config g g').
Qed.

Lemma optimization_moves_notes_witness :
  cache_ok TabConv.default_configuration TabConv.new_converter
  /\ exists notes' st',
       TabConv._optimize_measure_fingering TabConv.default_configuration
         [guitar_note 76 6 12 0 (1 # 2) 80; guitar_note 45 2 0 (1 # 2) 1 80]
         TabConv.new_converter = Ok (notes', st')
       /\ length notes' = 2%nat.
Proof.
  split; [apply cache_ok_new|].
  destruct (optimization_moves_notes_to_positions_of_their_pitch
              TabConv.default_configuration
              [guitar_note 76 6 12 0 (1 # 2) 80; guitar_note 45 2 0 (1 # 2) 1 80]
              TabConv.new_converter (cache_ok_new _))
    as (notes' & st' & Hrun & _ & Hall & _).
  exists notes', st'. split; [exact Hrun|].
  symmetry. exact (Forall2_length _ _ _ Hall).
Defined.

(** The technique pass of TabConverter changes nothing of a note but
    its list of techniques, and only appends to that list: the notes
    keep their order, pitch, position, times and velocity. *)
Theorem technique_pass_only_appends_techniques
    (measure_notes : list TabConv.GuitarNote) :
  Forall2 techniques_extended measure_notes (TabConv._detect_techniques measure_notes).
Proof. apply detect_techniques_spec. Qed.

End TabConvPassesResults.

(** ** TabConverter: the whole conversion *)

Section TabConvPipeline.

Import Py.

Variable config : TabConv.TabConfiguration.

Lemma matches_shape_raises (positions shape : list (Z * Z)) (e : exn) :
  TabConv._matches_shape positions shape = Raise e -> e = ValueError.
Proof.
  unfold TabConv._matches_shape. destruct (negb _); [discriminate|].
  destruct (min (List.filter _ (map snd positions))) as [m1|e1] eqn:E1.
  - destruct (min (List.filter _ (map snd shape))) as [m2|e2] eqn:E2.
    + discriminate.
    + cbn. intros [= <-]. unfold min in E2.
      destruct (List.filter _ (map snd shape)); [congruence|discriminate].
  - cbn. intros [= <-]. unfold min in E1.
    destruct (List.filter _ (map snd positions)); [congruence|discriminate].
Qed.

Lemma detect_in_shapes_raises (positions : list (Z * Z))
    (shapes : list (String.string * list (Z * Z))) (e : exn) :
  TabConv.detect_in_shapes positions shapes = Raise e -> e = ValueError.
Proof.
  induction shapes as [|[name shape] rest IH]; simpl; [discriminate|].
  destruct (TabConv._matches_shape positions shape) as [b|e'] eqn:Em.
  - cbn. destruct b; [discriminate|exact IH].
  - cbn. intros [= <-]. now apply matches_shape_raises in Em.
Qed.

Lemma detect_chord_shape_raises (notes : list TabConv.GuitarNote) (e : exn) :
  TabConv.detect_chord_shape notes = Raise e -> e = ValueError.
Proof.
  unfold TabConv.detect_chord_shape. destruct (_ <? _)%nat; [discriminate|].
  apply detect_in_shapes_raises.
Qed.

Lemma temp_notes_of_spec (notes : list TabConv.NoteData) (chord_notes : list nat) :
  forall st, cache_ok config st ->
    exists temp_notes st',
      TabConv.temp_notes_of config notes chord_notes st = Ok (temp_notes, st')
      /\ cache_ok config st'.
Proof.
  induction chord_notes as [|i rest IH]; intros st Hok; cbn [TabConv.temp_notes_of].
  - now exists [], st.
  - destruct (notes !! i) as [note|]; [|now apply IH].
    destruct (find_positions_cached config st (TabConv.note_pitch note) Hok)
      as (st1 & Hrun & Hok1 & _).
    unfold mbind, TabConv.M_bind. rewrite Hrun.
    destruct (IH st1 Hok1) as (tn & st2 & Hrun2 & Hok2). rewrite Hrun2.
    destruct (TabConv.compute_positions config (TabConv.note_pitch note));
      eexists _, _; split; try reflexivity; exact Hok2.
Qed.

Lemma map_alter_same {A B} (g : A -> B) (f : A -> A) (i : nat) (l : list A) :
  (forall x, g (f x) = g x) -> map g (alter f i l) = map g l.
Proof.
  intros Hf. revert i. induction l as [|x l IH]; intros [|i]; simpl; try reflexivity.
  - now rewrite Hf.
  - f_equal. apply IH.
Qed.

Lemma assign_chord_fingerings_spec (notes : list TabConv.NoteData)
    (chord_notes : list nat) (st : TabConv.ConverterState) :
  cache_ok config st ->
  match TabConv._assign_chord_fingerings config notes chord_notes st with
  | Ok (notes', st') =>
    cache_ok config st'
    /\ map TabConv.note_pitch notes' = map TabConv.note_pitch notes
  | Raise e => e = ValueError
  end.
Proof.
  intros Hok. unfold TabConv._assign_chord_fingerings.
  destruct (temp_notes_of_spec notes chord_notes st Hok) as (tn & st1 & Hrun & Hok1).
  unfold mbind, TabConv.M_bind. rewrite Hrun. unfold TabConv.lift.
  destruct (TabConv.detect_chord_shape tn) as [[chord_shape|]|e] eqn:Ed.
  - destruct (String.eqb chord_shape ""); [now split|].
    unfold TabConv.logger, mret, TabConv.M_ret. split.
    + intros p ps. simpl. apply Hok1.
    + clear. revert notes. induction chord_notes as [|i rest IH]; intros notes; simpl;
        [reflexivity|].
      rewrite IH. now apply map_alter_same.
  - now split.
  - now apply detect_chord_shape_raises in Ed.
Qed.

Lemma assign_all_spec (chord_groups : list (list nat)) :
  forall (notes : list TabConv.NoteData) (st : TabConv.ConverterState),
    cache_ok config st ->
    match TabConv.assign_all config notes chord_groups st with
    | Ok (notes', st') =>
      cache_ok config st'
      /\ map TabConv.note_pitch notes' = map TabConv.note_pitch notes
    | Raise e => e = ValueError
    end.
Proof.
  induction chord_groups as [|group rest IH]; intros notes st Hok;
    cbn [TabConv.assign_all].
  - now split.
  - pose proof (assign_chord_fingerings_spec notes group st Hok) as H1.
    unfold mbind, TabConv.M_bind.
    destruct (TabConv._assign_chord_fingerings config notes group st)
      as [[notes1 st1]|e]; [|exact H1].
    destruct H1 as [Hok1 Hp1].
    pose proof (IH notes1 st1 Hok1) as H2.
    destruct (TabConv.assign_all config notes1 rest st1) as [[notes2 st2]|e];
      [|exact H2].
    destruct H2 as [Hok2 Hp2]. split; [exact Hok2|congruence].
Qed.

Lemma passes_filters_pitch (n n' : TabConv.NoteData) :
  TabConv.note_pitch n' = TabConv.note_pitch n ->
  passes_filters config n' = passes_filters config n.
Proof. intros H. unfold passes_filters, kept_positions. now rewrite H. Qed.

Lemma passing_notes_pitch (l l' : list TabConv.NoteData) :
  map TabConv.note_pitch l' = map TabConv.note_pitch l ->
  length (List.filter (passes_filters config) l')
  = length (List.filter (passes_filters config) l).
Proof.
  revert l'. induction l as [|n l IH]; intros [|n' l'] H; try discriminate;
    [reflexivity|].
  simpl in H. injection H as Hn Hl. simpl.
  rewrite (passes_filters_pitch n n' Hn).
  destruct (passes_filters config n); simpl; now rewrite (IH l' Hl).
Qed.

Lemma passing_notes_perm (l l' : list TabConv.NoteData) :
  Permutation l l' ->
  length (List.filter (passes_filters config) l)
  = length (List.filter (passes_filters config) l').
Proof.
  induction 1 as [|x l l' _ IH|x y l|l l' l'' _ IH1 _ IH2]; simpl.
  - reflexivity.
  - destruct (passes_filters config x); simpl; now rewrite IH.
  - destruct (passes_filters config x), (passes_filters config y); reflexivity.
  - congruence.
Qed.

Lemma bound_to_kept_pitch_preserved (n : TabConv.NoteData) (g : TabConv.GuitarNote) :
  bound_to_kept config n g -> pitch_preserved config g.
Proof.
  intros (pos & Hin & ->).
  unfold kept_positions, TabConv._filter_positions in Hin.
  apply filter_In in Hin as [Hin _].
  assert (Hex : exists pos', In pos' (TabConv.compute_positions config
                               (TabConv.note_pitch n - TabConv.capo_position config))
                             /\ TabConv.pos_string pos' = TabConv.pos_string pos
                             /\ TabConv.pos_fret pos' = TabConv.pos_fret pos)
    by (exists pos; auto).
  apply compute_positions_spec in Hex as (op & Hs & Hp & _).
  exists op. split; [exact Hs|]. simpl. lia.
Qed.

(** The state of a measure: how many notes it holds and whether they
    sound their pitches. *)
Let measure_ok (measure_notes : list TabConv.NoteData) (tab_notes : list TabConv.GuitarNote)
    : Prop :=
  length tab_notes = length (List.filter (passes_filters config) measure_notes)
  /\ (TabConv.capo_position config = 0 \/ TabConv.optimize_fingering config = false ->
      List.Forall (pitch_preserved config) tab_notes)
  /\ List.Forall no_chord_shape tab_notes.

Lemma convert_measure_spec (time_signature : Z * Z) (tempo : Q) (measure_num : Z)
    (measure_notes : list TabConv.NoteData) (st : TabConv.ConverterState) :
  cache_ok config st ->
  match TabConv.convert_measure config time_signature tempo measure_num measure_notes st with
  | Ok (m, st') =>
    cache_ok config st'
    /\ TabConv.number m = measure_num + 1
    /\ measure_ok measure_notes (TabConv.notes m)
  | Raise e => e = ValueError /\ TabConv.detect_chords config = true
  end.
Proof.
  intros Hok. unfold TabConv.convert_measure.
  assert (H1 : match (if TabConv.detect_chords config
                      then TabConv.assign_all config measure_notes
                             (TabConv._detect_chord_groups measure_notes)
                      else @mret TabConv.M TabConv.M_ret _ measure_notes) st with
               | Ok (notes', st') =>
                 cache_ok config st'
                 /\ map TabConv.note_pitch notes' = map TabConv.note_pitch measure_notes
               | Raise e => e = ValueError /\ TabConv.detect_chords config = true
               end).
  { destruct (TabConv.detect_chords config).
    - pose proof (assign_all_spec (TabConv._detect_chord_groups measure_notes)
                    measure_notes st Hok) as H.
      destruct (TabConv.assign_all config measure_notes _ st) as [[n1 s1]|e]; auto.
    - now split. }
  unfold mbind at 1, TabConv.M_bind at 1.
  match type of H1 with
  | match ?r with _ => _ end => destruct r as [[notes1 st1]|e]
  end; [|exact H1].
  destruct H1 as [Hok1 Hp1].
  destruct (convert_notes_spec config notes1 [] st1 Hok1)
    as (new & st2 & Hrun2 & Hok2 & _ & Hall2).
  rewrite app_nil_l in Hrun2.
  unfold mbind at 1, TabConv.M_bind at 1. rewrite Hrun2.
  assert (Hnew : length new = length (List.filter (passes_filters config) measure_notes)).
  { rewrite <- (Forall2_length _ _ _ Hall2). now apply passing_notes_pitch. }
  assert (Hpp : List.Forall (pitch_preserved config) new).
  { clear -Hall2. induction Hall2 as [|n g l l' Hb _ IH]; constructor; [|exact IH].
    now apply (bound_to_kept_pitch_preserved n). }
  assert (Hns : List.Forall no_chord_shape new).
  { clear -Hall2. induction Hall2 as [|n g l l' Hb _ IH]; constructor; [|exact IH].
    destruct Hb as (pos & _ & ->). now split. }
  assert (H3 : exists notes3 st3,
               (if TabConv.optimize_fingering config
                then TabConv._optimize_measure_fingering config new
                else @mret TabConv.M TabConv.M_ret _ new) st2 = Ok (notes3, st3)
               /\ cache_ok config st3
               /\ length notes3 = length new
               /\ (TabConv.capo_position config = 0
                   \/ TabConv.optimize_fingering config = false ->
                   List.Forall (pitch_preserved config) notes3)
               /\ List.Forall no_chord_shape notes3).
  { destruct (TabConv.optimize_fingering config) eqn:Eo.
    - destruct (optimize_measure_fingering_spec config new st2 Hok2)
        as (notes3 & st3 & Hrun3 & Hok3 & _ & Hall3).
      exists notes3, st3. split; [exact Hrun3|]. split; [exact Hok3|].
      split; [symmetry; exact (Forall2_length _ _ _ Hall3)|].
      split.
      + intros [Hcapo|?]; [|discriminate].
        clear -Hcapo Hall3 Hpp.
        induction Hall3 as [|g g' l l' Hg _ IH]; [constructor|].
        apply List.Forall_cons_iff in Hpp as [Hp Hps].
        constructor; [|now apply IH].
        now apply (moved_to_candidate_pitch_preserved config g g').
      + clear -Hall3 Hns.
        induction Hall3 as [|g g' l l' Hg _ IH]; [constructor|].
        apply List.Forall_cons_iff in Hns as [Hn Hnss].
        constructor; [|now apply IH].
        destruct Hg as [->|(alt & _ & ->)]; [exact Hn|exact Hn].
    - exists new, st2. repeat split; try assumption. intros _. exact Hpp. }
  destruct H3 as (notes3 & st3 & Hrun3 & Hok3 & Hlen3 & Hpp3 & Hns3).
  unfold mbind at 1, TabConv.M_bind at 1. rewrite Hrun3.
  unfold mret, TabConv.M_ret. cbn [TabConv.number TabConv.notes].
  split; [exact Hok3|]. split; [reflexivity|].
  destruct (TabConv.include_techniques config).
  - pose proof (detect_techniques_spec notes3) as Hall4. split; [|split].
    + rewrite <- (Forall2_length _ _ _ Hall4). congruence.
    + intros Hc. specialize (Hpp3 Hc). clear -Hall4 Hpp3.
      induction Hall4 as [|g g' l l' Hg _ IH]; [constructor|].
      apply List.Forall_cons_iff in Hpp3 as [Hp Hps].
      constructor; [|now apply IH].
      now apply (techniques_extended_pitch_preserved config g g').
    + clear -Hall4 Hns3.
      induction Hall4 as [|g g' l l' Hg _ IH]; [constructor|].
      apply List.Forall_cons_iff in Hns3 as [Hn Hnss].
      constructor; [|now apply IH].
      destruct Hg as [ts ->]. exact Hn.
  - split; [congruence|]. split; [exact Hpp3|exact Hns3].
Qed.

Lemma convert_measures_spec (time_signature : Z * Z) (tempo : Q)
    (measures : list (list TabConv.NoteData)) :
  forall (start : Z) (st : TabConv.ConverterState),
    cache_ok config st ->
    match TabConv.convert_measures config time_signature tempo
            (enumerate_from start measures) st with
    | Ok (tab_measures, st') =>
      cache_ok config st'
      /\ map TabConv.number tab_measures
         = map (fun k => start + 1 + Z.of_nat k) (seq 0 (length measures))
      /\ Forall2 measure_ok measures (map TabConv.notes tab_measures)
    | Raise e => e = ValueError /\ TabConv.detect_chords config = true
    end.
Proof.
  induction measures as [|group rest IH]; intros start st Hok;
    cbn [enumerate_from TabConv.convert_measures].
  - split; [exact Hok|]. split; [reflexivity|constructor].
  - pose proof (convert_measure_spec time_signature tempo start group st Hok) as H1.
    unfold mbind at 1, TabConv.M_bind at 1.
    destruct (TabConv.convert_measure config time_signature tempo start group st)
      as [[m st1]|e]; [|exact H1].
    destruct H1 as (Hok1 & Hnum & Hm).
    pose proof (IH (start + 1) st1 Hok1) as H2.
    unfold mbind at 1, TabConv.M_bind at 1.
    destruct (TabConv.convert_measures config time_signature tempo
                (enumerate_from (start + 1) rest) st1) as [[ms st2]|e]; [|exact H2].
    destruct H2 as (Hok2 & Hnums & Hms).
    unfold mret, TabConv.M_ret. split; [exact Hok2|]. split.
    + simpl. rewrite Hnum, Hnums. f_equal; [lia|].
      rewrite <- seq_shift, map_map. apply map_ext. intros k. lia.
    + simpl. constructor; assumption.
Qed.

Lemma measures_ok_count (measures : list (list TabConv.NoteData))
    (tab_notes : list (list TabConv.GuitarNote)) :
  Forall2 measure_ok measures tab_notes ->
  length (concat tab_notes)
  = length (List.filter (passes_filters config) (concat measures))
  /\ (TabConv.capo_position config = 0 \/ TabConv.optimize_fingering config = false ->
      List.Forall (List.Forall (pitch_preserved config)) tab_notes)
  /\ List.Forall (List.Forall no_chord_shape) tab_notes.
Proof.
  induction 1 as [|g t gs ts (Hlen & Hpp & Hns) _ (IHlen & IHpp & IHns)]; simpl.
  - split; [reflexivity|]. split; constructor.
  - split; [|split].
    + rewrite length_app, List.filter_app, length_app. congruence.
    + intros Hc. constructor; auto.
    + constructor; auto.
Qed.

(** The outcome of [TabConverter.convert_midi_to_tab].  It raises
    ZeroDivisionError exactly when the tempo is 0 and there is a note,
    and otherwise can only fail with the ValueError of the chord shape
    detection, which needs [detect_chords].  When it returns, the
    measures are numbered 1, 2, ... in order, they hold as many notes
    as input notes have a position that passes the filters, and, without
    a capo or without the fingering optimization, every returned note
    sounds its pitch on its string and fret. *)
Theorem tabconverter_outcome
    (midi_notes : list TabConv.NoteData) (time_signature : Z * Z) (tempo : Q)
    (st : TabConv.ConverterState) (Hcache : cache_ok config st) :
  match TabConv.convert_midi_to_tab config midi_notes time_signature tempo st with
  | Ok (tab_measures, _) =>
    (midi_notes = [] \/ ~ (tempo == 0)%Q)
    /\ map TabConv.number tab_measures
       = map Z.of_nat (seq 1 (length tab_measures))
    /\ length (concat (map TabConv.notes tab_measures))
       = length (List.filter (passes_filters config) midi_notes)
    /\ (TabConv.capo_position config = 0 \/ TabConv.optimize_fingering config = false ->
        List.Forall (fun m => List.Forall (pitch_preserved config) (TabConv.notes m))
                    tab_measures)
  | Raise e =>
    (e = ZeroDivisionError /\ midi_notes <> [] /\ (tempo == 0)%Q)
    \/ (e = ValueError /\ TabConv.detect_chords config = true /\ ~ (tempo == 0)%Q)
  end.
Proof.
  unfold TabConv.convert_midi_to_tab.
  destruct (Qeq_dec tempo 0) as [Hz|Hnz].
  - destruct midi_notes as [|n rest].
    + cbn. split; [now left|]. repeat split; constructor.
    + unfold TabConv._group_into_measures, truediv.
      apply Qeq_bool_iff in Hz. rewrite Hz. cbn.
      left. repeat split; [discriminate|now apply Qeq_bool_iff].
  - destruct (group_into_measures_spec midi_notes time_signature tempo Hnz)
      as (measures & Hrun & Hcat & _).
    rewrite Hrun. unfold mbind, TabConv.M_bind, TabConv.lift.
    pose proof (convert_measures_spec time_signature tempo measures 0 st Hcache) as H.
    unfold enumerate.
    destruct (TabConv.convert_measures config time_signature tempo
                (enumerate_from 0 measures) st) as [[tms st']|e].
    + destruct H as (_ & Hnum & Hall).
      destruct (measures_ok_count _ _ Hall) as (Hcount & Hpp & _).
      split; [now right|]. split; [|split].
      * rewrite Hnum.
        assert (Hlen : length measures = length tms).
        { rewrite (Forall2_length _ _ _ Hall). apply length_map. }
        rewrite <- Hlen, <- seq_shift, map_map. apply map_ext. intros k. lia.
      * rewrite Hcount, Hcat. apply passing_notes_perm, sorted_perm.
      * intros Hc. specialize (Hpp Hc).
        exact (proj1 (List.Forall_map TabConv.notes _ tms) Hpp).
    + right. destruct H as [-> Hd]. auto.
Qed.

End TabConvPipeline.

Section TabConvPipelineWitness.

Import Py.

Lemma tabconverter_outcome_witness :
  cache_ok TabConv.default_configuration TabConv.new_converter
  /\ match TabConv.convert_midi_to_tab TabConv.default_configuration
             [note_dict 64 0 (1 # 2) 80; note_dict 88 (1 # 2) 1 80; note_dict 45 3 4 80]
             (4, 4) 120 TabConv.new_converter with
     | Ok (tab_measures, _) =>
       map TabConv.number tab_measures = [1; 2]
       /\ length (concat (map TabConv.notes tab_measures)) = 2%nat
     | Raise _ => False
     end.
Proof.
  split; [apply cache_ok_new|].
  pose proof (tabconverter_outcome TabConv.default_configuration
                [note_dict 64 0 (1 # 2) 80; note_dict 88 (1 # 2) 1 80; note_dict 45 3 4 80]
                (4, 4) 120 TabConv.new_converter (cache_ok_new _)) as H.
  destruct (TabConv.convert_midi_to_tab TabConv.default_configuration _ (4, 4) 120
              TabConv.new_converter) as [[tms st']|e] eqn:E.
  - destruct H as (_ & Hnum & Hcount & _). split.
    + vm_compute in E. injection E as <- _. reflexivity.
    + rewrite Hcount. reflexivity.
  - vm_compute in E. discriminate.
Defined.

End TabConvPipelineWitness.

(** ** ChordShapeDetector: barre chords *)

Section BarreChords.

Import Py.

Lemma min_from_spec (l : list Z) (best : Z) :
  In (min_from best l) (best :: l)
  /\ min_from best l <= best
  /\ List.Forall (fun x => min_from best l <= x) l.
Proof.
  revert best. induction l as [|x l IH]; intros best; simpl.
  - split; [now left|]. split; [lia|constructor].
  - destruct (IH (if x <? best then x else best)) as (Hin & Hle & Hall).
    destruct (x <? best) eqn:E.
    + apply Z.ltb_lt in E. split; [|split].
      * destruct Hin as [<-|Hin]; [right; now left|right; now right].
      * lia.
      * constructor; [lia|exact Hall].
    + apply Z.ltb_ge in E. split; [|split].
      * destruct Hin as [<-|Hin]; [now left|right; now right].
      * lia.
      * constructor; [lia|exact Hall].
Qed.

Lemma min_spec (l : list Z) (m : Z) :
  min l = Ok m <-> In m l /\ List.Forall (fun x => m <= x) l.
Proof.
  destruct l as [|x l]; simpl.
  - split; [discriminate|intros [[] _]].
  - destruct (min_from_spec l x) as (Hin & Hle & Hall). split.
    + intros [= <-]. split; [exact Hin|]. constructor; [exact Hle|exact Hall].
    + intros [Hm Hmall]. f_equal.
      assert (H1 : m <= min_from x l)
        by exact (proj1 (List.Forall_forall (fun y => m <= y) _) Hmall _ Hin).
      assert (H2 : min_from x l <= m).
      { destruct Hm as [<-|Hm]; [exact Hle|].
        exact (proj1 (List.Forall_forall _ _) Hall _ Hm). }
      lia.
Qed.

Lemma min_perm (l l' : list Z) : Permutation l l' -> min l = min l'.
Proof.
  intros Hp. destruct (min l) as [m|e] eqn:E.
  - symmetry. apply min_spec. apply min_spec in E as [Hin Hall]. split.
    + now apply (Permutation_in _ Hp).
    + apply List.Forall_forall. intros x Hx.
      apply (proj1 (List.Forall_forall _ _) Hall).
      now apply (Permutation_in _ (Permutation_sym Hp)).
  - destruct l as [|x l]; [|discriminate].
    apply Permutation_nil in Hp. subst. symmetry. exact E.
Qed.

Lemma filter_perm {A} (f : A -> bool) (l l' : list A) :
  Permutation l l' -> Permutation (List.filter f l) (List.filter f l').
Proof.
  induction 1 as [|x l l' _ IH|x y l|l l' l'' _ IH1 _ IH2]; simpl.
  - constructor.
  - destruct (f x); [now constructor|exact IH].
  - destruct (f x), (f y); try reflexivity. apply perm_swap.
  - now transitivity (List.filter f l').
Qed.

Lemma forallb_perm {A} (f : A -> bool) (l l' : list A) :
  Permutation l l' -> forallb f l = forallb f l'.
Proof.
  induction 1 as [|x l l' _ IH|x y l|l l' l'' _ IH1 _ IH2]; simpl.
  - reflexivity.
  - now rewrite IH.
  - destruct (f x), (f y); reflexivity.
  - congruence.
Qed.

(** The order of the notes does not matter to [_matches_shape]. *)
Lemma matches_shape_perm (positions positions' shape : list (Z * Z)) :
  Permutation positions positions' ->
  TabConv._matches_shape positions shape = TabConv._matches_shape positions' shape.
Proof.
  intros Hp. unfold TabConv._matches_shape.
  rewrite (Permutation_length Hp).
  rewrite (min_perm _ _ (filter_perm (fun f => 0 <? f) _ _ (Permutation_map snd Hp))).
  destruct (negb _); [reflexivity|].
  destruct (min (List.filter _ (map snd positions'))) as [m1|e1]; [|reflexivity].
  cbn. destruct (min (List.filter _ (map snd shape))) as [m2|e2]; [|reflexivity].
  cbn. f_equal. now apply forallb_perm.
Qed.

Lemma fretted_moved_up (k : Z) (positions : list (Z * Z)) :
  0 <= k ->
  List.filter (fun f => 0 <? f) (map snd (moved_up k positions))
  = map (fun f => f + k) (List.filter (fun f => 0 <? f) (map snd positions)).
Proof.
  intros Hk. induction positions as [|[s f] l IH]; simpl; [reflexivity|].
  destruct (0 <? f) eqn:E; simpl.
  - apply Z.ltb_lt in E. destruct (0 <? f + k) eqn:E'; [|apply Z.ltb_ge in E'; lia].
    simpl. now rewrite IH.
  - rewrite E. exact IH.
Qed.

Lemma min_shift (k : Z) (l : list Z) (m : Z) :
  min l = Ok m -> min (map (fun f => f + k) l) = Ok (m + k).
Proof.
  intros H. apply min_spec in H as [Hin Hall]. apply min_spec. split.
  - apply in_map_iff. now exists m.
  - apply List.Forall_forall. intros x Hx.
    apply in_map_iff in Hx as (y & <- & Hy).
    pose proof (proj1 (List.Forall_forall _ _) Hall _ Hy) as Hle. simpl in Hle. lia.
Qed.

Lemma forallb_map_ext {A B} (f : B -> bool) (g : A -> bool) (h : A -> B) (l : list A) :
  (forall x, f (h x) = g x) -> forallb f (map h l) = forallb g l.
Proof. intros H. induction l as [|x l IH]; simpl; [reflexivity|]. now rewrite H, IH. Qed.

Lemma existsb_map_ext {A B} (f g : B -> bool) (h1 h2 : A -> B) (l : list A) :
  (forall x, In x l -> f (h1 x) = g (h2 x)) ->
  existsb f (map h1 l) = existsb g (map h2 l).
Proof.
  induction l as [|x l IH]; intros H; simpl; [reflexivity|].
  rewrite H by now left. rewrite IH; [reflexivity|]. intros y Hy. apply H. now right.
Qed.

(** Moving the played positions up the neck does not change what
    [_matches_shape] answers. *)
Lemma matches_shape_moved_up (k : Z) (positions shape : list (Z * Z)) :
  0 <= k ->
  TabConv._matches_shape (moved_up k positions) shape
  = TabConv._matches_shape positions shape.
Proof.
  intros Hk. unfold TabConv._matches_shape.
  rewrite fretted_moved_up by exact Hk.
  unfold moved_up at 1. rewrite length_map.
  destruct (negb _); [reflexivity|].
  destruct (min (List.filter _ (map snd positions))) as [m1|e1] eqn:E1.
  - rewrite (min_shift k _ _ E1). cbn.
    destruct (min (List.filter _ (map snd shape))) as [m2|e2] eqn:E2; [|reflexivity].
    cbn. f_equal.
    apply min_spec in E1 as [Hin1 _]. apply filter_In in Hin1 as [_ Hpos1].
    apply Z.ltb_lt in Hpos1.
    apply min_spec in E2 as [_ Hall2].
    unfold moved_up.
    rewrite (forallb_map_ext _
               (fun pos => existsb (TabConv.pair_eqb pos)
                             (map (fun '(s, f) => (s, if 0 <? f then f + (m1 - m2) else 0))
                                  shape))); [reflexivity|].
    intros [s f]. apply existsb_map_ext. intros [s' f'] Hin'.
    unfold TabConv.pair_eqb. simpl. f_equal.
    destruct (0 <? f') eqn:Ef'.
    + assert (Hge : m2 <= f').
      { apply (proj1 (List.Forall_forall _ _) Hall2). apply filter_In.
        split; [|exact Ef']. apply in_map_iff. now exists (s', f'). }
      destruct (0 <? f) eqn:Ef.
      * destruct (f + k =? f' + (m1 + k - m2)) eqn:E, (f =? f' + (m1 - m2)) eqn:E';
          try reflexivity; lia.
      * apply Z.ltb_ge in Ef.
        destruct (f =? f' + (m1 + k - m2)) eqn:E, (f =? f' + (m1 - m2)) eqn:E';
          try reflexivity; lia.
    + destruct (0 <? f) eqn:Ef; [|reflexivity].
      apply Z.ltb_lt in Ef.
      destruct (f + k =? 0) eqn:E, (f =? 0) eqn:E'; try reflexivity; lia.
  - destruct (List.filter _ (map snd positions)); [|discriminate].
    simpl in E1. injection E1 as <-. reflexivity.
Qed.

Lemma detect_in_shapes_ext (positions positions' : list (Z * Z))
    (shapes : list (String.string * list (Z * Z))) :
  (forall shape, TabConv._matches_shape positions shape
                 = TabConv._matches_shape positions' shape) ->
  TabConv.detect_in_shapes positions shapes = TabConv.detect_in_shapes positions' shapes.
Proof.
  intros H. induction shapes as [|[name shape] rest IH]; simpl; [reflexivity|].
  now rewrite H, IH.
Qed.

(** Barre chords.  When the notes of a group, in any order, are on
    the strings and frets of one of the common chord shapes with its
    fretted strings moved any number of frets up the neck (its open
    strings staying open), [detect_chord_shape] returns the name of
    that shape. *)
Theorem barre_chords_are_detected
    (notes : list TabConv.GuitarNote) (chord_name : String.string)
    (shape : list (Z * Z)) (k : Z)
    (Hshape : In (chord_name, shape) TabConv.COMMON_SHAPES) (Hk : 0 <= k)
    (Hnotes : Permutation (map (fun n => (TabConv.string n, TabConv.fret n)) notes)
                          (moved_up k shape)) :
  TabConv.detect_chord_shape notes = Ok (Some chord_name).
Proof.
  unfold TabConv.detect_chord_shape.
  assert (Hlen : length notes = length shape).
  { rewrite <- (length_map (fun n => (TabConv.string n, TabConv.fret n)) notes).
    rewrite (Permutation_length Hnotes). unfold moved_up. apply length_map. }
  rewrite (detect_in_shapes_ext _ (moved_up k shape)) by
    (intros s; now apply matches_shape_perm).
  rewrite (detect_in_shapes_ext _ shape) by
    (intros s; now apply matches_shape_moved_up).
  rewrite Hlen. clear -Hshape.
  simpl in Hshape.
  repeat (destruct Hshape as [[= <- <-]|Hshape]; [vm_compute; reflexivity|]).
  destruct Hshape.
Qed.

Lemma barre_chords_are_detected_witness :
  TabConv.detect_chord_shape
    [guitar_note 48 2 3 0 1 80; guitar_note 43 1 3 0 1 80; guitar_note 54 3 4 0 1 80;
     guitar_note 60 4 5 0 1 80; guitar_note 64 5 5 0 1 80; guitar_note 67 6 3 0 1 80]
  = Ok (Some "F"%string).
Proof.
  apply (barre_chords_are_detected _ "F"%string
           [(1, 1); (2, 1); (3, 2); (4, 3); (5, 3); (6, 1)] 2).
  - simpl. tauto.
  - lia.
  - simpl. apply perm_swap.
Defined.

End BarreChords.

(** ** TabConverter: open strings pass the filters *)

Section TabConvOpenStrings.

Import Py.

Lemma compute_positions_fields (config : TabConv.TabConfiguration) (pitch : Z)
    (pos : TabConv.PositionDict) :
  In pos (TabConv.compute_positions config pitch) ->
  TabConv.pos_is_open pos = (TabConv.pos_fret pos =? 0)
  /\ TabConv.pos_difficulty pos
     = TabConv._calculate_difficulty (TabConv.pos_string pos) (TabConv.pos_fret pos)
  /\ TabConv.pos_position pos = TabConv._get_hand_position (TabConv.pos_fret pos).
Proof.
  unfold TabConv.compute_positions. intros Hin.
  apply in_flat_map in Hin as [[i op] [_ Hpos]].
  destruct ((0 <=? pitch - op) && (pitch - op <=? 24)); [|destruct Hpos].
  destruct Hpos as [<-|[]]. simpl. auto.
Qed.

(** A note whose pitch, less the capo, is the pitch of an open
    string is always converted when the difficulty threshold is not
    negative: the open position passes both filters whatever
    [max_position] is, so [_convert_note] returns exactly one note,
    logs no warning, and the note sounds the pitch asked for. *)
Theorem open_string_notes_are_always_converted
    (config : TabConv.TabConfiguration) (note : TabConv.NoteData)
    (measure_notes : list TabConv.GuitarNote) (st : TabConv.ConverterState) (s : Z)
    (Hcache : cache_ok config st)
    (Hthreshold : (0 <= TabConv.difficulty_threshold config)%Q)
    (Hopen : string_of (TabConv.tuning config) s
               (TabConv.note_pitch note - TabConv.capo_position config)) :
  exists g st',
    TabConv._convert_note config note measure_notes st = Ok ([g], st')
    /\ TabConv.log st' = TabConv.log st
    /\ TabConv.pitch g = TabConv.note_pitch note
    /\ pitch_preserved config g.
Proof.
  assert (Hex : exists pos,
             In pos (TabConv.compute_positions config
                       (TabConv.note_pitch note - TabConv.capo_position config))
             /\ TabConv.pos_string pos = s /\ TabConv.pos_fret pos = 0).
  { apply compute_positions_spec.
    exists (TabConv.note_pitch note - TabConv.capo_position config).
    split; [exact Hopen|]. lia. }
  destruct Hex as (pos & Hin & Hs & Hf).
  destruct (compute_positions_fields _ _ _ Hin) as (Hio & Hd & _).
  assert (Hkept : In pos (kept_positions config note)).
  { unfold kept_positions, TabConv._filter_positions. apply filter_In.
    split; [exact Hin|].
    rewrite Hio, Hd, Hf. simpl.
    rewrite andb_false_r. simpl.
    apply negb_true_iff, Qlt_bool_false_iff. exact Hthreshold. }
  destruct (convert_note_spec config note measure_notes st Hcache)
    as (gs & st' & Hrun & _ & Hcase).
  destruct (kept_positions config note) as [|p0 ps] eqn:Ek; [destruct Hkept|].
  destruct Hcase as (Hlog & pos' & Hin' & ->).
  exists (guitar_note_at note pos'), st'.
  split; [exact Hrun|]. split; [exact Hlog|]. split; [reflexivity|].
  apply (bound_to_kept_pitch_preserved config note).
  exists pos'. rewrite Ek. auto.
Qed.

Lemma open_string_notes_witness :
  exists g st',
    TabConv._convert_note TabConv.default_configuration (note_dict 40 0 1 80) []
      TabConv.new_converter = Ok ([g], st')
    /\ TabConv.log st' = []
    /\ TabConv.pitch g = 40.
Proof.
  destruct (open_string_notes_are_always_converted TabConv.default_configuration
              (note_dict 40 0 1 80) [] TabConv.new_converter 1)
    as (g & st' & Hrun & Hlog & Hp & _).
  - apply cache_ok_new.
  - vm_compute. discriminate.
  - split; [lia|reflexivity].
  - exists g, st'. auto.
Defined.

End TabConvOpenStrings.

(** ** TabRenderer: systems and groups of simultaneous notes *)

Section RendererGroups.

Import Py.

Variable config : TabRender.RenderConfiguration.

Let per_line : Z := Z.max 1 (TabRender.measures_per_line config).

Lemma systems_loop_spec (measures : list TabConv.TabMeasure) :
  forall systems current_system,
    List.Forall (fun s => Z.of_nat (length s) = per_line) systems ->
    Z.of_nat (length current_system) < per_line ->
    let '(systems', current_system') :=
      TabRender.systems_loop config measures systems current_system in
    List.Forall (fun s => Z.of_nat (length s) = per_line) systems'
    /\ Z.of_nat (length current_system') < per_line
    /\ concat systems' ++ current_system'
       = concat systems ++ current_system ++ measures.
Proof.
  induction measures as [|m rest IH]; intros systems cur Hfull Hcur;
    cbn [TabRender.systems_loop].
  - rewrite app_nil_r. auto.
  - destruct (_ <=? _) eqn:E.
    + apply Z.leb_le in E. rewrite length_app in E. simpl in E.
      specialize (IH (systems ++ [cur ++ [m]]) []).
      destruct (TabRender.systems_loop config rest (systems ++ [cur ++ [m]]) [])
        as [systems' cur'].
      destruct IH as (Hfull' & Hcur' & Hcat).
      * apply List.Forall_app. split; [exact Hfull|].
        constructor; [|constructor]. rewrite length_app. simpl.
        unfold per_line in *. lia.
      * simpl. unfold per_line. lia.
      * split; [exact Hfull'|]. split; [exact Hcur'|].
        rewrite Hcat, concat_app. simpl. now rewrite app_nil_r, <- !app_assoc.
    + apply Z.leb_gt in E. rewrite length_app in E. simpl in E.
      specialize (IH systems (cur ++ [m])).
      destruct (TabRender.systems_loop config rest systems (cur ++ [m]))
        as [systems' cur'].
      destruct IH as (Hfull' & Hcur' & Hcat).
      * exact Hfull.
      * rewrite length_app. simpl. unfold per_line in *. lia.
      * split; [exact Hfull'|]. split; [exact Hcur'|].
        now rewrite Hcat, <- !app_assoc.
Qed.

(** [_group_into_systems] cuts the measures, in their order, into
    systems of [measures_per_line] measures (of one measure when that
    setting is below 1): the systems put end to end are the measures, no
    system is empty, and every system but the last one is full. *)
Theorem systems_partition_the_measures (measures : list TabConv.TabMeasure) :
  concat (TabRender._group_into_systems config measures) = measures
  /\ List.Forall (fun s => 1 <= Z.of_nat (length s)
                           <= Z.max 1 (TabRender.measures_per_line config))
                 (TabRender._group_into_systems config measures)
  /\ forall i s,
       TabRender._group_into_systems config measures !! i = Some s ->
       (S i < length (TabRender._group_into_systems config measures))%nat ->
       Z.of_nat (length s) = Z.max 1 (TabRender.measures_per_line config).
Proof.
  unfold TabRender._group_into_systems.
  pose proof (systems_loop_spec measures [] []) as H.
  destruct (TabRender.systems_loop config measures [] []) as [systems cur].
  destruct H as (Hfull & Hcur & Hcat).
  - constructor.
  - simpl. unfold per_line. lia.
  - simpl in Hcat. fold per_line.
    assert (Hfull' : List.Forall (fun s => 1 <= Z.of_nat (length s) <= per_line) systems).
    { apply (List.Forall_impl _ (P := fun s => Z.of_nat (length s) = per_line));
        [|exact Hfull].
      intros s Hs. unfold per_line in *. lia. }
    destruct cur as [|c cs].
    + rewrite app_nil_r in Hcat. split; [exact Hcat|]. split; [exact Hfull'|].
      intros i s Hi _.
      apply (proj1 (List.Forall_forall _ _) Hfull).
      apply list_elem_of_In. now apply list_elem_of_lookup_2 in Hi.
    + split; [|split].
      * rewrite concat_app. simpl. now rewrite app_nil_r.
      * apply List.Forall_app. split; [exact Hfull'|].
        constructor; [|constructor]. simpl length in *. lia.
      * intros i s Hi Hlt. rewrite length_app in Hlt. simpl in Hlt.
        rewrite lookup_app_l in Hi by lia.
        apply (proj1 (List.Forall_forall _ _) Hfull).
        apply list_elem_of_In. now apply list_elem_of_lookup_2 in Hi.
Qed.

Lemma rendered_together_singleton (n : TabConv.GuitarNote) : rendered_together [n].
Proof.
  exists n. split; [reflexivity|]. constructor; [|constructor].
  apply Qabs_case; intros _; lra.
Qed.

Lemma simultaneous_loop_spec (sorted_notes : list TabConv.GuitarNote) :
  forall groups current_group,
    List.Forall rendered_together groups ->
    rendered_together current_group ->
    exists groups' current_group',
      TabRender.simultaneous_loop sorted_notes groups current_group
      = Ok (groups', current_group')
      /\ List.Forall rendered_together groups'
      /\ rendered_together current_group'
      /\ concat groups' ++ current_group'
         = concat groups ++ current_group ++ sorted_notes.
Proof.
  induction sorted_notes as [|n rest IH]; intros groups cur Hg Hc;
    cbn [TabRender.simultaneous_loop].
  - exists groups, cur. rewrite app_nil_r. auto.
  - destruct Hc as (first & Hh & Hall).
    destruct cur as [|c cs]; [discriminate|]. simpl in Hh. injection Hh as ->.
    rewrite index_head. cbn [mbind result_bind rbind].
    destruct (Qlt_bool _ _) eqn:E.
    + apply Qlt_bool_iff in E.
      destruct (IH groups ((first :: cs) ++ [n])) as (gs & c' & Hrun & Hgs & Hc' & Hcat).
      * exact Hg.
      * exists first. split; [reflexivity|].
        apply List.Forall_app. split; [exact Hall|]. constructor; [exact E|constructor].
      * exists gs, c'. split; [exact Hrun|]. split; [exact Hgs|]. split; [exact Hc'|].
        now rewrite Hcat, <- !app_assoc.
    + destruct (IH (groups ++ [first :: cs]) [n]) as (gs & c' & Hrun & Hgs & Hc' & Hcat).
      * apply List.Forall_app. split; [exact Hg|].
        constructor; [|constructor]. now exists first.
      * apply rendered_together_singleton.
      * exists gs, c'. split; [exact Hrun|]. split; [exact Hgs|]. split; [exact Hc'|].
        rewrite Hcat, concat_app. simpl. now rewrite app_nil_r, <- !app_assoc.
Qed.

Lemma group_simultaneous_notes_spec (notes : list TabConv.GuitarNote) :
  exists groups,
    TabRender._group_simultaneous_notes notes = Ok groups
    /\ concat groups = sorted TabConv.start_time notes
    /\ List.Forall rendered_together groups.
Proof.
  unfold TabRender._group_simultaneous_notes.
  destruct notes as [|n0 notes0]; [exists []; repeat split; constructor|].
  pose proof (sorted_length TabConv.start_time (n0 :: notes0)) as Hlen.
  destruct (sorted TabConv.start_time (n0 :: notes0)) as [|first rest];
    [discriminate|].
  rewrite index_head. cbn [mbind result_bind rbind].
  change (drop 1 (first :: rest)) with rest.
  destruct (simultaneous_loop_spec rest [] [first])
    as (gs & c' & Hrun & Hgs & Hc' & Hcat).
  - constructor.
  - apply rendered_together_singleton.
  - rewrite Hrun. cbn [mbind result_bind rbind]. simpl in Hcat.
    destruct c' as [|c cs].
    + destruct Hc' as (f & Hh & _). discriminate.
    + exists (gs ++ [c :: cs]). split; [reflexivity|]. split.
      * rewrite concat_app. simpl. now rewrite app_nil_r.
      * apply List.Forall_app. split; [exact Hgs|]. constructor; [exact Hc'|constructor].
Qed.

End RendererGroups.

Section RendererGroupsResults.

Import Py.

(** [_group_simultaneous_notes] never fails; it cuts the notes of a
    measure, sorted by start time, into consecutive groups whose notes
    all start less than 10 ms from the first note of the group. *)
Theorem simultaneous_groups_partition_the_notes (notes : list TabConv.GuitarNote) :
  exists groups,
    TabRender._group_simultaneous_notes notes = Ok groups
    /\ concat groups = sorted TabConv.start_time notes
    /\ List.Forall rendered_together groups.
Proof. apply group_simultaneous_notes_spec. Qed.

End RendererGroupsResults.

(** ** TabRenderer: the notes of a measure *)

Section RendererNotes.

Import Py.

Lemma measure_duration_nonzero (beats : Z) (tempo : Q) :
  ~ (tempo == 0)%Q -> beats <> 0 -> ~ (inject_Z beats * (60 / tempo) == 0)%Q.
Proof.
  intros Ht Hb H. apply Qmult_integral in H as [H|H].
  - unfold Qeq in H. simpl in H. lia.
  - assert (H60 : (tempo * (60 / tempo) == 60)%Q) by now apply Qmult_div_r.
    rewrite H in H60. revert H60. unfold Qeq. simpl. lia.
Qed.

Lemma get_vexflow_duration_ok (duration measure_duration : Q) :
  ~ (measure_duration == 0)%Q ->
  exists symbol,
    TabRender._get_vexflow_duration duration measure_duration = Ok symbol
    /\ In symbol (map snd TabRender.DURATION_MAP).
Proof.
  intros Hmd. unfold TabRender._get_vexflow_duration.
  rewrite (truediv_nonzero _ _ Hmd). cbn [mbind result_bind rbind].
  unfold TabRender.DURATION_MAP at 1, min_by. cbn [mbind result_bind rbind].
  eexists. split; [reflexivity|].
  apply in_map. apply (min_by_from_in _ (4%Q, "w"%string)).
Qed.

Lemma get_vexflow_duration_zero (duration measure_duration : Q) :
  (measure_duration == 0)%Q ->
  TabRender._get_vexflow_duration duration measure_duration = Raise ZeroDivisionError.
Proof.
  intros Hmd. unfold TabRender._get_vexflow_duration, truediv.
  apply Qeq_bool_iff in Hmd. now rewrite Hmd.
Qed.

Lemma render_group_ok (measure : TabConv.TabMeasure) (group : list TabConv.GuitarNote) :
  ~ (TabConv.tempo measure == 0)%Q -> fst (TabConv.time_signature measure) <> 0 ->
  group <> [] ->
  exists v,
    TabRender.render_group measure group = Ok v
    /\ TabRender.positions v = map vexflow_position group
    /\ In (TabRender.duration v) (map snd TabRender.DURATION_MAP).
Proof.
  intros Ht Hb Hne. destruct group as [|first rest]; [congruence|].
  unfold TabRender.render_group, TabRender._calculate_measure_duration.
  rewrite index_head, (truediv_nonzero _ _ Ht). cbn [mbind result_bind rbind].
  pose proof (measure_duration_nonzero _ _ Ht Hb) as Hmd.
  destruct (length (first :: rest) =? 1)%nat eqn:El.
  - unfold TabRender.format_tab_note.
    destruct (get_vexflow_duration_ok
                (TabConv.end_time first - TabConv.start_time first) _ Hmd)
      as (symbol & Hrun & Hin).
    rewrite Hrun. cbn [mbind result_bind rbind].
    eexists. split; [reflexivity|]. split; [|exact Hin].
    destruct rest; [reflexivity|discriminate].
  - destruct (get_vexflow_duration_ok
                (TabConv.end_time first - TabConv.start_time first) _ Hmd)
      as (symbol & Hrun & Hin).
    rewrite Hrun. cbn [mbind result_bind rbind].
    eexists. split; [reflexivity|]. split; [reflexivity|exact Hin].
Qed.

Lemma render_group_raises (measure : TabConv.TabMeasure) (group : list TabConv.GuitarNote) :
  (TabConv.tempo measure == 0)%Q \/ fst (TabConv.time_signature measure) = 0 ->
  group <> [] ->
  TabRender.render_group measure group = Raise ZeroDivisionError.
Proof.
  intros Hz Hne. destruct group as [|first rest]; [congruence|].
  unfold TabRender.render_group, TabRender._calculate_measure_duration.
  rewrite index_head. cbn [mbind result_bind rbind].
  destruct (Qeq_dec (TabConv.tempo measure) 0) as [Ht|Ht].
  - unfold truediv. apply Qeq_bool_iff in Ht. rewrite Ht.
    now destruct (length (first :: rest) =? 1)%nat.
  - destruct Hz as [Hz|Hb]; [contradiction|].
    rewrite (truediv_nonzero _ _ Ht). cbn [mbind result_bind rbind].
    rewrite Hb. unfold TabRender.format_tab_note.
    rewrite get_vexflow_duration_zero by (unfold Qeq; simpl; lia).
    now destruct (length (first :: rest) =? 1)%nat.
Qed.

Lemma rendered_together_nonempty (group : list TabConv.GuitarNote) :
  rendered_together group -> group <> [].
Proof. intros (first & Hh & _) ->. discriminate. Qed.

(** [_render_measure_notes] shows every note of the measure at
    exactly one position, in the order of the start times, with the
    string number mirrored (6 - string + 1), and gives every rendered
    note one of the six duration symbols.  It fails, with
    ZeroDivisionError, exactly when the measure has a note and its tempo
    or its number of beats is 0. *)
Theorem every_note_is_rendered_at_one_position (measure : TabConv.TabMeasure) :
  match TabRender._render_measure_notes measure with
  | Ok vexflow_notes =>
    (TabConv.notes measure = []
     \/ (~ (TabConv.tempo measure == 0)%Q /\ fst (TabConv.time_signature measure) <> 0))
    /\ concat (map TabRender.positions vexflow_notes)
       = map vexflow_position (sorted TabConv.start_time (TabConv.notes measure))
    /\ List.Forall (fun v => In (TabRender.duration v) (map snd TabRender.DURATION_MAP))
                   vexflow_notes
  | Raise e =>
    e = ZeroDivisionError /\ TabConv.notes measure <> []
    /\ ((TabConv.tempo measure == 0)%Q \/ fst (TabConv.time_signature measure) = 0)
  end.
Proof.
  unfold TabRender._render_measure_notes.
  destruct (group_simultaneous_notes_spec (TabConv.notes measure))
    as (groups & Hrun & Hcat & Hall).
  rewrite Hrun. cbn [mbind result_bind rbind].
  destruct (Qeq_dec (TabConv.tempo measure) 0) as [Ht|Ht];
    [|destruct (Z.eq_dec (fst (TabConv.time_signature measure)) 0) as [Hb|Hb]].
  3: {
    assert (H : exists vs, mapM (TabRender.render_group measure) groups = Ok vs
                           /\ concat (map TabRender.positions vs)
                              = map vexflow_position (concat groups)
                           /\ List.Forall
                                (fun v => In (TabRender.duration v)
                                             (map snd TabRender.DURATION_MAP)) vs).
    { clear Hrun Hcat. induction Hall as [|g gs Hg _ IH].
      - exists []. repeat split; constructor.
      - destruct IH as (vs & Hvs & Hpos & Hdur).
        destruct (render_group_ok measure g Ht Hb (rendered_together_nonempty g Hg))
          as (v & Hv & Hp & Hd).
        exists (v :: vs).
        change (mapM (TabRender.render_group measure) (g :: gs))
          with (rbind (TabRender.render_group measure g)
                      (fun y => rbind (mapM (TabRender.render_group measure) gs)
                                      (fun k => Ok (y :: k)))).
        rewrite Hv. cbn [rbind]. rewrite Hvs. cbn [rbind].
        split; [reflexivity|]. split.
        + simpl. now rewrite Hp, Hpos, map_app.
        + constructor; assumption. }
    destruct H as (vs & Hvs & Hpos & Hdur). rewrite Hvs.
    split; [right; now split|]. split; [now rewrite Hpos, Hcat|exact Hdur]. }
  all: destruct groups as [|g gs];
    [ assert (Hn : TabConv.notes measure = []);
      [ apply length_zero_iff_nil;
        rewrite <- (sorted_length TabConv.start_time), <- Hcat; reflexivity
      | rewrite Hn; cbn; split; [now left|split; [reflexivity|constructor]] ]
    | assert (Hn : TabConv.notes measure <> []);
      [ intros Hn; rewrite Hn in Hcat; simpl in Hcat;
        apply List.Forall_cons_iff in Hall as [Hg _];
        apply rendered_together_nonempty in Hg;
        destruct g; [congruence|discriminate]
      | apply List.Forall_cons_iff in Hall as [Hg _];
        change (mapM (TabRender.render_group measure) (g :: gs))
          with (rbind (TabRender.render_group measure g)
                      (fun y => rbind (mapM (TabRender.render_group measure) gs)
                                      (fun k => Ok (y :: k))));
        rewrite render_group_raises;
        [ cbn [rbind]; split; [reflexivity|split; [exact Hn|auto]]
        | auto
        | now apply rendered_together_nonempty ] ] ].
Qed.

End RendererNotes.

(** ** Chord shapes and chord diagrams *)

Section ChordDiagrams.

Import Py.

Lemma diagrams_loop_no_shape (measure_notes notes : list TabConv.GuitarNote)
    (diagrams : list TabRender.ChordDiagram) (seen_shapes : gset String.string) :
  List.Forall no_chord_shape notes ->
  TabRender.diagrams_loop measure_notes notes diagrams seen_shapes = Ok diagrams.
Proof.
  induction 1 as [|n notes [Hn _] _ IH]; simpl; [reflexivity|].
  now rewrite Hn.
Qed.

(** The chord shapes that [_assign_chord_fingerings] detects never
    reach the tablature.  They are written into the input note dicts,
    which [_convert_note] does not read: in every measure that
    [convert_midi_to_tab] returns, no note has a chord shape or is
    marked as a chord tone, and the renderer extracts no chord diagram
    from the measure. *)
Theorem detected_chord_shapes_never_reach_the_tablature
    (config : TabConv.TabConfiguration) (midi_notes : list TabConv.NoteData)
    (time_signature : Z * Z) (tempo : Q) (st : TabConv.ConverterState)
    (Hcache : cache_ok config st) :
  match TabConv.convert_midi_to_tab config midi_notes time_signature tempo st with
  | Ok (tab_measures, _) =>
    List.Forall (fun m => List.Forall no_chord_shape (TabConv.notes m)
                          /\ TabRender._extract_chord_diagrams m = Ok [])
                tab_measures
  | Raise e => e = ZeroDivisionError \/ e = ValueError
  end.
Proof.
  unfold TabConv.convert_midi_to_tab.
  destruct (Qeq_dec tempo 0) as [Hz|Hnz].
  - destruct midi_notes as [|n rest].
    + cbn. constructor.
    + unfold TabConv._group_into_measures, truediv.
      apply Qeq_bool_iff in Hz. rewrite Hz. cbn. now left.
  - destruct (group_into_measures_spec midi_notes time_signature tempo Hnz)
      as (measures & Hrun & _).
    rewrite Hrun. unfold mbind, TabConv.M_bind, TabConv.lift.
    pose proof (convert_measures_spec config time_signature tempo measures 0 st Hcache)
      as H.
    unfold enumerate.
    destruct (TabConv.convert_measures config time_signature tempo
                (enumerate_from 0 measures) st) as [[tms st']|e].
    + destruct H as (_ & _ & Hall).
      destruct (measures_ok_count config _ _ Hall) as (_ & _ & Hns).
      apply (proj1 (List.Forall_map TabConv.notes _ tms)) in Hns.
      apply (List.Forall_impl _ (P := fun m => List.Forall no_chord_shape (TabConv.notes m)));
        [|exact Hns].
      intros m Hm. split; [exact Hm|].
      unfold TabRender._extract_chord_diagrams. now apply diagrams_loop_no_shape.
    + right. now destruct H.
Qed.

Lemma detected_chord_shapes_witness :
  cache_ok TabConv.default_configuration TabConv.new_converter
  /\ match TabConv.convert_midi_to_tab TabConv.default_configuration
             [note_dict 60 0 1 80; note_dict 65 0 1 80; note_dict 71 0 1 80;
              note_dict 77 0 1 80; note_dict 81 0 1 80; note_dict 84 0 1 80]
             (4, 4) 120 TabConv.new_converter with
     | Ok (tab_measures, st') =>
       head (TabConv.log st') = Some (TabConv.INFO_detected_chord_shape "F")
       /\ List.Forall (fun m => List.Forall no_chord_shape (TabConv.notes m))
                      tab_measures
     | Raise _ => False
     end.
Proof.
  split; [apply cache_ok_new|].
  pose proof (detected_chord_shapes_never_reach_the_tablature TabConv.default_configuration
                [note_dict 60 0 1 80; note_dict 65 0 1 80; note_dict 71 0 1 80;
              note_dict 77 0 1 80; note_dict 81 0 1 80; note_dict 84 0 1 80]
                (4, 4) 120 TabConv.new_converter (cache_ok_new _)) as H.
  destruct (TabConv.convert_midi_to_tab TabConv.default_configuration _ (4, 4) 120
              TabConv.new_converter) as [[tms st']|e] eqn:E.
  - split.
    + vm_compute in E. injection E as _ <-. reflexivity.
    + apply (List.Forall_impl _ (P := fun m =>
               List.Forall no_chord_shape (TabConv.notes m)
               /\ TabRender._extract_chord_diagrams m = Ok [])); [|exact H].
      now intros m [Hm _].
  - vm_compute in E. discriminate.
Defined.

End ChordDiagrams.
